(** * Validator store of the Polkadot staking rewards analyzer

    A shallow embedding of [src/stores/validatorStore.ts] (the zustand store
    holding the ranked validator list, the filtered projection, the record
    cache and the pagination state) and of the [totalPages] expression of
    [src/hooks/useValidatorData.ts].

    Modelling choices, each stated where it is used:
    - a JS [number] that the code computes with is a binary64 primitive
      float; a [number] that only ever holds an integer (era indices, era
      points, page numbers, lengths) is a [Z];
    - a [bigint] is a [Z], its division is [Z.quot];
    - [Record<string, T>] and [Record<number, T>] are [gmap]s;
    - the remote chain API is a record of functions (an oracle) whose
      answers are either a rejection or a value that may be absent;
    - an [async] store action is a function on a world made of the store,
      the log of the remote queries issued so far and the pending timers;
      the items of one [Promise.all] are run one after the other;
    - [prefetchValidators] is not modelled, only the timer that starts it. *)

From Stdlib Require Import ZArith Floats.
From stdpp Require Import gmap strings list fin_maps sorting pretty.

Local Open Scope Z_scope.

(** ** JavaScript numbers *)

Module JS.

(** [Number(b)] for a bigint [b]: the nearest binary64 value, ties to even. *)
Definition Number (z : Z) : float :=
  SF2Prim (binary_normalize prec emax z 0 false).

(** The integer part selected by [Math.floor] on a finite value
    [(-1)^s * m * 2^e]. *)
Definition floor_finite (s : bool) (m : positive) (e : Z) : Z :=
  let v := if s then Z.neg m else Z.pos m in
  if 0 <=? e then v * 2 ^ e else v / 2 ^ (- e).

Definition ceil_finite (s : bool) (m : positive) (e : Z) : Z :=
  - floor_finite (negb s) m e.

(** [Math.floor]: infinities, NaN and both zeros are returned as they are. *)
Definition Math_floor (x : float) : float :=
  match Prim2SF x with
  | S754_finite s m e => Number (floor_finite s m e)
  | _ => x
  end.

(** [Math.ceil]: a negative argument above [-1] gives the negative zero. *)
Definition Math_ceil (x : float) : float :=
  match Prim2SF x with
  | S754_finite s m e =>
      let c := ceil_finite s m e in
      if s && (c =? 0) then (-0)%float else Number c
  | _ => x
  end.

(** [BigInt(x)] for a number [x]: defined on integral values only, a
    [RangeError] ([None]) on NaN, the infinities and fractions. *)
Definition BigInt (x : float) : option Z :=
  match Prim2SF x with
  | S754_zero _ => Some 0
  | S754_finite s m e =>
      if (0 <=? e) || (Z.pos m mod 2 ^ (- e) =? 0)
      then Some (floor_finite s m e) else None
  | _ => None
  end.

(** Truthiness of a number: [0], [-0] and NaN are falsy. *)
Definition truthy (x : float) : bool :=
  negb (is_zero x || is_nan x).

(** [x || d] on numbers. *)
Definition or_else (x d : float) : float :=
  if truthy x then x else d.

(** [a !== b] on numbers. *)
Definition strict_neq (a b : float) : bool := negb (a =? b)%float.

(** [l.slice(s, e)] with integral bounds: a negative bound counts from the
    end of the array, both are clamped to the array. *)
Definition slice {A} (l : list A) (s e : Z) : list A :=
  let len := Z.of_nat (length l) in
  let k := if s <? 0 then Z.max (len + s) 0 else Z.min s len in
  let fin := if e <? 0 then Z.max (len + e) 0 else Z.min e len in
  take (Z.to_nat (fin - k)) (drop (Z.to_nat k) l).

(** [l.sort(cmp)]: the sort is stable, an element moves behind another one
    only when the comparator is positive on the pair.  Written as an
    insertion sort; for a comparator that is not a consistent order (NaN
    differences) an engine may give another arrangement of the same
    elements. *)
Fixpoint sort_insert {A} (cmp : A -> A -> float) (x : A) (l : list A) : list A :=
  match l with
  | [] => [x]
  | y :: l' =>
      if (0 <? cmp x y)%float then y :: sort_insert cmp x l' else x :: y :: l'
  end.

Definition sort {A} (cmp : A -> A -> float) (l : list A) : list A :=
  foldr (sort_insert cmp) [] l.

(** The groups visited by
    [for (let i = 0; i < l.length; i += b) { l.slice(i, i + b) ... }]. *)
Fixpoint batches_go {A} (fuel b : nat) (l : list A) : list (list A) :=
  match fuel, l with
  | S fuel', _ :: _ => take b l :: batches_go fuel' b (drop b l)
  | _, _ => []
  end.

Definition batches {A} (b : nat) (l : list A) : list (list A) :=
  batches_go (length l) b l.

End JS.

(** ** Data model *)

(** [Validator.performance]; the per-era points are integers. *)
Record Performance := {
  perf_currentEraPoints : Z;
  previousErasPoints : gmap Z Z;
  averagePoints : float
}.

(** [Validator.rewards]; amounts are bigints in plancks. *)
Record Rewards := {
  rew_currentEraReward : Z;
  previousErasRewards : gmap Z Z;
  apyByEra : gmap Z float;
  averageAPY : float;
  activeOnlyAverageAPY : float
}.

(** [interface Validator], the value type of the cache. *)
Record Validator := {
  address : string;
  commission : float;
  blockedNominations : bool;
  totalStake : Z;
  ownStake : Z;
  lastEraAPY : float;
  performance : Performance;
  rewards : Rewards;
  historicalCommission : gmap Z float;
  averageCommission : float
}.

(** An element of [allValidators]: [{ address, points }]. *)
Record Summary := {
  sm_address : string;
  sm_points : Z
}.

(** An element of [filteredValidators]:
    [{ address, points, lastEraAPY? }]. *)
Record Entry := {
  fe_address : string;
  fe_points : Z;
  fe_lastEraAPY : option float
}.

(** [[...allValidators]] seen at the type of the filtered projection: the
    objects carry no [lastEraAPY]. *)
Definition entry_of_summary (v : Summary) : Entry :=
  {| fe_address := sm_address v; fe_points := sm_points v; fe_lastEraAPY := None |}.

(** ** The remote chain API *)

(** Value of [Staking.ErasRewardPoints]. *)
Record EraRewardPoints := {
  ep_total : Z;
  ep_individual : list (string * Z)
}.

(** Value of [Staking.Validators] and [Staking.ErasValidatorPrefs]; the
    commission is in parts per billion. *)
Record ValidatorPrefs := {
  vp_commission : Z;
  vp_blocked : bool
}.

(** Value of [Staking.ErasStakersOverview]. *)
Record StakersOverview := {
  so_total : Z;
  so_own : Z
}.

(** A settled promise: rejected with an error message, or resolved. *)
Inductive response (A : Type) :=
  | Rejected (msg : string)
  | Resolved (a : A).
Arguments Rejected {A} msg.
Arguments Resolved {A} a.

(** [typedApi.query]: each [getValue] resolves to a value or to
    [undefined] ([None]), or rejects. *)
Record Api := {
  ActiveEra : response (option Z);
  SessionValidators : response (list string);
  ErasValidatorReward : Z -> response (option Z);
  ErasRewardPoints : Z -> response (option EraRewardPoints);
  Validators : string -> response (option ValidatorPrefs);
  ErasValidatorPrefs : Z -> string -> response (option ValidatorPrefs);
  ErasStakersOverview : Z -> string -> response (option StakersOverview)
}.

(** The queries a store action can issue. *)
Inductive Query :=
  | QActiveEra
  | QSessionValidators
  | QErasValidatorReward (era : Z)
  | QErasRewardPoints (era : Z)
  | QValidators (a : string)
  | QErasValidatorPrefs (era : Z) (a : string)
  | QErasStakersOverview (era : Z) (a : string).

(** The callbacks handed to [setTimeout]. *)
Inductive Task :=
  | RunCalculateLastEraAPYForAllValidators
  | RunPrefetchValidators.

(** ** The store *)

(** [interface ValidatorState], without its actions. *)
Record ValidatorState := {
  currentPage : Z;
  pageSize : Z;
  totalValidators : Z;
  allValidators : list Summary;
  filteredValidators : list Entry;
  displayedValidators : list Validator;
  validatorCache : gmap string Validator;
  prefetchSize : Z;
  activeEra : Z;
  lastEra : Z;
  currentEraReward : Z;
  currentEraPoints : option EraRewardPoints;
  historicalEras : list Z;
  historyLength : Z;
  maxHistoryLength : Z;
  selectedHistoricalValidator : option string;
  includeFullCommission : bool;
  includeBlockedNominations : bool;
  loading : bool;
  loadingPage : bool;
  loadingAPY : bool;
  loadingHistoricalData : bool;
  calculatingLastEraAPY : bool;
  lastEraAPYCalculated : bool;
  error : option string
}.

(** The initial values of the store. *)
Definition initialState : ValidatorState :=
  {| currentPage := 1; pageSize := 10; totalValidators := 0; allValidators := [];
     filteredValidators := []; displayedValidators := []; validatorCache := ∅;
     prefetchSize := 100; activeEra := 0; lastEra := 0; currentEraReward := 0;
     currentEraPoints := None; historicalEras := []; historyLength := 20;
     maxHistoryLength := 84; selectedHistoricalValidator := None;
     includeFullCommission := false; includeBlockedNominations := false;
     loading := false; loadingPage := false; loadingAPY := false;
     loadingHistoricalData := false; calculatingLastEraAPY := false;
     lastEraAPYCalculated := false; error := None |}.

(** One function per field written by [set({ field: v })]. *)

Definition set_currentPage (v : Z) (s : ValidatorState) : ValidatorState :=
  {| currentPage := v; pageSize := pageSize s; totalValidators := totalValidators s;
     allValidators := allValidators s; filteredValidators := filteredValidators s;
     displayedValidators := displayedValidators s; validatorCache := validatorCache s;
     prefetchSize := prefetchSize s; activeEra := activeEra s; lastEra := lastEra s;
     currentEraReward := currentEraReward s; currentEraPoints := currentEraPoints s;
     historicalEras := historicalEras s; historyLength := historyLength s;
     maxHistoryLength := maxHistoryLength s; selectedHistoricalValidator :=
     selectedHistoricalValidator s; includeFullCommission := includeFullCommission s;
     includeBlockedNominations := includeBlockedNominations s; loading := loading s;
     loadingPage := loadingPage s; loadingAPY := loadingAPY s; loadingHistoricalData :=
     loadingHistoricalData s; calculatingLastEraAPY := calculatingLastEraAPY s;
     lastEraAPYCalculated := lastEraAPYCalculated s; error := error s |}.

Definition set_pageSize (v : Z) (s : ValidatorState) : ValidatorState :=
  {| currentPage := currentPage s; pageSize := v; totalValidators := totalValidators s;
     allValidators := allValidators s; filteredValidators := filteredValidators s;
     displayedValidators := displayedValidators s; validatorCache := validatorCache s;
     prefetchSize := prefetchSize s; activeEra := activeEra s; lastEra := lastEra s;
     currentEraReward := currentEraReward s; currentEraPoints := currentEraPoints s;
     historicalEras := historicalEras s; historyLength := historyLength s;
     maxHistoryLength := maxHistoryLength s; selectedHistoricalValidator :=
     selectedHistoricalValidator s; includeFullCommission := includeFullCommission s;
     includeBlockedNominations := includeBlockedNominations s; loading := loading s;
     loadingPage := loadingPage s; loadingAPY := loadingAPY s; loadingHistoricalData :=
     loadingHistoricalData s; calculatingLastEraAPY := calculatingLastEraAPY s;
     lastEraAPYCalculated := lastEraAPYCalculated s; error := error s |}.

Definition set_totalValidators (v : Z) (s : ValidatorState) : ValidatorState :=
  {| currentPage := currentPage s; pageSize := pageSize s; totalValidators := v;
     allValidators := allValidators s; filteredValidators := filteredValidators s;
     displayedValidators := displayedValidators s; validatorCache := validatorCache s;
     prefetchSize := prefetchSize s; activeEra := activeEra s; lastEra := lastEra s;
     currentEraReward := currentEraReward s; currentEraPoints := currentEraPoints s;
     historicalEras := historicalEras s; historyLength := historyLength s;
     maxHistoryLength := maxHistoryLength s; selectedHistoricalValidator :=
     selectedHistoricalValidator s; includeFullCommission := includeFullCommission s;
     includeBlockedNominations := includeBlockedNominations s; loading := loading s;
     loadingPage := loadingPage s; loadingAPY := loadingAPY s; loadingHistoricalData :=
     loadingHistoricalData s; calculatingLastEraAPY := calculatingLastEraAPY s;
     lastEraAPYCalculated := lastEraAPYCalculated s; error := error s |}.

Definition set_filteredValidators (v : list Entry) (s : ValidatorState) : ValidatorState :=
  {| currentPage := currentPage s; pageSize := pageSize s; totalValidators :=
     totalValidators s; allValidators := allValidators s; filteredValidators := v;
     displayedValidators := displayedValidators s; validatorCache := validatorCache s;
     prefetchSize := prefetchSize s; activeEra := activeEra s; lastEra := lastEra s;
     currentEraReward := currentEraReward s; currentEraPoints := currentEraPoints s;
     historicalEras := historicalEras s; historyLength := historyLength s;
     maxHistoryLength := maxHistoryLength s; selectedHistoricalValidator :=
     selectedHistoricalValidator s; includeFullCommission := includeFullCommission s;
     includeBlockedNominations := includeBlockedNominations s; loading := loading s;
     loadingPage := loadingPage s; loadingAPY := loadingAPY s; loadingHistoricalData :=
     loadingHistoricalData s; calculatingLastEraAPY := calculatingLastEraAPY s;
     lastEraAPYCalculated := lastEraAPYCalculated s; error := error s |}.

Definition set_displayedValidators (v : list Validator) (s : ValidatorState) : ValidatorState :=
  {| currentPage := currentPage s; pageSize := pageSize s; totalValidators :=
     totalValidators s; allValidators := allValidators s; filteredValidators :=
     filteredValidators s; displayedValidators := v; validatorCache := validatorCache s;
     prefetchSize := prefetchSize s; activeEra := activeEra s; lastEra := lastEra s;
     currentEraReward := currentEraReward s; currentEraPoints := currentEraPoints s;
     historicalEras := historicalEras s; historyLength := historyLength s;
     maxHistoryLength := maxHistoryLength s; selectedHistoricalValidator :=
     selectedHistoricalValidator s; includeFullCommission := includeFullCommission s;
     includeBlockedNominations := includeBlockedNominations s; loading := loading s;
     loadingPage := loadingPage s; loadingAPY := loadingAPY s; loadingHistoricalData :=
     loadingHistoricalData s; calculatingLastEraAPY := calculatingLastEraAPY s;
     lastEraAPYCalculated := lastEraAPYCalculated s; error := error s |}.

Definition set_validatorCache (v : gmap string Validator) (s : ValidatorState) : ValidatorState :=
  {| currentPage := currentPage s; pageSize := pageSize s; totalValidators :=
     totalValidators s; allValidators := allValidators s; filteredValidators :=
     filteredValidators s; displayedValidators := displayedValidators s; validatorCache
     := v; prefetchSize := prefetchSize s; activeEra := activeEra s; lastEra := lastEra
     s; currentEraReward := currentEraReward s; currentEraPoints := currentEraPoints s;
     historicalEras := historicalEras s; historyLength := historyLength s;
     maxHistoryLength := maxHistoryLength s; selectedHistoricalValidator :=
     selectedHistoricalValidator s; includeFullCommission := includeFullCommission s;
     includeBlockedNominations := includeBlockedNominations s; loading := loading s;
     loadingPage := loadingPage s; loadingAPY := loadingAPY s; loadingHistoricalData :=
     loadingHistoricalData s; calculatingLastEraAPY := calculatingLastEraAPY s;
     lastEraAPYCalculated := lastEraAPYCalculated s; error := error s |}.

Definition set_historicalEras (v : list Z) (s : ValidatorState) : ValidatorState :=
  {| currentPage := currentPage s; pageSize := pageSize s; totalValidators :=
     totalValidators s; allValidators := allValidators s; filteredValidators :=
     filteredValidators s; displayedValidators := displayedValidators s; validatorCache
     := validatorCache s; prefetchSize := prefetchSize s; activeEra := activeEra s;
     lastEra := lastEra s; currentEraReward := currentEraReward s; currentEraPoints :=
     currentEraPoints s; historicalEras := v; historyLength := historyLength s;
     maxHistoryLength := maxHistoryLength s; selectedHistoricalValidator :=
     selectedHistoricalValidator s; includeFullCommission := includeFullCommission s;
     includeBlockedNominations := includeBlockedNominations s; loading := loading s;
     loadingPage := loadingPage s; loadingAPY := loadingAPY s; loadingHistoricalData :=
     loadingHistoricalData s; calculatingLastEraAPY := calculatingLastEraAPY s;
     lastEraAPYCalculated := lastEraAPYCalculated s; error := error s |}.

Definition set_historyLength (v : Z) (s : ValidatorState) : ValidatorState :=
  {| currentPage := currentPage s; pageSize := pageSize s; totalValidators :=
     totalValidators s; allValidators := allValidators s; filteredValidators :=
     filteredValidators s; displayedValidators := displayedValidators s; validatorCache
     := validatorCache s; prefetchSize := prefetchSize s; activeEra := activeEra s;
     lastEra := lastEra s; currentEraReward := currentEraReward s; currentEraPoints :=
     currentEraPoints s; historicalEras := historicalEras s; historyLength := v;
     maxHistoryLength := maxHistoryLength s; selectedHistoricalValidator :=
     selectedHistoricalValidator s; includeFullCommission := includeFullCommission s;
     includeBlockedNominations := includeBlockedNominations s; loading := loading s;
     loadingPage := loadingPage s; loadingAPY := loadingAPY s; loadingHistoricalData :=
     loadingHistoricalData s; calculatingLastEraAPY := calculatingLastEraAPY s;
     lastEraAPYCalculated := lastEraAPYCalculated s; error := error s |}.

Definition set_selectedHistoricalValidator (v : option string) (s : ValidatorState) : ValidatorState :=
  {| currentPage := currentPage s; pageSize := pageSize s; totalValidators :=
     totalValidators s; allValidators := allValidators s; filteredValidators :=
     filteredValidators s; displayedValidators := displayedValidators s; validatorCache
     := validatorCache s; prefetchSize := prefetchSize s; activeEra := activeEra s;
     lastEra := lastEra s; currentEraReward := currentEraReward s; currentEraPoints :=
     currentEraPoints s; historicalEras := historicalEras s; historyLength :=
     historyLength s; maxHistoryLength := maxHistoryLength s;
     selectedHistoricalValidator := v; includeFullCommission := includeFullCommission s;
     includeBlockedNominations := includeBlockedNominations s; loading := loading s;
     loadingPage := loadingPage s; loadingAPY := loadingAPY s; loadingHistoricalData :=
     loadingHistoricalData s; calculatingLastEraAPY := calculatingLastEraAPY s;
     lastEraAPYCalculated := lastEraAPYCalculated s; error := error s |}.

Definition set_includeFullCommission (v : bool) (s : ValidatorState) : ValidatorState :=
  {| currentPage := currentPage s; pageSize := pageSize s; totalValidators :=
     totalValidators s; allValidators := allValidators s; filteredValidators :=
     filteredValidators s; displayedValidators := displayedValidators s; validatorCache
     := validatorCache s; prefetchSize := prefetchSize s; activeEra := activeEra s;
     lastEra := lastEra s; currentEraReward := currentEraReward s; currentEraPoints :=
     currentEraPoints s; historicalEras := historicalEras s; historyLength :=
     historyLength s; maxHistoryLength := maxHistoryLength s;
     selectedHistoricalValidator := selectedHistoricalValidator s; includeFullCommission
     := v; includeBlockedNominations := includeBlockedNominations s; loading := loading
     s; loadingPage := loadingPage s; loadingAPY := loadingAPY s; loadingHistoricalData
     := loadingHistoricalData s; calculatingLastEraAPY := calculatingLastEraAPY s;
     lastEraAPYCalculated := lastEraAPYCalculated s; error := error s |}.

Definition set_includeBlockedNominations (v : bool) (s : ValidatorState) : ValidatorState :=
  {| currentPage := currentPage s; pageSize := pageSize s; totalValidators :=
     totalValidators s; allValidators := allValidators s; filteredValidators :=
     filteredValidators s; displayedValidators := displayedValidators s; validatorCache
     := validatorCache s; prefetchSize := prefetchSize s; activeEra := activeEra s;
     lastEra := lastEra s; currentEraReward := currentEraReward s; currentEraPoints :=
     currentEraPoints s; historicalEras := historicalEras s; historyLength :=
     historyLength s; maxHistoryLength := maxHistoryLength s;
     selectedHistoricalValidator := selectedHistoricalValidator s; includeFullCommission
     := includeFullCommission s; includeBlockedNominations := v; loading := loading s;
     loadingPage := loadingPage s; loadingAPY := loadingAPY s; loadingHistoricalData :=
     loadingHistoricalData s; calculatingLastEraAPY := calculatingLastEraAPY s;
     lastEraAPYCalculated := lastEraAPYCalculated s; error := error s |}.

Definition set_loadingPage (v : bool) (s : ValidatorState) : ValidatorState :=
  {| currentPage := currentPage s; pageSize := pageSize s; totalValidators :=
     totalValidators s; allValidators := allValidators s; filteredValidators :=
     filteredValidators s; displayedValidators := displayedValidators s; validatorCache
     := validatorCache s; prefetchSize := prefetchSize s; activeEra := activeEra s;
     lastEra := lastEra s; currentEraReward := currentEraReward s; currentEraPoints :=
     currentEraPoints s; historicalEras := historicalEras s; historyLength :=
     historyLength s; maxHistoryLength := maxHistoryLength s;
     selectedHistoricalValidator := selectedHistoricalValidator s; includeFullCommission
     := includeFullCommission s; includeBlockedNominations := includeBlockedNominations
     s; loading := loading s; loadingPage := v; loadingAPY := loadingAPY s;
     loadingHistoricalData := loadingHistoricalData s; calculatingLastEraAPY :=
     calculatingLastEraAPY s; lastEraAPYCalculated := lastEraAPYCalculated s; error :=
     error s |}.

Definition set_loadingAPY (v : bool) (s : ValidatorState) : ValidatorState :=
  {| currentPage := currentPage s; pageSize := pageSize s; totalValidators :=
     totalValidators s; allValidators := allValidators s; filteredValidators :=
     filteredValidators s; displayedValidators := displayedValidators s; validatorCache
     := validatorCache s; prefetchSize := prefetchSize s; activeEra := activeEra s;
     lastEra := lastEra s; currentEraReward := currentEraReward s; currentEraPoints :=
     currentEraPoints s; historicalEras := historicalEras s; historyLength :=
     historyLength s; maxHistoryLength := maxHistoryLength s;
     selectedHistoricalValidator := selectedHistoricalValidator s; includeFullCommission
     := includeFullCommission s; includeBlockedNominations := includeBlockedNominations
     s; loading := loading s; loadingPage := loadingPage s; loadingAPY := v;
     loadingHistoricalData := loadingHistoricalData s; calculatingLastEraAPY :=
     calculatingLastEraAPY s; lastEraAPYCalculated := lastEraAPYCalculated s; error :=
     error s |}.

Definition set_loadingHistoricalData (v : bool) (s : ValidatorState) : ValidatorState :=
  {| currentPage := currentPage s; pageSize := pageSize s; totalValidators :=
     totalValidators s; allValidators := allValidators s; filteredValidators :=
     filteredValidators s; displayedValidators := displayedValidators s; validatorCache
     := validatorCache s; prefetchSize := prefetchSize s; activeEra := activeEra s;
     lastEra := lastEra s; currentEraReward := currentEraReward s; currentEraPoints :=
     currentEraPoints s; historicalEras := historicalEras s; historyLength :=
     historyLength s; maxHistoryLength := maxHistoryLength s;
     selectedHistoricalValidator := selectedHistoricalValidator s; includeFullCommission
     := includeFullCommission s; includeBlockedNominations := includeBlockedNominations
     s; loading := loading s; loadingPage := loadingPage s; loadingAPY := loadingAPY s;
     loadingHistoricalData := v; calculatingLastEraAPY := calculatingLastEraAPY s;
     lastEraAPYCalculated := lastEraAPYCalculated s; error := error s |}.

Definition set_calculatingLastEraAPY (v : bool) (s : ValidatorState) : ValidatorState :=
  {| currentPage := currentPage s; pageSize := pageSize s; totalValidators :=
     totalValidators s; allValidators := allValidators s; filteredValidators :=
     filteredValidators s; displayedValidators := displayedValidators s; validatorCache
     := validatorCache s; prefetchSize := prefetchSize s; activeEra := activeEra s;
     lastEra := lastEra s; currentEraReward := currentEraReward s; currentEraPoints :=
     currentEraPoints s; historicalEras := historicalEras s; historyLength :=
     historyLength s; maxHistoryLength := maxHistoryLength s;
     selectedHistoricalValidator := selectedHistoricalValidator s; includeFullCommission
     := includeFullCommission s; includeBlockedNominations := includeBlockedNominations
     s; loading := loading s; loadingPage := loadingPage s; loadingAPY := loadingAPY s;
     loadingHistoricalData := loadingHistoricalData s; calculatingLastEraAPY := v;
     lastEraAPYCalculated := lastEraAPYCalculated s; error := error s |}.

Definition set_lastEraAPYCalculated (v : bool) (s : ValidatorState) : ValidatorState :=
  {| currentPage := currentPage s; pageSize := pageSize s; totalValidators :=
     totalValidators s; allValidators := allValidators s; filteredValidators :=
     filteredValidators s; displayedValidators := displayedValidators s; validatorCache
     := validatorCache s; prefetchSize := prefetchSize s; activeEra := activeEra s;
     lastEra := lastEra s; currentEraReward := currentEraReward s; currentEraPoints :=
     currentEraPoints s; historicalEras := historicalEras s; historyLength :=
     historyLength s; maxHistoryLength := maxHistoryLength s;
     selectedHistoricalValidator := selectedHistoricalValidator s; includeFullCommission
     := includeFullCommission s; includeBlockedNominations := includeBlockedNominations
     s; loading := loading s; loadingPage := loadingPage s; loadingAPY := loadingAPY s;
     loadingHistoricalData := loadingHistoricalData s; calculatingLastEraAPY :=
     calculatingLastEraAPY s; lastEraAPYCalculated := v; error := error s |}.

Definition set_error (v : option string) (s : ValidatorState) : ValidatorState :=
  {| currentPage := currentPage s; pageSize := pageSize s; totalValidators :=
     totalValidators s; allValidators := allValidators s; filteredValidators :=
     filteredValidators s; displayedValidators := displayedValidators s; validatorCache
     := validatorCache s; prefetchSize := prefetchSize s; activeEra := activeEra s;
     lastEra := lastEra s; currentEraReward := currentEraReward s; currentEraPoints :=
     currentEraPoints s; historicalEras := historicalEras s; historyLength :=
     historyLength s; maxHistoryLength := maxHistoryLength s;
     selectedHistoricalValidator := selectedHistoricalValidator s; includeFullCommission
     := includeFullCommission s; includeBlockedNominations := includeBlockedNominations
     s; loading := loading s; loadingPage := loadingPage s; loadingAPY := loadingAPY s;
     loadingHistoricalData := loadingHistoricalData s; calculatingLastEraAPY :=
     calculatingLastEraAPY s; lastEraAPYCalculated := lastEraAPYCalculated s; error := v
     |}.

Definition set_allValidators (v : list Summary) (s : ValidatorState) : ValidatorState :=
  {| currentPage := currentPage s; pageSize := pageSize s; totalValidators :=
     totalValidators s; allValidators := v; filteredValidators := filteredValidators s;
     displayedValidators := displayedValidators s; validatorCache := validatorCache s;
     prefetchSize := prefetchSize s; activeEra := activeEra s; lastEra := lastEra s;
     currentEraReward := currentEraReward s; currentEraPoints := currentEraPoints s;
     historicalEras := historicalEras s; historyLength := historyLength s;
     maxHistoryLength := maxHistoryLength s; selectedHistoricalValidator :=
     selectedHistoricalValidator s; includeFullCommission := includeFullCommission s;
     includeBlockedNominations := includeBlockedNominations s; loading := loading s;
     loadingPage := loadingPage s; loadingAPY := loadingAPY s; loadingHistoricalData :=
     loadingHistoricalData s; calculatingLastEraAPY := calculatingLastEraAPY s;
     lastEraAPYCalculated := lastEraAPYCalculated s; error := error s |}.

Definition set_activeEra (v : Z) (s : ValidatorState) : ValidatorState :=
  {| currentPage := currentPage s; pageSize := pageSize s; totalValidators :=
     totalValidators s; allValidators := allValidators s; filteredValidators :=
     filteredValidators s; displayedValidators := displayedValidators s; validatorCache
     := validatorCache s; prefetchSize := prefetchSize s; activeEra := v; lastEra :=
     lastEra s; currentEraReward := currentEraReward s; currentEraPoints :=
     currentEraPoints s; historicalEras := historicalEras s; historyLength :=
     historyLength s; maxHistoryLength := maxHistoryLength s;
     selectedHistoricalValidator := selectedHistoricalValidator s; includeFullCommission
     := includeFullCommission s; includeBlockedNominations := includeBlockedNominations
     s; loading := loading s; loadingPage := loadingPage s; loadingAPY := loadingAPY s;
     loadingHistoricalData := loadingHistoricalData s; calculatingLastEraAPY :=
     calculatingLastEraAPY s; lastEraAPYCalculated := lastEraAPYCalculated s; error :=
     error s |}.

Definition set_lastEra (v : Z) (s : ValidatorState) : ValidatorState :=
  {| currentPage := currentPage s; pageSize := pageSize s; totalValidators :=
     totalValidators s; allValidators := allValidators s; filteredValidators :=
     filteredValidators s; displayedValidators := displayedValidators s; validatorCache
     := validatorCache s; prefetchSize := prefetchSize s; activeEra := activeEra s;
     lastEra := v; currentEraReward := currentEraReward s; currentEraPoints :=
     currentEraPoints s; historicalEras := historicalEras s; historyLength :=
     historyLength s; maxHistoryLength := maxHistoryLength s;
     selectedHistoricalValidator := selectedHistoricalValidator s; includeFullCommission
     := includeFullCommission s; includeBlockedNominations := includeBlockedNominations
     s; loading := loading s; loadingPage := loadingPage s; loadingAPY := loadingAPY s;
     loadingHistoricalData := loadingHistoricalData s; calculatingLastEraAPY :=
     calculatingLastEraAPY s; lastEraAPYCalculated := lastEraAPYCalculated s; error :=
     error s |}.

Definition set_maxHistoryLength (v : Z) (s : ValidatorState) : ValidatorState :=
  {| currentPage := currentPage s; pageSize := pageSize s; totalValidators :=
     totalValidators s; allValidators := allValidators s; filteredValidators :=
     filteredValidators s; displayedValidators := displayedValidators s; validatorCache
     := validatorCache s; prefetchSize := prefetchSize s; activeEra := activeEra s;
     lastEra := lastEra s; currentEraReward := currentEraReward s; currentEraPoints :=
     currentEraPoints s; historicalEras := historicalEras s; historyLength :=
     historyLength s; maxHistoryLength := v; selectedHistoricalValidator :=
     selectedHistoricalValidator s; includeFullCommission := includeFullCommission s;
     includeBlockedNominations := includeBlockedNominations s; loading := loading s;
     loadingPage := loadingPage s; loadingAPY := loadingAPY s; loadingHistoricalData :=
     loadingHistoricalData s; calculatingLastEraAPY := calculatingLastEraAPY s;
     lastEraAPYCalculated := lastEraAPYCalculated s; error := error s |}.

Definition set_currentEraReward (v : Z) (s : ValidatorState) : ValidatorState :=
  {| currentPage := currentPage s; pageSize := pageSize s; totalValidators :=
     totalValidators s; allValidators := allValidators s; filteredValidators :=
     filteredValidators s; displayedValidators := displayedValidators s; validatorCache
     := validatorCache s; prefetchSize := prefetchSize s; activeEra := activeEra s;
     lastEra := lastEra s; currentEraReward := v; currentEraPoints := currentEraPoints
     s; historicalEras := historicalEras s; historyLength := historyLength s;
     maxHistoryLength := maxHistoryLength s; selectedHistoricalValidator :=
     selectedHistoricalValidator s; includeFullCommission := includeFullCommission s;
     includeBlockedNominations := includeBlockedNominations s; loading := loading s;
     loadingPage := loadingPage s; loadingAPY := loadingAPY s; loadingHistoricalData :=
     loadingHistoricalData s; calculatingLastEraAPY := calculatingLastEraAPY s;
     lastEraAPYCalculated := lastEraAPYCalculated s; error := error s |}.

Definition set_currentEraPoints (v : option EraRewardPoints) (s : ValidatorState) : ValidatorState :=
  {| currentPage := currentPage s; pageSize := pageSize s; totalValidators :=
     totalValidators s; allValidators := allValidators s; filteredValidators :=
     filteredValidators s; displayedValidators := displayedValidators s; validatorCache
     := validatorCache s; prefetchSize := prefetchSize s; activeEra := activeEra s;
     lastEra := lastEra s; currentEraReward := currentEraReward s; currentEraPoints :=
     v; historicalEras := historicalEras s; historyLength := historyLength s;
     maxHistoryLength := maxHistoryLength s; selectedHistoricalValidator :=
     selectedHistoricalValidator s; includeFullCommission := includeFullCommission s;
     includeBlockedNominations := includeBlockedNominations s; loading := loading s;
     loadingPage := loadingPage s; loadingAPY := loadingAPY s; loadingHistoricalData :=
     loadingHistoricalData s; calculatingLastEraAPY := calculatingLastEraAPY s;
     lastEraAPYCalculated := lastEraAPYCalculated s; error := error s |}.

Definition set_loading (v : bool) (s : ValidatorState) : ValidatorState :=
  {| currentPage := currentPage s; pageSize := pageSize s; totalValidators :=
     totalValidators s; allValidators := allValidators s; filteredValidators :=
     filteredValidators s; displayedValidators := displayedValidators s; validatorCache
     := validatorCache s; prefetchSize := prefetchSize s; activeEra := activeEra s;
     lastEra := lastEra s; currentEraReward := currentEraReward s; currentEraPoints :=
     currentEraPoints s; historicalEras := historicalEras s; historyLength :=
     historyLength s; maxHistoryLength := maxHistoryLength s;
     selectedHistoricalValidator := selectedHistoricalValidator s; includeFullCommission
     := includeFullCommission s; includeBlockedNominations := includeBlockedNominations
     s; loading := v; loadingPage := loadingPage s; loadingAPY := loadingAPY s;
     loadingHistoricalData := loadingHistoricalData s; calculatingLastEraAPY :=
     calculatingLastEraAPY s; lastEraAPYCalculated := lastEraAPYCalculated s; error :=
     error s |}.

(** Updates of the record fields that the actions replace by spreading. *)

Definition with_lastEraAPY (apy : float) (v : Validator) : Validator :=
  {| address := address v; commission := commission v;
     blockedNominations := blockedNominations v; totalStake := totalStake v;
     ownStake := ownStake v; lastEraAPY := apy; performance := performance v;
     rewards := rewards v; historicalCommission := historicalCommission v;
     averageCommission := averageCommission v |}.

Definition with_prefs (c : float) (b : bool) (v : Validator) : Validator :=
  {| address := address v; commission := c; blockedNominations := b;
     totalStake := totalStake v; ownStake := ownStake v; lastEraAPY := lastEraAPY v;
     performance := performance v; rewards := rewards v;
     historicalCommission := historicalCommission v;
     averageCommission := averageCommission v |}.

Definition with_performance (p : Performance) (v : Validator) : Validator :=
  {| address := address v; commission := commission v;
     blockedNominations := blockedNominations v; totalStake := totalStake v;
     ownStake := ownStake v; lastEraAPY := lastEraAPY v; performance := p;
     rewards := rewards v; historicalCommission := historicalCommission v;
     averageCommission := averageCommission v |}.

Definition with_rewards (r : Rewards) (v : Validator) : Validator :=
  {| address := address v; commission := commission v;
     blockedNominations := blockedNominations v; totalStake := totalStake v;
     ownStake := ownStake v; lastEraAPY := lastEraAPY v; performance := performance v;
     rewards := r; historicalCommission := historicalCommission v;
     averageCommission := averageCommission v |}.

Definition with_historicalCommission (h : gmap Z float) (v : Validator) : Validator :=
  {| address := address v; commission := commission v;
     blockedNominations := blockedNominations v; totalStake := totalStake v;
     ownStake := ownStake v; lastEraAPY := lastEraAPY v; performance := performance v;
     rewards := rewards v; historicalCommission := h;
     averageCommission := averageCommission v |}.

Definition with_averageCommission (c : float) (v : Validator) : Validator :=
  {| address := address v; commission := commission v;
     blockedNominations := blockedNominations v; totalStake := totalStake v;
     ownStake := ownStake v; lastEraAPY := lastEraAPY v; performance := performance v;
     rewards := rewards v; historicalCommission := historicalCommission v;
     averageCommission := c |}.

(** ** Effects *)

(** What an action runs in: the store, the remote queries issued so far
    (latest first) and the timers set so far (latest first, with their
    delay in milliseconds). *)
Record World := {
  store : ValidatorState;
  queries : list Query;
  timers : list (Task * Z)
}.

(** How a piece of code ends: normally, or with a thrown error. *)
Inductive outcome (A : Type) :=
  | Returned (a : A)
  | Thrown (msg : string).
Arguments Returned {A} a.
Arguments Thrown {A} msg.

(** Code running over a state [S]; [S] is [World], or [World] with the
    local variables that the items of a batch write to. *)
Definition Eff (S A : Type) : Type := S -> outcome A * S.

Definition ret {S A} (a : A) : Eff S A := fun w => (Returned a, w).

Definition bind {S A B} (m : Eff S A) (k : A -> Eff S B) : Eff S B :=
  fun w =>
    match m w with
    | (Returned a, w') => k a w'
    | (Thrown msg, w') => (Thrown msg, w')
    end.

Definition throw {S A} (msg : string) : Eff S A := fun w => (Thrown msg, w).

(** [try { m } catch (e) { h e.message }]. *)
Definition try_catch {S A} (m : Eff S A) (h : string -> Eff S A) : Eff S A :=
  fun w =>
    match m w with
    | (Returned a, w') => (Returned a, w')
    | (Thrown msg, w') => h msg w'
    end.

Declare Scope eff_scope.
Delimit Scope eff_scope with eff.
Notation "x <- m ;; k" := (bind m (fun x => k))
  (at level 100, m at next level, right associativity) : eff_scope.
Notation "m ;;; k" := (bind m (fun _ => k))
  (at level 100, right associativity) : eff_scope.
Local Open Scope eff_scope.

(** [for (const x of l) { f x }] and [Promise.all(l.map(f))]. *)
Fixpoint for_each {S A} (f : A -> Eff S unit) (l : list A) : Eff S unit :=
  match l with
  | [] => ret tt
  | x :: l' => f x ;;; for_each f l'
  end.

Fixpoint Promise_all {S A B} (f : A -> Eff S B) (l : list A) : Eff S (list B) :=
  match l with
  | [] => ret []
  | x :: l' => y <- f x ;; ys <- Promise_all f l' ;; ret (y :: ys)
  end.

Definition Async (A : Type) : Type := Eff World A.

(** [get()]. *)
Definition get : Async ValidatorState := fun w => (Returned (store w), w).

(** [set(state => f state)] and [set({ ... })]. *)
Definition set (f : ValidatorState -> ValidatorState) : Async unit :=
  fun w => (Returned tt,
            {| store := f (store w); queries := queries w; timers := timers w |}).

(** [await typedApi.query....getValue(...)]: the query is issued, a
    rejection is thrown at the await. *)
Definition await {A} (q : Query) (r : response A) : Async A :=
  fun w => (match r with Resolved a => Returned a | Rejected msg => Thrown msg end,
            {| store := store w; queries := q :: queries w; timers := timers w |}).

(** [setTimeout(task, delay)]. *)
Definition setTimeout (t : Task) (delay : Z) : Async unit :=
  fun w => (Returned tt,
            {| store := store w; queries := queries w; timers := (t, delay) :: timers w |}).

(** Code with local variables of type [L] next to the world. *)
Definition lift {L A} (m : Async A) : Eff (L * World) A :=
  fun lw => let (r, w') := m lw.2 in (r, (lw.1, w')).

Definition locals {L} : Eff (L * World) L := fun lw => (Returned lw.1, lw).

Definition assign {L} (f : L -> L) : Eff (L * World) unit :=
  fun lw => (Returned tt, (f lw.1, lw.2)).

(** Runs code with locals from their initial values; gives the final
    locals back with the result. *)
Definition with_locals {L A} (init : L) (m : Eff (L * World) A) : Async (A * L) :=
  fun w =>
    match m (init, w) with
    | (Returned a, (l, w')) => (Returned (a, l), w')
    | (Thrown msg, (_, w')) => (Thrown msg, w')
    end.

(** The final world of an action. *)
Definition run (m : Async unit) (w : World) : World := (m w).2.

(** The loop
    [for (i = 0; i < l.length; i += b) { acc.push(...(await body(l.slice(i, i + b)))) }]
    over the already cut groups; gives the final [acc]. *)
Fixpoint for_batches {S A B} (body : list A -> Eff S (list B)) (bs : list (list A))
  : Eff S (list B) :=
  match bs with
  | [] => ret []
  | b :: bs' => r <- body b ;; rs <- for_batches body bs' ;; ret (r ++ rs)
  end.

(** ** The store actions *)

(** [options] of [setFilterOptions]: both fields are optional. *)
Record FilterOptions := {
  opt_includeFullCommission : option bool;
  opt_includeBlockedNominations : option bool
}.

(** [Number(prefs?.commission || 0n) / 1_000_000_000]. *)
Definition commission_of_prefs (prefs : option ValidatorPrefs) : float :=
  (JS.Number (from_option vp_commission 0%Z prefs) / 1000000000)%float.

(** [prefs?.blocked || false]. *)
Definition blocked_of_prefs (prefs : option ValidatorPrefs) : bool :=
  from_option vp_blocked false prefs.

(** The record built for an address that was not in the cache, in
    [fetchValidatorPage] (and [prefetchValidators]). *)
Definition newValidator (a : string) (c : float) (b : bool) (total own : Z)
    (apy : option float) (points reward : Z) : Validator :=
  {| address := a; commission := c; blockedNominations := b;
     totalStake := total; ownStake := own;
     lastEraAPY := JS.or_else (default 0%float apy) 0;
     performance := {| perf_currentEraPoints := points; previousErasPoints := ∅;
                       averagePoints := 0 |};
     rewards := {| rew_currentEraReward := reward; previousErasRewards := ∅;
                   apyByEra := ∅; averageAPY := 0; activeOnlyAverageAPY := 0 |};
     historicalCommission := ∅; averageCommission := c |}.

(** The record used when the fetch of an item fails. *)
Definition defaultValidator (a : string) (apy : option float) (points : Z) : Validator :=
  newValidator a 0 false 0 0 apy points 0.

Section Actions.

Variable api : Api.

(** The stake of [a] in [era], zero when the overview is absent, not
    positive, or its query fails (the inner [try { } catch { }]). *)
Definition fetchStake (era : Z) (a : string) : Async (Z * Z) :=
  try_catch
    (ov <- await (QErasStakersOverview era a) (ErasStakersOverview api era a) ;;
     ret (match ov with
          | Some o => if 0 <? so_total o then (so_total o, so_own o) else (0, 0)
          | None => (0, 0)
          end))
    (fun _ => ret (0, 0)).

(** The share of the current era reward of a validator with [points],
    through a ratio in parts per million. *)
Definition currentEraShare (eraPoints : option EraRewardPoints) (points : Z)
  : Async Z :=
  s <- get ;;
  if negb (currentEraReward s =? 0) && (0 <? points)
     && (0 <? from_option ep_total 0 eraPoints)
  then
    let totalEraPoints := JS.Number (from_option ep_total 0 eraPoints) in
    let pointsRatio := (JS.Number points / totalEraPoints)%float in
    match JS.BigInt (JS.Math_floor (pointsRatio * JS.Number 1000000)) with
    | Some ratioFixed => ret (Z.quot (ratioFixed * currentEraReward s) 1000000)
    | None => throw "RangeError"
    end
  else ret 0.

(** One element of a page: the cached record, with the APY of the
    projection written into it when that differs; else a record fetched
    from the chain, or the default one. *)
Definition hydrate (s : ValidatorState) (e : Entry) : Async Validator :=
  let a := fe_address e in
  match validatorCache s !! a with
  | Some cached =>
      match fe_lastEraAPY e with
      | Some apy =>
          if JS.strict_neq (lastEraAPY cached) apy then
            let updatedValidator := with_lastEraAPY apy cached in
            set (fun st => set_validatorCache (<[a := updatedValidator]> (validatorCache st)) st) ;;;
            ret updatedValidator
          else ret cached
      | None => ret cached
      end
  | None =>
      try_catch
        (prefs <- await (QValidators a) (Validators api a) ;;
         stake <- fetchStake (activeEra s) a ;;
         validatorReward <- currentEraShare (currentEraPoints s) (fe_points e) ;;
         let v := newValidator a (commission_of_prefs prefs) (blocked_of_prefs prefs)
                    stake.1 stake.2 (fe_lastEraAPY e) (fe_points e) validatorReward in
         set (fun st => set_validatorCache (<[a := v]> (validatorCache st)) st) ;;;
         ret v)
        (fun _ =>
         let v := defaultValidator a (fe_lastEraAPY e) (fe_points e) in
         set (fun st => set_validatorCache (<[a := v]> (validatorCache st)) st) ;;;
         ret v)
  end.

(** [fetchValidatorPage]: nothing is done for an empty projection; else the
    page becomes current and its slice is hydrated in batches of 10. *)
Definition fetchValidatorPage (page : Z) : Async unit :=
  s <- get ;;
  if bool_decide (length (filteredValidators s) = 0%nat) then ret tt else
  set (fun st => set_currentPage page (set_loadingPage true st)) ;;;
  try_catch
    (let startIdx := (page - 1) * pageSize s in
     let pageValidators :=
       JS.slice (filteredValidators s) startIdx (startIdx + pageSize s) in
     detailedValidators <-
       for_batches (Promise_all (hydrate s)) (JS.batches 10 pageValidators) ;;
     set (fun st => set_loadingPage false (set_displayedValidators detailedValidators st)))
    (fun msg => set (fun st => set_loadingPage false (set_error (Some msg) st))).

(** [setPageSize]: the size is stored, then the first page is fetched. *)
Definition setPageSize (size : Z) : Async unit :=
  set (set_pageSize size) ;;;
  fetchValidatorPage 1.

(** [cached?.lastEraAPY || 0] for the cache of [s]. *)
Definition cachedAPY (s : ValidatorState) (a : string) : float :=
  match validatorCache s !! a with
  | Some cached => JS.or_else (lastEraAPY cached) 0
  | None => 0%float
  end.

(** One element of [allValidators] in [applyFilters]: [None] when it is
    filtered out. *)
Definition filterItem (s : ValidatorState) (v : Summary) : Async (option Entry) :=
  let a := sm_address v in
  let kept :=
    Some {| fe_address := a; fe_points := sm_points v;
            fe_lastEraAPY := Some (cachedAPY s a) |} in
  try_catch
    (match validatorCache s !! a with
     | Some cached =>
         if negb (includeFullCommission s) && (1 <=? commission cached)%float
         then ret None
         else if negb (includeBlockedNominations s) && blockedNominations cached
         then ret None
         else ret kept
     | None =>
         prefs <- await (QValidators a) (Validators api a) ;;
         if negb (includeFullCommission s) && (1 <=? commission_of_prefs prefs)%float
         then ret None
         else if negb (includeBlockedNominations s) && blocked_of_prefs prefs
         then ret None
         else ret kept
     end)
    (fun _ => ret (Some {| fe_address := a; fe_points := sm_points v;
                           fe_lastEraAPY := Some 0%float |})).

(** The comparator of the sort by APY of [applyFilters], highest first. *)
Definition byCachedAPY (s : ValidatorState) (x y : Entry) : float :=
  (cachedAPY s (fe_address y) - cachedAPY s (fe_address x))%float.

(** [applyFilters]: the projection is rebuilt from [allValidators] in
    batches of 50, sorted by cached APY once the bulk job has run, and the
    bulk job is scheduled when a kept validator is not cached. *)
Definition applyFilters : Async unit :=
  s <- get ;;
  set (set_loadingPage true) ;;;
  try_catch
    (filteredResults <-
       (if includeFullCommission s && includeBlockedNominations s
        then ret (entry_of_summary <$> allValidators s)
        else for_batches
               (fun batch => rs <- Promise_all (filterItem s) batch ;; ret (omap id rs))
               (JS.batches 50 (allValidators s))) ;;
     let filteredResults :=
       if lastEraAPYCalculated s then JS.sort (byCachedAPY s) filteredResults
       else filteredResults in
     set (fun st =>
            set_loadingPage false
              (set_totalValidators (Z.of_nat (length filteredResults))
                 (set_filteredValidators filteredResults st))) ;;;
     let newValidatorsWithoutAPY :=
       existsb (fun v => bool_decide (validatorCache s !! fe_address v = None))
         filteredResults in
     s' <- get ;;
     if newValidatorsWithoutAPY && negb (calculatingLastEraAPY s')
     then setTimeout RunCalculateLastEraAPYForAllValidators 500
     else ret tt)
    (fun msg =>
       set (fun st =>
              set_totalValidators (Z.of_nat (length (allValidators s)))
                (set_filteredValidators (entry_of_summary <$> allValidators s)
                   (set_loadingPage false (set_error (Some msg) st))))).

(** [setFilterOptions]: the given flags are stored, the filters applied and
    then the first page fetched. *)
Definition setFilterOptions (options : FilterOptions) : Async unit :=
  s <- get ;;
  set (fun st =>
         set_includeBlockedNominations
           (default (includeBlockedNominations s) (opt_includeBlockedNominations options))
           (set_includeFullCommission
              (default (includeFullCommission s) (opt_includeFullCommission options))
              st)) ;;;
  applyFilters ;;;
  fetchValidatorPage 1.

(** The comparator of the ranking, most points first. *)
Definition byPoints (x y : Summary) : float :=
  (JS.Number (sm_points y) - JS.Number (sm_points x))%float.

(** [pointsMap]: filled entry by entry. *)
Definition pointsMapOf (eraRewardPoints : option EraRewardPoints) : gmap string Z :=
  foldl (fun m e => <[e.1 := e.2]> m) ∅ (from_option ep_individual [] eraRewardPoints).

(** [fetchAllValidators]: the ranking of the active era is loaded, then the
    filters are applied, the first page is fetched and the two background
    jobs are scheduled. *)
Definition fetchAllValidators : Async unit :=
  set (fun st => set_error None (set_loading true st)) ;;;
  try_catch
    (activeEraResult <- await QActiveEra (ActiveEra api) ;;
     match activeEraResult with
     | None => throw "failed gettin the active era..."
     | Some active =>
         let maxHistory := Z.min 84 active in
         eraReward <- await (QErasValidatorReward active) (ErasValidatorReward api active) ;;
         validatorAddresses <- await QSessionValidators (SessionValidators api) ;;
         eraRewardPoints <- await (QErasRewardPoints active) (ErasRewardPoints api active) ;;
         let pointsMap := pointsMapOf eraRewardPoints in
         let ranked :=
           JS.sort byPoints
             ((fun a => {| sm_address := a; sm_points := default 0 (pointsMap !! a) |})
                <$> validatorAddresses) in
         set (fun st =>
                set_loading false
                  (set_currentEraPoints eraRewardPoints
                     (set_currentEraReward (default 0 eraReward)
                        (set_maxHistoryLength maxHistory
                           (set_lastEra (active - 1)
                              (set_activeEra active
                                 (set_allValidators ranked st))))))) ;;;
         applyFilters ;;;
         fetchValidatorPage 1 ;;;
         setTimeout RunCalculateLastEraAPYForAllValidators 1000 ;;;
         setTimeout RunPrefetchValidators 2000
     end)
    (fun msg => set (fun st => set_loading false (set_error (Some msg) st))).

(** *** The APY of one era *)

(** [BigInt(Math.floor(Number(eraReward) * pointsRatio))] with
    [pointsRatio = validatorPoints / totalEraPoints]; [None] when the
    product is not finite. *)
Definition validatorReward (eraReward validatorPoints totalEraPoints : Z) : option Z :=
  let pointsRatio := (JS.Number validatorPoints / JS.Number totalEraPoints)%float in
  JS.BigInt (JS.Math_floor (JS.Number eraReward * pointsRatio)).

(** [BigInt(Math.floor(commission * 1_000_000_000))]. *)
Definition commissionPart (c : float) : option Z :=
  JS.BigInt (JS.Math_floor (c * 1000000000)).

(** [(validatorReward * (1_000_000_000n - commissionPart)) / 1_000_000_000n]. *)
Definition nominatorReward (reward : Z) (c : float) : option Z :=
  part ← commissionPart c;
  let nominatorRatio := 1000000000 - part in
  Some (Z.quot (reward * nominatorRatio) 1000000000).

(** [Number(nominatorReward) / Number(totalStake) * 365.25 * 100]. *)
Definition annualize (nominator stake : Z) : float :=
  let eraReturnRate := (JS.Number nominator / JS.Number stake)%float in
  (eraReturnRate * 365.25 * 100)%float.

(** The four steps of the formula, as written in both
    [calculateLastEraAPYForAllValidators] and [calculateValidatorAPY];
    [None] stands for the [RangeError] of a [BigInt] conversion. *)
Definition eraAPY (eraReward validatorPoints totalEraPoints : Z) (c : float)
    (stake : Z) : option float :=
  reward ← validatorReward eraReward validatorPoints totalEraPoints;
  nominator ← nominatorReward reward c;
  Some (annualize nominator stake).

(** The formula inside a [try]: the [RangeError] is thrown. *)
Definition eraAPY_or_throw {S} (eraReward validatorPoints totalEraPoints : Z)
    (c : float) (stake : Z) : Eff S float :=
  match eraAPY eraReward validatorPoints totalEraPoints c stake with
  | Some apy => ret apy
  | None => throw "RangeError"
  end.

(** *** The last era, all validators *)

(** What one item of a batch resolves to. *)
Record APYResult := {
  res_address : string;
  res_lastEraAPY : float;
  res_validatorInstance : option Validator
}.

(** The local variables of [calculateLastEraAPYForAllValidators]. *)
Record BulkLocals := {
  newCacheEntries : gmap string Validator;
  validatorsWithAPY : list Entry
}.

Definition put_newCacheEntry (a : string) (v : Validator) (l : BulkLocals) : BulkLocals :=
  {| newCacheEntries := <[a := v]> (newCacheEntries l);
     validatorsWithAPY := validatorsWithAPY l |}.

Definition push_validatorWithAPY (e : Entry) (l : BulkLocals) : BulkLocals :=
  {| newCacheEntries := newCacheEntries l;
     validatorsWithAPY := validatorsWithAPY l ++ [e] |}.

(** [individualPoints]: filled entry by entry, a later entry for the same
    address replaces the earlier one. *)
Definition individualPointsOf (ep : EraRewardPoints) : gmap string Z :=
  foldl (fun m e => <[e.1 := e.2]> m) ∅ (ep_individual ep).

(** One validator of a batch. *)
Definition lastEraItem (s : ValidatorState) (eraReward totalEraPoints : Z)
    (individualPoints : gmap string Z) (v : Summary)
  : Eff (BulkLocals * World) APYResult :=
  let a := sm_address v in
  let existingValidator := validatorCache s !! a in
  let fresh :=
    let validatorPoints := default 0 (individualPoints !! a) in
    validatorPrefs <- lift (await (QErasValidatorPrefs (lastEra s) a)
                              (ErasValidatorPrefs api (lastEra s) a)) ;;
    let c := commission_of_prefs validatorPrefs in
    let blocked := blocked_of_prefs validatorPrefs in
    stakersOverview <- lift (await (QErasStakersOverview (lastEra s) a)
                               (ErasStakersOverview api (lastEra s) a)) ;;
    if from_option so_total 0 stakersOverview =? 0 then
      ret {| res_address := a; res_lastEraAPY := 0;
             res_validatorInstance := with_lastEraAPY 0 <$> existingValidator |}
    else
      let stake := from_option so_total 0 stakersOverview in
      apy <- (if 0 <? validatorPoints
              then eraAPY_or_throw eraReward validatorPoints totalEraPoints c stake
              else ret 0%float) ;;
      match existingValidator with
      | Some existing =>
          let updatedValidator := with_prefs c blocked (with_lastEraAPY apy existing) in
          assign (put_newCacheEntry a updatedValidator) ;;;
          ret {| res_address := a; res_lastEraAPY := apy;
                 res_validatorInstance := Some updatedValidator |}
      | None =>
          ret {| res_address := a; res_lastEraAPY := apy;
                 res_validatorInstance := None |}
      end in
  try_catch
    (match existingValidator with
     | Some existing =>
         if (0 <? lastEraAPY existing)%float
         then ret {| res_address := a; res_lastEraAPY := lastEraAPY existing;
                     res_validatorInstance := Some existing |}
         else fresh
     | None => fresh
     end)
    (fun _ => ret {| res_address := a; res_lastEraAPY := 0;
                     res_validatorInstance := None |}).

(** [batchResults.forEach(...)]. *)
Definition recordResult (r : APYResult) : Eff (BulkLocals * World) unit :=
  assign (push_validatorWithAPY
            {| fe_address := res_address r; fe_points := 0;
               fe_lastEraAPY := Some (res_lastEraAPY r) |}) ;;;
  match res_validatorInstance r with
  | Some v => assign (put_newCacheEntry (res_address r) v)
  | None => ret tt
  end.

(** One batch: its items, the bookkeeping, the cache update. *)
Definition lastEraBatch (s : ValidatorState) (eraReward totalEraPoints : Z)
    (individualPoints : gmap string Z) (batch : list Summary)
  : Eff (BulkLocals * World) unit :=
  batchResults <-
    Promise_all (lastEraItem s eraReward totalEraPoints individualPoints) batch ;;
  for_each recordResult batchResults ;;;
  l <- locals ;;
  if bool_decide (0 < size (newCacheEntries l))%nat
  then lift (set (fun st =>
               set_validatorCache (newCacheEntries l ∪ validatorCache st) st))
  else ret tt.

(** [apyMap.get(address) || 0]; the map is filled in the order of
    [validatorsWithAPY], the last entry of an address wins. *)
Definition apyMapOf (l : list Entry) : gmap string float :=
  foldl (fun m e => <[fe_address e := default 0%float (fe_lastEraAPY e)]> m) ∅ l.

Definition apyOrZero (apyMap : gmap string float) (a : string) : float :=
  JS.or_else (default 0%float (apyMap !! a)) 0.

(** The comparator of the final sort, highest APY first. *)
Definition byEntryAPY (x y : Entry) : float :=
  (JS.or_else (default 0 (fe_lastEraAPY y)) 0
   - JS.or_else (default 0 (fe_lastEraAPY x)) 0)%float.

(** [calculateLastEraAPYForAllValidators]: the APY of the last era for all
    ranked validators, in batches of 25; the flag [calculatingLastEraAPY]
    is written but never read here. *)
Definition calculateLastEraAPYForAllValidators : Async unit :=
  s <- get ;;
  set (fun st => set_lastEraAPYCalculated false (set_calculatingLastEraAPY true st)) ;;;
  try_catch
    (eraReward <- await (QErasValidatorReward (lastEra s))
                    (ErasValidatorReward api (lastEra s)) ;;
     if default 0 eraReward =? 0 then set (set_calculatingLastEraAPY false) else
     eraPoints <- await (QErasRewardPoints (lastEra s))
                    (ErasRewardPoints api (lastEra s)) ;;
     match eraPoints with
     | None => set (set_calculatingLastEraAPY false)
     | Some ep =>
         if ep_total ep =? 0 then set (set_calculatingLastEraAPY false) else
         r <- with_locals {| newCacheEntries := ∅; validatorsWithAPY := [] |}
                (for_each
                   (lastEraBatch s (default 0 eraReward) (ep_total ep)
                      (individualPointsOf ep))
                   (JS.batches 25 (allValidators s))) ;;
         let apyMap := apyMapOf (validatorsWithAPY r.2) in
         set (fun st =>
                let updatedFiltered :=
                  (fun v => {| fe_address := fe_address v; fe_points := fe_points v;
                               fe_lastEraAPY := Some (apyOrZero apyMap (fe_address v)) |})
                    <$> filteredValidators st in
                let updatedDisplayed :=
                  (fun v => with_lastEraAPY (apyOrZero apyMap (address v)) v)
                    <$> displayedValidators st in
                set_calculatingLastEraAPY false
                  (set_lastEraAPYCalculated true
                     (set_displayedValidators updatedDisplayed
                        (set_filteredValidators (JS.sort byEntryAPY updatedFiltered) st)))) ;;;
         fetchValidatorPage 1
     end)
    (fun msg =>
       set (fun st =>
              set_error (Some ("calculation error for apy calcs: " +:+ msg))
                (set_calculatingLastEraAPY false st))).

End Actions.

(** [Object.values(m)] and [Object.keys(m)] of a [Record<number, T>]: integer
    keys are visited in ascending order (era indices are array indices). *)
Definition key_le {A} (x y : Z * A) : Prop := x.1 ≤ y.1.

#[global] Instance key_le_dec {A} (x y : Z * A) : Decision (key_le x y).
Proof. unfold key_le. apply _. Defined.

Definition entriesOf {A} (m : gmap Z A) : list (Z * A) :=
  merge_sort key_le (map_to_list m).

Definition Object_values {A} (m : gmap Z A) : list A := (entriesOf m).*2.

(** [xs.reduce((a, b) => a + b, 0) / xs.length]. *)
Definition mean (xs : list float) : float :=
  (foldl PrimFloat.add 0 xs / JS.Number (Z.of_nat (length xs)))%float.

(** [displayedValidators.find(v => v.address === a)]. *)
Definition findDisplayed (s : ValidatorState) (a : string) : option Validator :=
  List.find (fun v => bool_decide (address v = a)) (displayedValidators s).

(** The points of [a] in the list of an era: the first well-formed entry
    with that address, as found by the [for ... of] loop with its [break]. *)
Definition pointsIn (a : string) (individual : list (string * Z)) : option Z :=
  snd <$> List.find (fun e => bool_decide (e.1 = a)) individual.

Section History.

Variable api : Api.

(** *** The history of one validator *)

(** The local variables of [fetchHistoricalPerformance]. *)
Record HistLocals := {
  validatorPerformance : gmap Z Z;
  validatorRewards : gmap Z Z;
  validatorCommissions : gmap Z float
}.

Definition put_performance (era points : Z) (l : HistLocals) : HistLocals :=
  {| validatorPerformance := <[era := points]> (validatorPerformance l);
     validatorRewards := validatorRewards l;
     validatorCommissions := validatorCommissions l |}.

Definition put_reward (era amount : Z) (l : HistLocals) : HistLocals :=
  {| validatorPerformance := validatorPerformance l;
     validatorRewards := <[era := amount]> (validatorRewards l);
     validatorCommissions := validatorCommissions l |}.

Definition put_commission (era : Z) (c : float) (l : HistLocals) : HistLocals :=
  {| validatorPerformance := validatorPerformance l;
     validatorRewards := validatorRewards l;
     validatorCommissions := <[era := c]> (validatorCommissions l) |}.

(** [Array.from({ length: historyLength }, (_, i) => activeEra - i - 1)
      .filter(era => era >= 0)]. *)
Definition erasToFetch (s : ValidatorState) : list Z :=
  List.filter (fun era => 0 <=? era)
    ((fun i => activeEra s - i - 1) <$> seqZ 0 (historyLength s)).

(** One era of a batch. *)
Definition historyItem (a : string) (era : Z) : Eff (HistLocals * World) unit :=
  try_catch
    (eraPoints <- lift (await (QErasRewardPoints era) (ErasRewardPoints api era)) ;;
     eraReward <- lift (await (QErasValidatorReward era) (ErasValidatorReward api era)) ;;
     match eraPoints with
     | Some ep =>
         match pointsIn a (ep_individual ep) with
         | Some validatorPoints =>
             assign (put_performance era validatorPoints) ;;;
             if negb (default 0 eraReward =? 0) && (0 <? ep_total ep) then
               let pointsRatio :=
                 (JS.Number validatorPoints / JS.Number (ep_total ep))%float in
               match JS.BigInt (JS.Math_floor (pointsRatio * JS.Number 1000000)) with
               | Some ratioFixed =>
                   assign (put_reward era
                             (Z.quot (ratioFixed * default 0 eraReward) 1000000))
               | None => throw "RangeError"
               end
             else ret tt
         | None => ret tt
         end
     | None => ret tt
     end ;;;
     try_catch
       (validatorPrefs <- lift (await (QErasValidatorPrefs era a)
                                  (ErasValidatorPrefs api era a)) ;;
        if negb (from_option vp_commission 0 validatorPrefs =? 0)
        then assign (put_commission era (commission_of_prefs validatorPrefs))
        else ret tt)
       (fun _ => ret tt))
    (fun _ =>
       lift (set (set_error
               (Some ("something went wrong fetching the era data for " +:+ pretty era))))).

(** [fetchHistoricalPerformance]: points, rewards and commission of the
    last [historyLength] eras, in batches of 5, stored in place of the maps
    of the record. *)
Definition fetchHistoricalPerformance (a : string) (forceRefresh : bool) : Async unit :=
  s <- get ;;
  if bool_decide (a = "") then ret tt else
  set (set_loadingHistoricalData true) ;;;
  try_catch
    (let eras := erasToFetch s in
     set (set_historicalEras eras) ;;;
     match (match validatorCache s !! a with
            | Some v => Some v
            | None => findDisplayed s a
            end) with
     | None => set (set_loadingHistoricalData false)
     | Some validator =>
         if negb forceRefresh
            && bool_decide (length eras ≤ size (previousErasPoints (performance validator)))%nat
         then set (set_loadingHistoricalData false)
         else
           r <- with_locals {| validatorPerformance := ∅; validatorRewards := ∅;
                               validatorCommissions := ∅ |}
                  (for_each (fun eraBatch => Promise_all (historyItem a) eraBatch ;;; ret tt)
                     (JS.batches 5 eras)) ;;
           let fetched := r.2 in
           let historicalPointsArray :=
             omap (fun era => validatorPerformance fetched !! era) eras in
           let commissionValues :=
             omap (fun era => validatorCommissions fetched !! era) eras in
           let avgPoints :=
             if bool_decide (0 < length historicalPointsArray)%nat
             then mean (JS.Number <$> historicalPointsArray) else 0%float in
           let avgCommission :=
             if bool_decide (0 < length commissionValues)%nat
             then mean commissionValues else commission validator in
           let updatedValidator :=
             with_averageCommission avgCommission
               (with_historicalCommission (validatorCommissions fetched)
                  (with_rewards
                     {| rew_currentEraReward := rew_currentEraReward (rewards validator);
                        previousErasRewards := validatorRewards fetched;
                        apyByEra := apyByEra (rewards validator);
                        averageAPY := JS.or_else (averageAPY (rewards validator)) 0;
                        activeOnlyAverageAPY :=
                          JS.or_else (activeOnlyAverageAPY (rewards validator)) 0 |}
                     (with_performance
                        {| perf_currentEraPoints :=
                             perf_currentEraPoints (performance validator);
                           previousErasPoints := validatorPerformance fetched;
                           averagePoints := avgPoints |}
                        validator))) in
           set (fun st =>
                  set_validatorCache (<[a := updatedValidator]> (validatorCache st)) st) ;;;
           let updatedDisplayedValidators :=
             (fun v => if bool_decide (address v = a) then updatedValidator else v)
               <$> displayedValidators s in
           set (fun st =>
                  set_loadingHistoricalData false
                    (set_displayedValidators updatedDisplayedValidators st))
     end)
    (fun msg =>
       set (fun st => set_loadingHistoricalData false (set_error (Some msg) st))).

End History.

(** The three running sums and counts of [calculateAverages]. *)
Record Sums := {
  pointsSum : float; pointsCount : Z;
  commissionSum : float; commissionCount : Z;
  apySum : float; apyCount : Z
}.

(** The body of [historicalEras.forEach] in [calculateAverages]. *)
Definition addEra (validator : Validator) (acc : Sums) (era : Z) : Sums :=
  let points := previousErasPoints (performance validator) !! era in
  let wasActive := 0 <? default 0 points in
  let acc1 :=
    if wasActive then
      let acc0 :=
        {| pointsSum := (pointsSum acc + JS.Number (default 0%Z points))%float;
           pointsCount := pointsCount acc + 1;
           commissionSum := commissionSum acc; commissionCount := commissionCount acc;
           apySum := apySum acc; apyCount := apyCount acc |} in
      match historicalCommission validator !! era with
      | Some c =>
          {| pointsSum := pointsSum acc0; pointsCount := pointsCount acc0;
             commissionSum := (commissionSum acc0 + c)%float;
             commissionCount := commissionCount acc0 + 1;
             apySum := apySum acc0; apyCount := apyCount acc0 |}
      | None => acc0
      end
    else acc in
  match apyByEra (rewards validator) !! era with
  | Some apy =>
      if JS.truthy apy then
        {| pointsSum := pointsSum acc1; pointsCount := pointsCount acc1;
           commissionSum := commissionSum acc1; commissionCount := commissionCount acc1;
           apySum := (apySum acc1 + apy)%float; apyCount := apyCount acc1 + 1 |}
      else acc1
  | None => acc1
  end.

(** [calculateAverages]: the averages of the displayed record of [a] over
    [historicalEras], written to the page and to the cache. *)
Definition calculateAverages (a : string) : Async unit :=
  s <- get ;;
  match findDisplayed s a with
  | None => ret tt
  | Some validator =>
      let sums :=
        foldl (addEra validator)
          {| pointsSum := 0; pointsCount := 0; commissionSum := 0; commissionCount := 0;
             apySum := 0; apyCount := 0 |}
          (historicalEras s) in
      let avgPoints :=
        if 0 <? pointsCount sums
        then (pointsSum sums / JS.Number (pointsCount sums))%float else 0%float in
      let avgCommission :=
        if 0 <? commissionCount sums
        then (commissionSum sums / JS.Number (commissionCount sums))%float
        else commission validator in
      let avgAPY :=
        if 0 <? apyCount sums
        then (apySum sums / JS.Number (apyCount sums))%float else 0%float in
      let update v :=
        with_averageCommission avgCommission
          (with_rewards
             {| rew_currentEraReward := rew_currentEraReward (rewards v);
                previousErasRewards := previousErasRewards (rewards v);
                apyByEra := apyByEra (rewards v);
                averageAPY := avgAPY;
                activeOnlyAverageAPY := activeOnlyAverageAPY (rewards v) |}
             (with_performance
                {| perf_currentEraPoints := perf_currentEraPoints (performance v);
                   previousErasPoints := previousErasPoints (performance v);
                   averagePoints := avgPoints |}
                v)) in
      let updatedValidators :=
        (fun v => if bool_decide (address v = a) then update v else v)
          <$> displayedValidators s in
      set (set_displayedValidators updatedValidators) ;;;
      s' <- get ;;
      match List.find (fun v => bool_decide (address v = a)) updatedValidators with
      | Some v => set (set_validatorCache (<[a := v]> (validatorCache s')))
      | None => ret tt (* not reached: [validator] is in the list *)
      end
  end.

Section EraAPY.

Variable api : Api.

(** *** The APY of each era of one validator *)

(** One era of a batch: the APY to store for [era], or nothing. *)
Definition apyItem (validator : Validator) (a : string) (era : Z)
  : Eff (gmap Z float * World) unit :=
  try_catch
    (eraReward <- lift (await (QErasValidatorReward era) (ErasValidatorReward api era)) ;;
     if default 0 eraReward =? 0 then ret tt else
     eraPoints <- lift (await (QErasRewardPoints era) (ErasRewardPoints api era)) ;;
     match eraPoints with
     | None => ret tt
     | Some ep =>
         let validatorPoints := default 0 (pointsIn a (ep_individual ep)) in
         if (validatorPoints =? 0) || (ep_total ep =? 0) then ret tt else
         let c :=
           JS.or_else (default 0%float (historicalCommission validator !! era))
             (commission validator) in
         stakersOverview <- lift (await (QErasStakersOverview era a)
                                    (ErasStakersOverview api era a)) ;;
         if from_option so_total 0 stakersOverview =? 0 then ret tt else
         let stake := from_option so_total 0 stakersOverview in
         apy <- eraAPY_or_throw (default 0 eraReward) validatorPoints (ep_total ep) c stake ;;
         assign (fun apyByEra => <[era := apy]> apyByEra)
     end)
    (fun _ => lift (set (set_error (Some ("APY calc error for era " +:+ pretty era))))).

(** [calculateValidatorAPY]: the APY of each era of [historicalEras], in
    batches of 3, and the two averages over the entries obtained. *)
Definition calculateValidatorAPY (a : string) : Async unit :=
  s <- get ;;
  match (match findDisplayed s a with
         | Some v => Some v
         | None => validatorCache s !! a
         end) with
  | None => ret tt
  | Some validator =>
      set (set_loadingAPY true) ;;;
      try_catch
        (r <- with_locals (∅ : gmap Z float)
                (for_each (fun batch => Promise_all (apyItem validator a) batch ;;; ret tt)
                   (JS.batches 3 (historicalEras s))) ;;
         let byEra := r.2 in
         let apyValues := Object_values byEra in
         let avgAPY :=
           if bool_decide (0 < length apyValues)%nat then mean apyValues else 0%float in
         let activeApyValues := List.filter (fun apy => (0 <? apy)%float) apyValues in
         let activeOnly :=
           if bool_decide (0 < length activeApyValues)%nat
           then mean activeApyValues else 0%float in
         let update v :=
           with_rewards
             {| rew_currentEraReward := rew_currentEraReward (rewards v);
                previousErasRewards := previousErasRewards (rewards v);
                apyByEra := byEra; averageAPY := avgAPY;
                activeOnlyAverageAPY := activeOnly |} v in
         let updatedValidators :=
           (fun v => if bool_decide (address v = a) then update v else v)
             <$> displayedValidators s in
         let updatedValidator := update validator in
         set (fun st =>
                set_loadingAPY false
                  (set_validatorCache (<[a := updatedValidator]> (validatorCache st))
                     (set_displayedValidators updatedValidators st))) ;;;
         calculateAverages a)
        (fun _ => set (set_loadingAPY false))
  end.

(** [setHistoryLength]: the length is clamped to [1 .. maxHistoryLength],
    the history of the selected validator is fetched again. *)
Definition setHistoryLength (len : Z) : Async unit :=
  s <- get ;;
  let newLength := Z.max 1 (Z.min len (maxHistoryLength s)) in
  set (set_historyLength newLength) ;;;
  s' <- get ;;
  match selectedHistoricalValidator s' with
  | Some a =>
      if bool_decide (a = "") then ret tt else
      fetchHistoricalPerformance api a true ;;;
      calculateValidatorAPY a
  | None => ret tt
  end.

(** [setSelectedHistoricalValidator]: the selection is stored and its
    history fetched (not forced). *)
Definition setSelectedHistoricalValidator (a : option string) : Async unit :=
  set (set_selectedHistoricalValidator a) ;;;
  match a with
  | Some a =>
      if bool_decide (a = "") then ret tt else
      fetchHistoricalPerformance api a false ;;;
      calculateValidatorAPY a
  | None => ret tt
  end.

End EraAPY.

(** [totalPages] of [useValidatorData]:
    [Math.ceil(totalValidators / pageSize)]. *)
Definition totalPages (s : ValidatorState) : float :=
  JS.Math_ceil (JS.Number (totalValidators s) / JS.Number (pageSize s)).

(** ** The background prefetch *)

Section Prefetch.

Variable api : Api.

(** One element of a batch of [prefetchValidators]: the record fetched from
    the chain, or the default one when the fetch fails; the item does not
    write to the store. *)
Definition prefetchItem (s : ValidatorState) (e : Entry) : Async (string * Validator) :=
  let a := fe_address e in
  try_catch
    (prefs <- await (QValidators a) (Validators api a) ;;
     stake <- fetchStake api (activeEra s) a ;;
     validatorReward <- currentEraShare (currentEraPoints s) (fe_points e) ;;
     ret (a, newValidator a (commission_of_prefs prefs) (blocked_of_prefs prefs)
               stake.1 stake.2 (fe_lastEraAPY e) (fe_points e) validatorReward))
    (fun _ => ret (a, defaultValidator a (fe_lastEraAPY e) (fe_points e))).

(** [batchResults.forEach(({ address, validator }) =>
      { newCacheEntries[address] = validator })]. *)
Definition addCacheEntries (newCacheEntries : gmap string Validator)
    (batchResults : list (string * Validator)) : gmap string Validator :=
  foldl (fun m r => <[r.1 := r.2]> m) newCacheEntries batchResults.

(** The loop over the batches: the local [newCacheEntries] grows from batch
    to batch and is spread over the cache after each of them. *)
Fixpoint prefetchBatches (s : ValidatorState) (newCacheEntries : gmap string Validator)
    (bs : list (list Entry)) : Async unit :=
  match bs with
  | [] => ret tt
  | batch :: bs' =>
      batchResults <- Promise_all (prefetchItem s) batch ;;
      let newCacheEntries := addCacheEntries newCacheEntries batchResults in
      set (fun st => set_validatorCache (newCacheEntries ∪ validatorCache st) st) ;;;
      prefetchBatches s newCacheEntries bs'
  end.

(** The elements that [prefetchValidators] fetches: the first
    [prefetchSize] elements of the projection that the cache does not hold. *)
Definition toPrefetch (s : ValidatorState) : list Entry :=
  JS.slice
    (List.filter (fun v => bool_decide (validatorCache s !! fe_address v = None))
       (filteredValidators s))
    0 (prefetchSize s).

(** [prefetchValidators]: the records of the elements of the projection that
    are not cached are fetched in batches of 10 and added to the cache. *)
Definition prefetchValidators : Async unit :=
  s <- get ;;
  if bool_decide (length (filteredValidators s) = 0%nat) then ret tt else
  try_catch
    (if bool_decide (length (toPrefetch s) = 0%nat) then ret tt else
     prefetchBatches s ∅ (JS.batches 10 (toPrefetch s)))
    (fun msg => set (set_error (Some msg))).

End Prefetch.

(** ** The page row of [components/Pagination.tsx] *)

Module Pagination.

(** [visiblePages]. *)
Definition visiblePages : Z := 5.

(** [[...new Set(pages)]]: every value once, at its first occurrence. *)
Fixpoint distinct_from (seen : list Z) (pages : list Z) : list Z :=
  match pages with
  | [] => []
  | p :: pages' =>
      if bool_decide (p ∈ seen) then distinct_from seen pages'
      else p :: distinct_from (p :: seen) pages'
  end.

Definition distinct (pages : list Z) : list Z := distinct_from [] pages.

(** [pages.sort((a, b) => a - b)]: page numbers are integers, their
    difference is exact; an element moves behind another one only when the
    difference is positive. *)
Fixpoint sort_insert (x : Z) (l : list Z) : list Z :=
  match l with
  | [] => [x]
  | y :: l' => if 0 <? x - y then y :: sort_insert x l' else x :: y :: l'
  end.

Definition sortNumbers (l : list Z) : list Z := foldr sort_insert [] l.

(** The values pushed by [for (let i = first; i < bound; i++) pages.push(i)]. *)
Definition pushed (first bound : Z) : list Z := seqZ first (bound - first).

(** [getPageNumbers]: all pages when there are at most five of them, else
    the first, the last and the current page with its two neighbours. *)
Definition getPageNumbers (currentPage totalPages : Z) : list Z :=
  if totalPages <=? visiblePages then (fun i => i + 1) <$> seqZ 0 totalPages
  else
    let pages := [1; totalPages; currentPage] in
    let pages := pages ++ pushed (Z.max 2 (currentPage - 1)) currentPage in
    let pages :=
      pages ++ pushed (currentPage + 1) (Z.min (totalPages - 1) (currentPage + 1) + 1) in
    sortNumbers (distinct pages).

End Pagination.

(** ** The range shown above the table of validators *)

Module ValidatorTable.

(** [startIdx] and [endIdx] of "Displaying startIdx-endIdx of
    totalValidators", for the rows [validators] of the page. *)
Definition startIdx (currentPage pageSize : Z) : Z := (currentPage - 1) * pageSize + 1.

Definition endIdx (currentPage pageSize totalValidators : Z) (validators : list Validator)
  : Z :=
  Z.min (startIdx currentPage pageSize + Z.of_nat (length validators) - 1) totalValidators.

End ValidatorTable.

(** * Vocabulary of the properties *)

(** ** How code moves the state

    [respects R m]: whatever the outcome of [m], the final state is related
    to the initial one by [R]; [safe R m]: moreover [m] returns. *)

Definition respects {S A} (R : S -> S -> Prop) (m : Eff S A) : Prop :=
  forall w, R w (m w).2.

Definition safe {S A} (R : S -> S -> Prop) (m : Eff S A) : Prop :=
  forall w, exists a w', m w = (Returned a, w') /\ R w w'.

(** Only the cache changed (and queries were issued). *)
Definition only_cache (w w' : World) : Prop :=
  (exists c, store w' = set_validatorCache c (store w)) /\ timers w' = timers w.

(** Only queries were issued. *)
Definition same_store (w w' : World) : Prop :=
  store w' = store w /\ timers w' = timers w.

(** Only the session error changed (and queries were issued). *)
Definition only_error (w w' : World) : Prop :=
  (exists e, store w' = set_error e (store w)) /\ timers w' = timers w.

(** Queries were issued, none was taken back. *)
Definition grows (w w' : World) : Prop :=
  exists qs, queries w' = qs ++ queries w.

Definition grows_locals {L} (lw lw' : L * World) : Prop := grows lw.2 lw'.2.

(** ** What the actions compute, without the effects *)

(** The two tests of [filterItem] as one: whether a validator with these
    preferences stays in the projection. *)
Definition keeps (s : ValidatorState) (c : float) (b : bool) : bool :=
  negb (negb (includeFullCommission s) && (1 <=? c)%float)
  && negb (negb (includeBlockedNominations s) && b).

(** The part of the projection shown on [page]. *)
Definition pageValidators (s : ValidatorState) (page : Z) : list Entry :=
  JS.slice (filteredValidators s) ((page - 1) * pageSize s)
    ((page - 1) * pageSize s + pageSize s).

(** The world in which the elements of a page are hydrated. *)
Definition loadingWorld (page : Z) (w : World) : World :=
  {| store := set_currentPage page (set_loadingPage true (store w));
     queries := queries w; timers := timers w |}.

(** The membership rule in the words of the specification:
    [includeFullCommission OR commission < 1.0] and
    [includeBlockedNominations OR NOT blockedNominations]. *)
Definition membershipRule (s : ValidatorState) (c : float) (b : bool) : bool :=
  (includeFullCommission s || (c <? 1)%float)
  && (includeBlockedNominations s || negb b).


(** The record that [calculateValidatorAPY] works on: the displayed one,
    else the cached one. *)
Definition chosenValidator (s : ValidatorState) (a : string) : option Validator :=
  match findDisplayed s a with
  | Some v => Some v
  | None => validatorCache s !! a
  end.

(** The record that [fetchHistoricalPerformance] works on: the cached one,
    else the displayed one. *)
Definition knownValidator (s : ValidatorState) (a : string) : option Validator :=
  match validatorCache s !! a with
  | Some v => Some v
  | None => findDisplayed s a
  end.

(** The fetch is not skipped: it is forced, or the record covers fewer eras
    than requested. *)
Definition refetches (s : ValidatorState) (validator : Validator) (forceRefresh : bool)
  : Prop :=
  forceRefresh = true
  \/ (size (previousErasPoints (performance validator)) < length (erasToFetch s))%nat.


(** The chain data say that [a] earned nothing in [era]: no points for [a],
    no points in total, or no stake behind [a]. *)
Definition earnsNothing (api : Api) (a : string) (era : Z) : Prop :=
  (exists ep, ErasRewardPoints api era = Resolved (Some ep)
              /\ (default 0 (pointsIn a (ep_individual ep)) = 0 \/ ep_total ep = 0))
  \/ (exists ov, ErasStakersOverview api era a = Resolved ov
                 /\ from_option so_total 0 ov = 0).

Section Counterparts.

Variable api : Api.

(** The preferences that decide the membership of an address: those of the
    cache, else those of the chain, else (no answer) commission 0 and not
    blocked. *)
Definition effectivePrefs (s : ValidatorState) (a : string) : float * bool :=
  match validatorCache s !! a with
  | Some cached => (commission cached, blockedNominations cached)
  | None =>
      match Validators api a with
      | Resolved prefs => (commission_of_prefs prefs, blocked_of_prefs prefs)
      | Rejected _ => (0%float, false)
      end
  end.

(** What [filterItem] resolves to, without the effects. *)
Definition filterDecision (s : ValidatorState) (v : Summary) : option Entry :=
  let a := sm_address v in
  match validatorCache s !! a, Validators api a with
  | None, Rejected _ =>
      Some {| fe_address := a; fe_points := sm_points v; fe_lastEraAPY := Some 0%float |}
  | _, _ =>
      if keeps s (effectivePrefs s a).1 (effectivePrefs s a).2
      then Some {| fe_address := a; fe_points := sm_points v;
                   fe_lastEraAPY := Some (cachedAPY s a) |}
      else None
  end.

(** The projection that [applyFilters] computes from the store [s]. *)
Definition filteredResultsOf (s : ValidatorState) : list Entry :=
  let kept :=
    if includeFullCommission s && includeBlockedNominations s
    then entry_of_summary <$> allValidators s
    else omap (filterDecision s) (allValidators s) in
  if lastEraAPYCalculated s then JS.sort (byCachedAPY s) kept else kept.

(** The APY that [apyItem] stores for [era], if any. *)
Definition apyOfEra (validator : Validator) (a : string) (era : Z) : option float :=
  match ErasValidatorReward api era with
  | Resolved eraReward =>
      if default 0 eraReward =? 0 then None else
      match ErasRewardPoints api era with
      | Resolved (Some ep) =>
          let validatorPoints := default 0 (pointsIn a (ep_individual ep)) in
          if (validatorPoints =? 0) || (ep_total ep =? 0) then None else
          match ErasStakersOverview api era a with
          | Resolved stakersOverview =>
              if from_option so_total 0 stakersOverview =? 0 then None else
              eraAPY (default 0 eraReward) validatorPoints (ep_total ep)
                (JS.or_else (default 0%float (historicalCommission validator !! era))
                   (commission validator))
                (from_option so_total 0 stakersOverview)
          | Rejected _ => None
          end
      | _ => None
      end
  | Rejected _ => None
  end.

(** The write of [apyItem] to the local [apyByEra]. *)
Definition storeAPY (validator : Validator) (a : string) (m : gmap Z float) (era : Z)
  : gmap Z float :=
  match apyOfEra validator a era with
  | Some apy => <[era := apy]> m
  | None => m
  end.


(** The writes of [historyItem] to the three local maps. *)
Definition recordEra (a : string) (l : HistLocals) (era : Z) : HistLocals :=
  match ErasRewardPoints api era, ErasValidatorReward api era with
  | Resolved eraPoints, Resolved eraReward =>
      let withCommission l1 :=
        match ErasValidatorPrefs api era a with
        | Resolved validatorPrefs =>
            if negb (from_option vp_commission 0 validatorPrefs =? 0)
            then put_commission era (commission_of_prefs validatorPrefs) l1
            else l1
        | Rejected _ => l1
        end in
      match eraPoints with
      | Some ep =>
          match pointsIn a (ep_individual ep) with
          | Some validatorPoints =>
              let l1 := put_performance era validatorPoints l in
              if negb (default 0 eraReward =? 0) && (0 <? ep_total ep) then
                match JS.BigInt
                        (JS.Math_floor
                           ((JS.Number validatorPoints / JS.Number (ep_total ep))
                            * JS.Number 1000000)) with
                | Some ratioFixed =>
                    withCommission
                      (put_reward era (Z.quot (ratioFixed * default 0 eraReward) 1000000) l1)
                | None => l1
                end
              else withCommission l1
          | None => withCommission l
          end
      | None => withCommission l
      end
  | _, _ => l
  end.

(** The three maps that a fetch over [eras] builds: they depend on the
    chain, the address and the eras, not on what the store held. *)
Definition fetchedHistory (a : string) (eras : list Z) : HistLocals :=
  foldl (recordEra a)
    {| validatorPerformance := ∅; validatorRewards := ∅; validatorCommissions := ∅ |}
    eras.

End Counterparts.

(** ** Example chains and worlds *)

Definition world_of (s : ValidatorState) : World :=
  {| store := s; queries := []; timers := [] |}.

(** A chain on which every validator keeps the whole reward (commission
    100%), none blocks nominations, all have the same stake. *)
Definition greedyChain : Api :=
  {| ActiveEra := Resolved (Some 100);
     SessionValidators := Resolved ["X"; "Y"; "Z"];
     ErasValidatorReward := fun _ => Resolved (Some 1000000000000);
     ErasRewardPoints := fun _ =>
       Resolved (Some {| ep_total := 300;
                         ep_individual := [("X", 100); ("Y", 100); ("Z", 100)] |});
     Validators := fun _ =>
       Resolved (Some {| vp_commission := 1000000000; vp_blocked := false |});
     ErasValidatorPrefs := fun _ _ =>
       Resolved (Some {| vp_commission := 1000000000; vp_blocked := false |});
     ErasStakersOverview := fun _ _ =>
       Resolved (Some {| so_total := 500000000000; so_own := 5 |}) |}.

(** Three ranked validators, both filters switched on, one row per page. *)
Definition threeRanked : ValidatorState :=
  set_pageSize 1
    (set_includeBlockedNominations true
       (set_includeFullCommission true
          {| currentPage := 1; pageSize := 10; totalValidators := 0;
             allValidators := [ {| sm_address := "X"; sm_points := 100 |};
                                {| sm_address := "Y"; sm_points := 100 |};
                                {| sm_address := "Z"; sm_points := 100 |} ];
             filteredValidators := []; displayedValidators := []; validatorCache := ∅;
             prefetchSize := 100; activeEra := 100; lastEra := 99;
             currentEraReward := 1000000000000;
             currentEraPoints :=
               Some {| ep_total := 300;
                       ep_individual := [("X", 100); ("Y", 100); ("Z", 100)] |};
             historicalEras := []; historyLength := 20; maxHistoryLength := 84;
             selectedHistoricalValidator := None;
             includeFullCommission := false; includeBlockedNominations := false;
             loading := false; loadingPage := false; loadingAPY := false;
             loadingHistoricalData := false; calculatingLastEraAPY := false;
             lastEraAPYCalculated := false; error := None |})).

(** The user looks at page 3 of the three validators ... *)
Definition onPageThree : World :=
  run (fetchValidatorPage greedyChain 3)
    (run (applyFilters greedyChain) (world_of threeRanked)).

(** ... and then switches the full-commission validators off. *)
Definition allFilteredOut : World :=
  run (setFilterOptions greedyChain
         {| opt_includeFullCommission := Some false;
            opt_includeBlockedNominations := None |})
    onPageThree.

(** The filters are changed on page 3, before the projection is rebuilt. *)
Definition fullCommissionOff : World :=
  world_of (set_includeFullCommission false (store onPageThree)).

(** A chain with three validators: A and C take a commission of 10%, B of
    100%; the preferences of C cannot be fetched; A earns no points in
    era 101; an odd era pays twice the reward of an even one. *)
Definition chainAt (active : Z) : Api :=
  {| ActiveEra := Resolved (Some active);
     SessionValidators := Resolved ["A"; "B"; "C"];
     ErasValidatorReward := fun era =>
       Resolved (Some (if Z.odd era then 2000000000000 else 1000000000000));
     ErasRewardPoints := fun era =>
       Resolved (Some (if era =? 101
                       then {| ep_total := 400;
                               ep_individual := [("B", 300); ("C", 100)] |}
                       else {| ep_total := 400;
                               ep_individual := [("A", 200); ("B", 100); ("C", 100)] |}));
     Validators := fun a =>
       if bool_decide (a = "C") then Rejected "timeout"
       else Resolved (Some {| vp_commission :=
                                if bool_decide (a = "B") then 1000000000 else 100000000;
                              vp_blocked := false |});
     ErasValidatorPrefs := fun _ a =>
       Resolved (Some {| vp_commission :=
                           if bool_decide (a = "B") then 1000000000 else 100000000;
                         vp_blocked := false |});
     ErasStakersOverview := fun _ _ =>
       Resolved (Some {| so_total := 500000000000; so_own := 5 |}) |}.

(** A session at era 100, one row per page: the ranking is loaded ... *)
Definition sessionLoaded : World :=
  run (fetchAllValidators (chainAt 100))
    (run (setPageSize (chainAt 100) 1) (world_of initialState)).

(** ... the timer of the bulk APY job fires ... *)
Definition sessionWithAPY : World :=
  run (calculateLastEraAPYForAllValidators (chainAt 100)) sessionLoaded.

(** ... and the user opens page 2. *)
Definition sessionPageTwo : World :=
  run (fetchValidatorPage (chainAt 100) 2) sessionWithAPY.

(** Twenty-five ranked validators, both filters switched on. *)
Definition twentyFive : World :=
  world_of
    {| currentPage := 1; pageSize := 10; totalValidators := 0;
       allValidators :=
         (fun i => {| sm_address := "v" +:+ pretty i; sm_points := 1000 - i |})
           <$> seqZ 0 25;
       filteredValidators := []; displayedValidators := []; validatorCache := ∅;
       prefetchSize := 100; activeEra := 100; lastEra := 99;
       currentEraReward := 1000000000000; currentEraPoints := None;
       historicalEras := []; historyLength := 20; maxHistoryLength := 84;
       selectedHistoricalValidator := None;
       includeFullCommission := true; includeBlockedNominations := true;
       loading := false; loadingPage := false; loadingAPY := false;
       loadingHistoricalData := false; calculatingLastEraAPY := false;
       lastEraAPYCalculated := false; error := None |}.

(** The session of era 100 is refreshed at era 102: A has no points in the
    last era, 101. *)
Definition sessionRefreshed : World :=
  run (fetchAllValidators (chainAt 102)) sessionPageTwo.

Definition sessionRefreshedAPY : World :=
  run (calculateLastEraAPYForAllValidators (chainAt 102)) sessionRefreshed.

(** A session at era 100 in which the history of A is shown over two eras ... *)
Definition historyAt100 : World :=
  run (setSelectedHistoricalValidator (chainAt 100) (Some "A"))
    (run (setHistoryLength (chainAt 100) 2) sessionPageTwo).

(** ... is refreshed at era 104 ... *)
Definition refreshedAt104 : World :=
  run (fetchAllValidators (chainAt 104)) historyAt100.

(** ... where the history length is set to two eras again, which fetches the
    history of the selected validator anew ... *)
Definition historyAt104 : World :=
  run (setHistoryLength (chainAt 104) 2) refreshedAt104.

(** ... and then to one era. *)
Definition historyShortened : World :=
  run (setHistoryLength (chainAt 104) 1) historyAt104.

(** The era points that the cache holds for A, by ascending era. *)
Definition pointsOfA (w : World) : list (Z * Z) :=
  from_option (fun v => entriesOf (previousErasPoints (performance v))) []
    (validatorCache (store w) !! "A").

(** The record of A before the second fetch at era 104. *)
Definition knownA : Validator :=
  default (defaultValidator "A" None 0) (knownValidator (store refreshedAt104) "A").

(** The refreshed session of era 102, with the history of A over three
    eras: 101, 100 and 99. *)
Definition sessionHistory : World :=
  run (setSelectedHistoricalValidator (chainAt 102) (Some "A"))
    (run (setHistoryLength (chainAt 102) 3) sessionRefreshedAPY).


(** The session at era 100 just after a first run of the bulk job has set
    its flags and is waiting for its first query. *)
Definition inFlight : World :=
  {| store := set_lastEraAPYCalculated false
                (set_calculatingLastEraAPY true (store sessionLoaded));
     queries := queries sessionLoaded; timers := timers sessionLoaded |}.

(** ** Observations of the store *)

(** The observation [f] of the store does not read the field that [setter]
    writes. *)
Definition ignores {A B} (f : ValidatorState -> A)
    (setter : B -> ValidatorState -> ValidatorState) : Prop :=
  forall v st, f (setter v st) = f st.

(** The observation [f] is the same before and after. *)
Definition unchanged {A} (f : ValidatorState -> A) (w w' : World) : Prop :=
  f (store w') = f (store w).

(** A relation on worlds, for code with local variables. *)
Definition on_world {L} (R : World -> World -> Prop) (lw lw' : L * World) : Prop :=
  R lw.2 lw'.2.

(** [f] reads none of the fields that a page load writes. *)
Definition ignoresPage {A} (f : ValidatorState -> A) : Prop :=
  ignores f set_currentPage /\ ignores f set_loadingPage
  /\ ignores f set_validatorCache /\ ignores f set_displayedValidators.

(** [f] reads none of the fields that the rebuilding of the projection
    writes. *)
Definition ignoresFilters {A} (f : ValidatorState -> A) : Prop :=
  ignores f set_loadingPage /\ ignores f set_totalValidators
  /\ ignores f set_filteredValidators.

(** [f] reads none of the fields that the history of a validator writes. *)
Definition ignoresHistory {A} (f : ValidatorState -> A) : Prop :=
  ignores f set_loadingHistoricalData /\ ignores f set_historicalEras
  /\ ignores f set_loadingAPY /\ ignores f set_validatorCache
  /\ ignores f set_displayedValidators /\ ignores f set_error.

(** [f] reads none of the fields that the bulk job writes itself. *)
Definition ignoresBulk {A} (f : ValidatorState -> A) : Prop :=
  ignores f set_calculatingLastEraAPY /\ ignores f set_lastEraAPYCalculated
  /\ ignores f set_validatorCache /\ ignores f set_filteredValidators
  /\ ignores f set_displayedValidators /\ ignores f set_error.

(** [f] reads none of the fields that the loading of the ranking writes
    itself. *)
Definition ignoresRanking {A} (f : ValidatorState -> A) : Prop :=
  ignores f set_loading /\ ignores f set_error /\ ignores f set_allValidators
  /\ ignores f set_activeEra /\ ignores f set_lastEra /\ ignores f set_maxHistoryLength
  /\ ignores f set_currentEraReward /\ ignores f set_currentEraPoints.

(** ** Sessions *)

(** The actions of the store, as its users call them. *)
Inductive Action :=
  | FetchAllValidators
  | FetchValidatorPage (page : Z)
  | SetPageSize (size : Z)
  | SetFilterOptions (options : FilterOptions)
  | ApplyFilters
  | CalculateLastEraAPYForAllValidators
  | PrefetchValidators
  | FetchHistoricalPerformance (a : string) (forceRefresh : bool)
  | CalculateValidatorAPY (a : string)
  | CalculateAverages (a : string)
  | SetHistoryLength (len : Z)
  | SetSelectedHistoricalValidator (a : option string).

Definition perform (api : Api) (act : Action) : Async unit :=
  match act with
  | FetchAllValidators => fetchAllValidators api
  | FetchValidatorPage page => fetchValidatorPage api page
  | SetPageSize size => setPageSize api size
  | SetFilterOptions options => setFilterOptions api options
  | ApplyFilters => applyFilters api
  | CalculateLastEraAPYForAllValidators => calculateLastEraAPYForAllValidators api
  | PrefetchValidators => prefetchValidators api
  | FetchHistoricalPerformance a forceRefresh => fetchHistoricalPerformance api a forceRefresh
  | CalculateValidatorAPY a => calculateValidatorAPY api a
  | CalculateAverages a => calculateAverages a
  | SetHistoryLength len => setHistoryLength api len
  | SetSelectedHistoricalValidator a => setSelectedHistoricalValidator api a
  end.

(** A session: actions run one after the other from the initial store,
    each against the chain as it answers at that time. *)
Definition session (steps : list (Api * Action)) : World :=
  foldl (fun w step => run (perform step.1 step.2) w) (world_of initialState) steps.

(** [totalValidators] is the length of the projection. *)
Definition countsProjection (s : ValidatorState) : Prop :=
  totalValidators s = Z.of_nat (length (filteredValidators s)).

(** Every record of the map is stored under its own address. *)
Definition keyedMap (m : gmap string Validator) : Prop :=
  forall a v, m !! a = Some v -> address v = a.

(** Every record of the cache is stored under its own address. *)
Definition keyedByAddress (s : ValidatorState) : Prop :=
  keyedMap (validatorCache s).

(** The same for the bulk job while it runs: its local [newCacheEntries]
    and the cache. *)
Definition bulkKeyed (lw : BulkLocals * World) : Prop :=
  keyedMap (newCacheEntries lw.1) /\ keyedByAddress (store lw.2).

(** The record that an item of the bulk job hands back, if any, is the one
    of its address. *)
Definition ownRecord (r : APYResult) : Prop :=
  forall v, res_validatorInstance r = Some v -> address v = res_address r.

(** The property [I] of the locals and the world, when it holds before,
    holds after. *)
Definition preserved_locals {L} (I : L * World -> Prop) (lw lw' : L * World) : Prop :=
  I lw -> I lw'.

(** The property [Q] of the store, when it holds before, holds after. *)
Definition preserved (Q : ValidatorState -> Prop) (w w' : World) : Prop :=
  Q (store w) -> Q (store w').

(** No record leaves the cache. *)
Definition keepsCache (w w' : World) : Prop :=
  forall a, is_Some (validatorCache (store w) !! a) ->
            is_Some (validatorCache (store w') !! a).

(** The two fields that [countsProjection] reads. *)
Definition projectionFields (s : ValidatorState) : Z * list Entry :=
  (totalValidators s, filteredValidators s).

(** A session at era 100: the page size is set to one row and the ranking
    is loaded. *)
Definition shortSession : list (Api * Action) :=
  [(chainAt 100, SetPageSize 1); (chainAt 100, FetchAllValidators)].

(** ** What holds when an action is done *)

(** [after P m Q]: when [m] starts in a world where [P] holds and returns,
    [Q] holds of the world it leaves. *)
Definition after {A} (P : World -> Prop) (m : Async A) (Q : World -> Prop) : Prop :=
  forall w a w', P w -> m w = (Returned a, w') -> Q w'.

(** [m] returns, whatever the world it starts in. *)
Definition returns {S A} (m : Eff S A) : Prop :=
  forall w, exists a w', m w = (Returned a, w').

Definition anywhere (w : World) : Prop := True.

(** The eras below [active], at most [len] of them, latest first. *)
Definition erasBelow (active len : Z) : list Z :=
  (fun i => active - 1 - i) <$> seqZ 0 (Z.min len active).

(** The message with which the loading of the ranking fails, if it does:
    the active era is absent, or one of the four queries is rejected. *)
Definition loadFailure (api : Api) : option string :=
  match ActiveEra api with
  | Rejected msg => Some msg
  | Resolved None => Some "failed gettin the active era..."
  | Resolved (Some active) =>
      match ErasValidatorReward api active with
      | Rejected msg => Some msg
      | Resolved _ =>
          match SessionValidators api with
          | Rejected msg => Some msg
          | Resolved _ =>
              match ErasRewardPoints api active with
              | Rejected msg => Some msg
              | Resolved _ => None
              end
          end
      end
  end.

(** A chain whose list of session validators cannot be fetched. *)
Definition noSessionChain : Api :=
  {| ActiveEra := ActiveEra (chainAt 102);
     SessionValidators := Rejected "disconnected";
     ErasValidatorReward := ErasValidatorReward (chainAt 102);
     ErasRewardPoints := ErasRewardPoints (chainAt 102);
     Validators := Validators (chainAt 102);
     ErasValidatorPrefs := ErasValidatorPrefs (chainAt 102);
     ErasStakersOverview := ErasStakersOverview (chainAt 102) |}.

(** The fields that the loading of the ranking writes itself. *)
Definition rankingFields (s : ValidatorState)
  : list Summary * Z * Z * Z * Z * option EraRewardPoints * bool * option string :=
  (allValidators s, activeEra s, lastEra s, maxHistoryLength s, currentEraReward s,
   currentEraPoints s, loading s, error s).

(** The ranking before it is sorted: the session validators with their
    points of the era, 0 for a validator without points. *)
Definition unsortedRanking (validatorAddresses : list string)
    (eraRewardPoints : option EraRewardPoints) : list Summary :=
  (fun a => {| sm_address := a;
               sm_points := default 0 (pointsMapOf eraRewardPoints !! a) |})
    <$> validatorAddresses.

(** ** The queries of an action *)

(** The elements of [l] that the cache of [s] does not hold. *)
Definition uncached (s : ValidatorState) (l : list Entry) : list Entry :=
  List.filter (fun e => bool_decide (validatorCache s !! fe_address e = None)) l.

(** The preference queries that [applyFilters] issues from the store [s],
    in the order of the ranking: none when both filters are on, else one
    for each ranked validator that is not cached. *)
Definition filterQueries (s : ValidatorState) : list Query :=
  if includeFullCommission s && includeBlockedNominations s then []
  else omap (fun v => match validatorCache s !! sm_address v with
                      | Some _ => None
                      | None => Some (QValidators (sm_address v))
                      end) (allValidators s).

(** The members of the projection: the addresses with their points. *)
Definition members (s : ValidatorState) : list (string * Z) :=
  (fun e => (fe_address e, fe_points e)) <$> filteredValidators s.

(** The projection has the same members, maybe in another order. *)
Definition sameMembers (w w' : World) : Prop :=
  members (store w') ≡ₚ members (store w).

(** * Properties *)

Local Open Scope eff_scope.

(** ** How code moves the state *)

Section Frame.

Context {S : Type} (R : S -> S -> Prop).
Hypothesis R_refl : forall w, R w w.
Hypothesis R_trans : forall w1 w2 w3, R w1 w2 -> R w2 w3 -> R w1 w3.

Lemma safe_respects {A} (m : Eff S A) : safe R m -> respects R m.
Proof. intros H w. destruct (H w) as (a & w' & -> & HR). exact HR. Qed.

Lemma respects_ret {A} (a : A) : respects R (ret a).
Proof. intros w. apply R_refl. Qed.

Lemma safe_ret {A} (a : A) : safe R (ret a).
Proof. intros w. exists a, w. split; [reflexivity | apply R_refl]. Qed.

Lemma respects_throw {A} msg : respects R (throw (A := A) msg).
Proof. intros w. apply R_refl. Qed.

Lemma respects_bind {A B} (m : Eff S A) (k : A -> Eff S B) :
  respects R m -> (forall a, respects R (k a)) -> respects R (bind m k).
Proof.
  intros Hm Hk w. unfold bind. specialize (Hm w).
  destruct (m w) as [[a | msg] w']; simpl in *; [| exact Hm].
  eapply R_trans; [exact Hm | apply Hk].
Qed.

Lemma safe_bind {A B} (m : Eff S A) (k : A -> Eff S B) :
  safe R m -> (forall a, safe R (k a)) -> safe R (bind m k).
Proof.
  intros Hm Hk w. unfold bind.
  destruct (Hm w) as (a & w' & -> & HR).
  destruct (Hk a w') as (b & w'' & -> & HR').
  exists b, w''. split; [reflexivity | eauto].
Qed.

Lemma respects_try_catch {A} (m : Eff S A) h :
  respects R m -> (forall msg, respects R (h msg)) -> respects R (try_catch m h).
Proof.
  intros Hm Hh w. unfold try_catch. specialize (Hm w).
  destruct (m w) as [[a | msg] w']; simpl in *; [exact Hm |].
  eapply R_trans; [exact Hm | apply Hh].
Qed.

(** A handler that returns makes the whole [try] return. *)
Lemma safe_try_catch {A} (m : Eff S A) h :
  respects R m -> (forall msg, safe R (h msg)) -> safe R (try_catch m h).
Proof.
  intros Hm Hh w. unfold try_catch. specialize (Hm w).
  destruct (m w) as [[a | msg] w']; simpl in *.
  - exists a, w'. split; [reflexivity | exact Hm].
  - destruct (Hh msg w') as (b & w'' & -> & HR'). exists b, w''. eauto.
Qed.

Lemma respects_for_each {A} (f : A -> Eff S unit) l :
  (forall x, respects R (f x)) -> respects R (for_each f l).
Proof.
  intros Hf. induction l as [| x l IH]; simpl.
  - apply respects_ret.
  - apply respects_bind; auto.
Qed.

Lemma safe_for_each {A} (f : A -> Eff S unit) l :
  (forall x, safe R (f x)) -> safe R (for_each f l).
Proof.
  intros Hf. induction l as [| x l IH]; simpl.
  - apply safe_ret.
  - apply safe_bind; auto.
Qed.

Lemma respects_Promise_all {A B} (f : A -> Eff S B) l :
  (forall x, respects R (f x)) -> respects R (Promise_all f l).
Proof.
  intros Hf. induction l as [| x l IH]; simpl.
  - apply respects_ret.
  - apply respects_bind; [auto |]. intros y.
    apply respects_bind; [auto |]. intros ys. apply respects_ret.
Qed.

Lemma safe_Promise_all {A B} (f : A -> Eff S B) l :
  (forall x, safe R (f x)) -> safe R (Promise_all f l).
Proof.
  intros Hf. induction l as [| x l IH]; simpl.
  - apply safe_ret.
  - apply safe_bind; [auto |]. intros y.
    apply safe_bind; [auto |]. intros ys. apply safe_ret.
Qed.

Lemma respects_for_batches {A B} (body : list A -> Eff S (list B)) bs :
  (forall b, respects R (body b)) -> respects R (for_batches body bs).
Proof.
  intros Hf. induction bs as [| b bs IH]; simpl.
  - apply respects_ret.
  - apply respects_bind; [auto |]. intros y.
    apply respects_bind; [auto |]. intros ys. apply respects_ret.
Qed.

Lemma safe_for_batches {A B} (body : list A -> Eff S (list B)) bs :
  (forall b, safe R (body b)) -> safe R (for_batches body bs).
Proof.
  intros Hf. induction bs as [| b bs IH]; simpl.
  - apply safe_ret.
  - apply safe_bind; [auto |]. intros y.
    apply safe_bind; [auto |]. intros ys. apply safe_ret.
Qed.

End Frame.

Lemma respects_weaken {S A} (R R' : S -> S -> Prop) (m : Eff S A) :
  (forall w w', R w w' -> R' w w') -> respects R m -> respects R' m.
Proof. intros HRR Hm w. apply HRR, Hm. Qed.

Lemma safe_weaken {S A} (R R' : S -> S -> Prop) (m : Eff S A) :
  (forall w w', R w w' -> R' w w') -> safe R m -> safe R' m.
Proof.
  intros HRR Hm w. destruct (Hm w) as (a & w' & Heq & HR). eauto.
Qed.

(** ** Lists: groups, slices, sorting *)

Lemma batches_go_concat {A} (b : nat) (l : list A) fuel :
  (0 < b)%nat -> (length l <= fuel)%nat -> concat (JS.batches_go fuel b l) = l.
Proof.
  intros Hb. revert l. induction fuel as [| fuel IH]; intros l Hl.
  - destruct l; [reflexivity | simpl in Hl; lia].
  - destruct l as [| x l]; [reflexivity |].
    cbn [JS.batches_go concat]. rewrite IH.
    + apply take_drop.
    + rewrite length_drop. simpl in *. lia.
Qed.

Lemma batches_concat {A} (b : nat) (l : list A) :
  (0 < b)%nat -> concat (JS.batches b l) = l.
Proof. intros Hb. apply batches_go_concat; [exact Hb | lia]. Qed.

Lemma Promise_all_app {S A B} (f : A -> Eff S B) l1 l2 w :
  Promise_all f (l1 ++ l2) w
  = (r <- Promise_all f l1 ;; rs <- Promise_all f l2 ;; ret (r ++ rs)) w.
Proof.
  revert w. induction l1 as [| x l1 IH]; intros w; simpl.
  - unfold bind, ret. destruct (Promise_all f l2 w) as [[rs | msg] w']; reflexivity.
  - unfold bind, ret in *. destruct (f x w) as [[y | msg] w1]; [| reflexivity].
    rewrite IH. destruct (Promise_all f l1 w1) as [[r | msg] w2]; [| reflexivity].
    destruct (Promise_all f l2 w2) as [[rs | msg] w3]; reflexivity.
Qed.

(** Cutting a list in groups does not change what a loop over its items
    collects, when what is kept of a group distributes over [++]. *)
Lemma for_batches_Promise_all {S A B C} (f : A -> Eff S B) (g : list B -> list C) bs w :
  g [] = [] -> (forall l1 l2, g (l1 ++ l2) = g l1 ++ g l2) ->
  for_batches (fun b => rs <- Promise_all f b ;; ret (g rs)) bs w
  = (rs <- Promise_all f (concat bs) ;; ret (g rs)) w.
Proof.
  intros Hnil Happ. revert w. induction bs as [| b bs IH]; intros w; simpl.
  - unfold bind, ret. simpl. rewrite Hnil. reflexivity.
  - pose proof (Promise_all_app f b (concat bs) w) as Happ'.
    unfold bind, ret in *. rewrite Happ'.
    destruct (Promise_all f b w) as [[r | msg] w1]; [| reflexivity].
    rewrite IH.
    destruct (Promise_all f (concat bs) w1) as [[rs | msg] w2]; [| reflexivity].
    rewrite Happ. reflexivity.
Qed.

Lemma for_batches_plain {S A B} (f : A -> Eff S B) bs w :
  for_batches (Promise_all f) bs w = Promise_all f (concat bs) w.
Proof.
  revert w. induction bs as [| b bs IH]; intros w; simpl; [reflexivity |].
  rewrite Promise_all_app. unfold bind, ret in *.
  destruct (Promise_all f b w) as [[r | msg] w1]; [| reflexivity].
  rewrite IH. reflexivity.
Qed.

Lemma Promise_all_length {S A B} (f : A -> Eff S B) l w rs w' :
  Promise_all f l w = (Returned rs, w') -> length rs = length l.
Proof.
  revert w rs w'. induction l as [| x l IH]; intros w rs w'; simpl.
  - unfold ret. intros [= <- _]. reflexivity.
  - unfold bind, ret. destruct (f x w) as [[y | msg] w1]; [| discriminate].
    destruct (Promise_all f l w1) as [[ys | msg] w2] eqn:E; [| discriminate].
    intros [= <- _]. simpl. f_equal. eapply IH, E.
Qed.

(** Case analysis on the next [match] of the goal or of a hypothesis. *)
Ltac break_match :=
  match goal with
  | |- context [match ?x with _ => _ end] => destruct x eqn:?
  | H : context [match ?x with _ => _ end] |- _ => destruct x eqn:?
  end.

Lemma slice_length {A} (l : list A) (s e : Z) :
  0 <= s <= e ->
  Z.of_nat (length (JS.slice l s e))
  = Z.min e (Z.of_nat (length l)) - Z.min s (Z.of_nat (length l)).
Proof.
  intros H. unfold JS.slice.
  destruct (Z.ltb_spec s 0); [lia |]. destruct (Z.ltb_spec e 0); [lia |].
  rewrite length_take, length_drop. lia.
Qed.

Lemma sort_insert_perm {A} (cmp : A -> A -> float) x l :
  JS.sort_insert cmp x l ≡ₚ x :: l.
Proof.
  induction l as [| y l IH]; simpl; [reflexivity |].
  destruct (0 <? cmp x y)%float; [| reflexivity].
  rewrite IH. apply Permutation_swap.
Qed.

(** Sorting rearranges and nothing else. *)
Lemma sort_perm {A} (cmp : A -> A -> float) l : JS.sort cmp l ≡ₚ l.
Proof.
  induction l as [| x l IH]; simpl; [reflexivity |].
  unfold JS.sort in *. simpl. rewrite sort_insert_perm, IH. reflexivity.
Qed.

(** ** The frame of the primitives *)

Lemma set_validatorCache_id s : set_validatorCache (validatorCache s) s = s.
Proof. destruct s; reflexivity. Qed.

Lemma only_cache_refl w : only_cache w w.
Proof.
  split; [| reflexivity]. exists (validatorCache (store w)).
  symmetry. apply set_validatorCache_id.
Qed.

Lemma only_cache_trans w1 w2 w3 :
  only_cache w1 w2 -> only_cache w2 w3 -> only_cache w1 w3.
Proof.
  intros [[c1 H1] T1] [[c2 H2] T2]. split; [| congruence].
  exists c2. rewrite H2, H1. reflexivity.
Qed.

Lemma same_store_refl w : same_store w w.
Proof. split; reflexivity. Qed.

Lemma same_store_trans w1 w2 w3 :
  same_store w1 w2 -> same_store w2 w3 -> same_store w1 w3.
Proof. intros [H1 T1] [H2 T2]. split; congruence. Qed.

Lemma same_store_only_cache w w' : same_store w w' -> only_cache w w'.
Proof.
  intros [H T]. split; [| exact T]. exists (validatorCache (store w)).
  rewrite H. symmetry. apply set_validatorCache_id.
Qed.

Ltac frame_side :=
  first [ exact only_cache_refl | exact only_cache_trans
        | exact same_store_refl | exact same_store_trans ].

(** One step through the structure of a piece of code. *)
Ltac frame_step :=
  lazymatch goal with
  | |- respects _ (ret _) => apply respects_ret; frame_side
  | |- respects _ (throw _) => apply respects_throw; frame_side
  | |- respects _ (bind _ _) => apply respects_bind; [frame_side | | intros ?]
  | |- respects _ (try_catch _ _) => apply respects_try_catch; [frame_side | | intros ?]
  | |- respects _ (if ?b then _ else _) => destruct b
  | |- safe _ (ret _) => apply safe_ret; frame_side
  | |- safe _ (bind _ _) => apply safe_bind; [frame_side | | intros ?]
  | |- safe _ (if ?b then _ else _) => destruct b
  end.

Lemma safe_get R : (forall w, R w w) -> safe R get.
Proof. intros HR w. exists (store w), w. split; [reflexivity | apply HR]. Qed.

Lemma respects_await {A} q (r : response A) : respects same_store (await q r).
Proof. intros w. split; reflexivity. Qed.

Lemma safe_set_cache (f : ValidatorState -> gmap string Validator) :
  safe only_cache (set (fun st => set_validatorCache (f st) st)).
Proof.
  intros w. eexists tt, _. split; [reflexivity |].
  split; [| reflexivity]. exists (f (store w)). reflexivity.
Qed.

Lemma respects_await_cache {A} q (r : response A) : respects only_cache (await q r).
Proof.
  eapply respects_weaken; [apply same_store_only_cache | apply respects_await].
Qed.

Section PageFacts.

Variable api : Api.

Lemma fetchStake_safe era a : safe same_store (fetchStake api era a).
Proof.
  unfold fetchStake. apply safe_try_catch; [frame_side | | intros msg; frame_step].
  frame_step; [apply respects_await | frame_step].
Qed.

Lemma currentEraShare_respects ep points :
  respects same_store (currentEraShare ep points).
Proof.
  unfold currentEraShare. frame_step.
  - apply safe_respects, safe_get, same_store_refl.
  - frame_step; [| frame_step].
    destruct (JS.BigInt _); frame_step.
Qed.

(** An element of a page is always produced, whatever the chain answers,
    and producing it touches the cache only. *)
Lemma hydrate_safe s e : safe only_cache (hydrate api s e).
Proof.
  unfold hydrate. destruct (validatorCache s !! fe_address e) as [cached |].
  - destruct (fe_lastEraAPY e) as [apy |]; [| frame_step].
    frame_step; [| frame_step].
    frame_step; [apply safe_set_cache | frame_step].
  - apply safe_try_catch; [frame_side | |].
    + frame_step; [apply respects_await_cache |].
      frame_step.
      { eapply respects_weaken; [apply same_store_only_cache |].
        apply safe_respects, fetchStake_safe. }
      frame_step.
      { eapply respects_weaken; [apply same_store_only_cache |].
        apply currentEraShare_respects. }
      frame_step; [apply safe_respects, safe_set_cache | frame_step].
    + intros msg. frame_step; [apply safe_set_cache | frame_step].
Qed.

(** The record of an element is the one the cache had for it, or the one
    just written to the cache. *)
Lemma hydrate_cache s e w v w' :
  hydrate api s e w = (Returned v, w') ->
  (validatorCache (store w') = validatorCache (store w)
   /\ validatorCache s !! fe_address e = Some v)
  \/ validatorCache (store w') = <[fe_address e := v]> (validatorCache (store w)).
Proof.
  unfold hydrate, try_catch, bind, await, fetchStake, currentEraShare, get, set,
    ret, throw, try_catch, bind.
  intros H.
  repeat (break_match; simpl in *; simplify_eq); simpl; auto.
Qed.

Lemma hydrate_cache_other s e w v w' a :
  hydrate api s e w = (Returned v, w') -> a <> fe_address e ->
  validatorCache (store w') !! a = validatorCache (store w) !! a.
Proof.
  intros H Ha. destruct (hydrate_cache _ _ _ _ _ H) as [[-> _] | ->]; [reflexivity |].
  apply lookup_insert_ne. congruence.
Qed.

Lemma hydrate_cache_self s e w v w' :
  hydrate api s e w = (Returned v, w') ->
  validatorCache (store w) !! fe_address e = validatorCache s !! fe_address e ->
  validatorCache (store w') !! fe_address e = Some v.
Proof.
  intros H Ha. destruct (hydrate_cache _ _ _ _ _ H) as [[-> Hv] | ->].
  - congruence.
  - apply lookup_insert_eq.
Qed.

Lemma hydrate_all_cache_other s l : forall w vs w' a,
  Promise_all (hydrate api s) l w = (Returned vs, w') ->
  a ∉ fe_address <$> l ->
  validatorCache (store w') !! a = validatorCache (store w) !! a.
Proof.
  induction l as [| e l IH]; intros w vs w' a; simpl.
  - unfold ret. intros [= _ <-] _. reflexivity.
  - unfold bind, ret.
    destruct (hydrate api s e w) as [[v | msg] w1] eqn:E1; [| discriminate].
    destruct (Promise_all (hydrate api s) l w1) as [[ys | msg] w2] eqn:E2;
      [| discriminate].
    intros [= _ <-] Ha. rewrite not_elem_of_cons in Ha. destruct Ha as [Hne Hnin].
    rewrite (IH _ _ _ _ E2 Hnin). eapply hydrate_cache_other; eauto.
Qed.

(** After a page of distinct addresses is hydrated from a cache that is
    the captured one on these addresses, each record of the page is the
    record of the cache for its element. *)
Lemma hydrate_all_cache s l : forall w vs w',
  Promise_all (hydrate api s) l w = (Returned vs, w') ->
  NoDup (fe_address <$> l) ->
  (forall a, a ∈ fe_address <$> l ->
             validatorCache (store w) !! a = validatorCache s !! a) ->
  Forall2 (fun e v => validatorCache (store w') !! fe_address e = Some v) l vs.
Proof.
  induction l as [| e l IH]; intros w vs w'; simpl.
  - unfold ret. intros [= <- _] _ _. constructor.
  - unfold bind, ret.
    destruct (hydrate api s e w) as [[v | msg] w1] eqn:E1; [| discriminate].
    destruct (Promise_all (hydrate api s) l w1) as [[ys | msg] w2] eqn:E2;
      [| discriminate].
    intros [= <- <-] Hnd Hagree. apply NoDup_cons in Hnd as [Hnin Hnd].
    constructor.
    + rewrite (hydrate_all_cache_other _ _ _ _ _ _ E2 Hnin).
      eapply hydrate_cache_self; [exact E1 |]. apply Hagree. left.
    + eapply IH; [exact E2 | exact Hnd |]. intros a Ha.
      rewrite <- Hagree by (right; exact Ha).
      eapply hydrate_cache_other; [exact E1 |]. intros ->. contradiction.
Qed.

(** With a projection that is not empty, [fetchValidatorPage] returns, and
    what it shows are the hydrated elements of the slice. *)
Lemma fetchValidatorPage_run page w :
  filteredValidators (store w) <> [] ->
  exists vs w1,
    Promise_all (hydrate api (store w)) (pageValidators (store w) page)
      (loadingWorld page w) = (Returned vs, w1)
    /\ only_cache (loadingWorld page w) w1
    /\ fetchValidatorPage api page w
       = (Returned tt,
          {| store := set_loadingPage false (set_displayedValidators vs (store w1));
             queries := queries w1; timers := timers w1 |}).
Proof.
  intros Hne.
  destruct (safe_Promise_all only_cache only_cache_refl only_cache_trans
              (hydrate api (store w)) (pageValidators (store w) page)
              (hydrate_safe (store w)) (loadingWorld page w))
    as (vs & w1 & Hrun & Hfr).
  exists vs, w1. split; [exact Hrun |]. split; [exact Hfr |].
  unfold fetchValidatorPage, bind at 1, get. simpl.
  rewrite bool_decide_eq_false_2
    by (destruct (filteredValidators (store w)); [congruence | discriminate]).
  unfold bind at 1, set at 1. unfold try_catch, bind at 1.
  rewrite for_batches_plain, batches_concat by lia.
  fold (pageValidators (store w) page). fold (loadingWorld page w).
  rewrite Hrun. reflexivity.
Qed.

Lemma fetchValidatorPage_skip page w :
  filteredValidators (store w) = [] ->
  fetchValidatorPage api page w = (Returned tt, w).
Proof.
  intros Hnil. unfold fetchValidatorPage, bind, get. simpl. rewrite Hnil.
  reflexivity.
Qed.

End PageFacts.

Section FilterFacts.

Variable api : Api.

Lemma filterItem_run s v w :
  exists w', filterItem api s v w = (Returned (filterDecision api s v), w')
             /\ same_store w w'.
Proof.
  unfold filterItem, filterDecision, effectivePrefs, keeps, try_catch, bind, await,
    ret, same_store.
  destruct (validatorCache s !! sm_address v) as [cached |] eqn:Ec; simpl.
  - destruct (Validators api (sm_address v));
      destruct (includeFullCommission s), (includeBlockedNominations s),
        (1 <=? commission cached)%float, (blockedNominations cached);
      simpl; eexists; split; reflexivity || (split; reflexivity).
  - destruct (Validators api (sm_address v)) as [msg | prefs]; simpl.
    + eexists; split; [reflexivity | split; reflexivity].
    + destruct (includeFullCommission s), (includeBlockedNominations s),
        (1 <=? commission_of_prefs prefs)%float, (blocked_of_prefs prefs);
        simpl; eexists; split; reflexivity || (split; reflexivity).
Qed.

Lemma filterItems_run s l : forall w,
  exists w', Promise_all (filterItem api s) l w = (Returned (filterDecision api s <$> l), w')
             /\ same_store w w'.
Proof.
  induction l as [| v l IH]; intros w; simpl.
  - exists w. split; [reflexivity | apply same_store_refl].
  - unfold bind, ret.
    destruct (filterItem_run s v w) as (w1 & -> & H1).
    destruct (IH w1) as (w2 & -> & H2).
    exists w2. split; [reflexivity | eapply same_store_trans; eauto].
Qed.

Lemma omap_id_fmap {A B} (f : A -> option B) (l : list A) :
  omap id (f <$> l) = omap f l.
Proof.
  induction l as [| x l IH]; csimpl; [reflexivity |].
  destruct (f x); csimpl; rewrite IH; reflexivity.
Qed.

(** [applyFilters] returns; it writes the projection, its length and the
    loading flag, and nothing else in the store. *)
Lemma applyFilters_run w :
  exists w',
    applyFilters api w = (Returned tt, w')
    /\ store w'
       = set_loadingPage false
           (set_totalValidators (Z.of_nat (length (filteredResultsOf api (store w))))
              (set_filteredValidators (filteredResultsOf api (store w))
                 (set_loadingPage true (store w)))).
Proof.
  unfold applyFilters, filteredResultsOf, bind at 1, get. simpl.
  unfold bind at 1, set at 1. unfold try_catch. unfold bind at 1.
  destruct (includeFullCommission (store w) && includeBlockedNominations (store w)).
  - unfold ret at 1. unfold bind at 1, set at 1. unfold bind at 1, get. simpl.
    destruct (existsb _ _ && _); eexists; split; reflexivity.
  - rewrite (for_batches_Promise_all (filterItem api (store w)) (omap id))
      by (reflexivity || apply omap_app).
    rewrite batches_concat by lia.
    unfold bind at 1.
    destruct (filterItems_run (store w) (allValidators (store w))
                {| store := set_loadingPage true (store w); queries := queries w;
                   timers := timers w |}) as (w1 & -> & Hs1 & Ht1).
    unfold ret at 1. rewrite omap_id_fmap.
    unfold bind at 1, set at 1. unfold bind at 1, get. simpl.
    simpl in Hs1. rewrite Hs1.
    destruct (existsb _ _ && _); eexists; split; reflexivity.
Qed.

End FilterFacts.

(** ** Pagination *)

(** C10: with an empty projection [fetchValidatorPage] returns at once: the
    store (so [currentPage], [displayedValidators], [validatorCache],
    [loadingPage] and [error]) is the one before the call, no query is
    issued and no timer is set. *)
Theorem fetchValidatorPage_empty_is_noop (api : Api) (n : Z) (w : World) :
  filteredValidators (store w) = [] ->
  fetchValidatorPage api n w = (Returned tt, w).
Proof. apply fetchValidatorPage_skip. Qed.

Lemma fetchValidatorPage_empty_is_noop_witness :
  filteredValidators (store allFilteredOut) = []
  /\ fetchValidatorPage greedyChain 2 allFilteredOut = (Returned tt, allFilteredOut).
Proof.
  split; [vm_compute; reflexivity |].
  apply (fetchValidatorPage_empty_is_noop greedyChain 2 allFilteredOut).
  vm_compute. reflexivity.
Defined.

(** C7, as stated, fails: on page 3, filtering every validator out leaves
    [currentPage] at 3, and so does a later change of the page size. *)
Lemma page_not_reset_when_projection_empty :
  currentPage (store allFilteredOut) <> 1
  /\ currentPage (store (run (setPageSize greedyChain 10) allFilteredOut)) <> 1.
Proof. split; vm_compute; discriminate. Qed.

Lemma currentPage_after_page api page w :
  currentPage (store (run (fetchValidatorPage api page) w))
  = match filteredValidators (store w) with
    | [] => currentPage (store w)
    | _ :: _ => page
    end.
Proof.
  unfold run. destruct (filteredValidators (store w)) as [| e l] eqn:E.
  - rewrite fetchValidatorPage_skip by exact E. reflexivity.
  - destruct (fetchValidatorPage_run api page w) as (vs & w1 & _ & [[c Hc] _] & ->).
    { rewrite E. discriminate. }
    simpl. rewrite Hc. reflexivity.
Qed.

Lemma filteredValidators_after_page api page w :
  filteredValidators (store (run (fetchValidatorPage api page) w))
  = filteredValidators (store w).
Proof.
  unfold run. destruct (filteredValidators (store w)) as [| e l] eqn:E.
  - rewrite fetchValidatorPage_skip by exact E. exact E.
  - destruct (fetchValidatorPage_run api page w) as (vs & w1 & _ & [[c Hc] _] & ->).
    { rewrite E. discriminate. }
    simpl. rewrite Hc. simpl. exact E.
Qed.

Lemma setFilterOptions_run api options w :
  exists w',
    currentPage (store w') = currentPage (store w)
    /\ run (setFilterOptions api options) w = run (fetchValidatorPage api 1) w'.
Proof.
  unfold setFilterOptions, run, bind at 1, get. cbn [fst snd].
  unfold bind at 1, set at 1. unfold bind at 1.
  match goal with
  | |- context [applyFilters api ?w0] =>
      destruct (applyFilters_run api w0) as (w' & -> & Hs)
  end.
  exists w'. split; [rewrite Hs; reflexivity | reflexivity].
Qed.

(** C7, amended: [setPageSize] and [setFilterOptions] (with its refiltering)
    leave [currentPage] at 1 when the projection that [fetchValidatorPage(1)]
    finds is not empty; when it is empty, [currentPage] keeps its value. *)
Theorem currentPage_reset_unless_empty (api : Api) (w : World) (n : Z)
    (options : FilterOptions) :
  currentPage (store (run (setPageSize api n) w))
  = match filteredValidators (store w) with
    | [] => currentPage (store w)
    | _ :: _ => 1
    end
  /\ currentPage (store (run (setFilterOptions api options) w))
     = match filteredValidators (store (run (setFilterOptions api options) w)) with
       | [] => currentPage (store w)
       | _ :: _ => 1
       end.
Proof.
  split.
  - unfold setPageSize, run, bind at 1, set at 1.
    pose proof (currentPage_after_page api 1
                  {| store := set_pageSize n (store w); queries := queries w;
                     timers := timers w |}) as H.
    unfold run in H. rewrite H. reflexivity.
  - destruct (setFilterOptions_run api options w) as (w' & Hs & ->).
    rewrite currentPage_after_page, filteredValidators_after_page, Hs. reflexivity.
Qed.

(** C8, as stated, fails: when the rebuilt projection is empty the page
    keeps the row it showed before, while the slice of the projection has
    no element. *)
Lemma displayed_stale_when_projection_empty :
  let w2 := run (fetchValidatorPage greedyChain 1)
              (run (applyFilters greedyChain) fullCommissionOff) in
  pageValidators (store w2) 1 = []
  /\ length (displayedValidators (store w2)) = 1%nat
  /\ length (displayedValidators (store w2)) <> length (pageValidators (store w2) 1).
Proof. vm_compute. repeat split; discriminate. Qed.

Lemma totalValidators_after_filters api w :
  let s1 := store (run (applyFilters api) w) in
  totalValidators s1 = Z.of_nat (length (filteredValidators s1)).
Proof.
  unfold run. destruct (applyFilters_run api w) as (w' & -> & Hs).
  simpl. rewrite Hs. reflexivity.
Qed.

(** What a page load leaves of the store, with a projection that is not
    empty. *)
Lemma page_shows_hydrated_slice api page w :
  filteredValidators (store w) <> [] ->
  let s2 := store (run (fetchValidatorPage api page) w) in
  pageSize s2 = pageSize (store w)
  /\ totalValidators s2 = totalValidators (store w)
  /\ filteredValidators s2 = filteredValidators (store w)
  /\ length (displayedValidators s2) = length (pageValidators (store w) page)
  /\ (NoDup (fe_address <$> pageValidators (store w) page) ->
      Forall2 (fun e v => validatorCache s2 !! fe_address e = Some v)
        (pageValidators (store w) page) (displayedValidators s2)).
Proof.
  intros Hne. unfold run.
  destruct (fetchValidatorPage_run api page w Hne) as (vs & w1 & Hrun & [[c Hc] _] & ->).
  cbn [snd store]. rewrite Hc.
  repeat split; try reflexivity.
  - simpl. eapply Promise_all_length, Hrun.
  - intros Hnd. simpl.
    replace c with (validatorCache (store w1)) by (rewrite Hc; reflexivity).
    eapply hydrate_all_cache; [exact Hrun | exact Hnd | reflexivity].
Qed.

(** C8, amended: after [applyFilters] and [fetchValidatorPage(page)],
    [filteredValidators.length] is [totalValidators], [totalPages] is the
    ceiling of that length over [pageSize], and, when the projection is not
    empty, [displayedValidators] has one record per element of the slice
    [(page-1)*pageSize .. page*pageSize] of the projection, which for
    distinct addresses is the record of the cache for that element; when
    the projection is empty [displayedValidators] is left as it was.  With
    25 validators and a page size of 10 there are 3 pages, and page 3 has
    5 rows. *)
Theorem page_is_hydrated_slice (api : Api) (w : World) (page : Z) :
  let s2 := store (run (fetchValidatorPage api page) (run (applyFilters api) w)) in
  Z.of_nat (length (filteredValidators s2)) = totalValidators s2
  /\ totalPages s2
     = JS.Math_ceil (JS.Number (Z.of_nat (length (filteredValidators s2)))
                     / JS.Number (pageSize s2))
  /\ (filteredValidators s2 <> [] ->
      length (displayedValidators s2) = length (pageValidators s2 page)
      /\ (NoDup (fe_address <$> pageValidators s2 page) ->
          Forall2 (fun e v => validatorCache s2 !! fe_address e = Some v)
            (pageValidators s2 page) (displayedValidators s2)))
  /\ (filteredValidators s2 = [] ->
      displayedValidators s2 = displayedValidators (store w))
  /\ (Z.of_nat (length (filteredValidators s2)) = 25 -> pageSize s2 = 10 ->
      totalPages s2 = 3%float
      /\ (page = 3 -> length (displayedValidators s2) = 5%nat)).
Proof.
  intros s2.
  pose proof (totalValidators_after_filters api w) as Htot. cbv zeta in Htot.
  set (w1 := run (applyFilters api) w) in *.
  assert (Hshape : filteredValidators s2 = filteredValidators (store w1)
                   /\ totalValidators s2 = totalValidators (store w1)
                   /\ pageSize s2 = pageSize (store w1)).
  { destruct (filteredValidators (store w1)) as [| e l] eqn:E.
    - unfold s2, run. rewrite fetchValidatorPage_skip by exact E. auto.
    - destruct (page_shows_hydrated_slice api page w1) as (H1 & H2 & H3 & _).
      { rewrite E. discriminate. }
      fold s2 in H1, H2, H3. rewrite H3, E. auto. }
  destruct Hshape as (Hf & Ht & Hp).
  assert (Hlen : Z.of_nat (length (filteredValidators s2)) = totalValidators s2).
  { rewrite Hf, Ht, Htot. reflexivity. }
  assert (Hpage : filteredValidators s2 <> [] ->
            length (displayedValidators s2) = length (pageValidators s2 page)
            /\ (NoDup (fe_address <$> pageValidators s2 page) ->
                Forall2 (fun e v => validatorCache s2 !! fe_address e = Some v)
                  (pageValidators s2 page) (displayedValidators s2))).
  { intros Hne. rewrite Hf in Hne.
    destruct (page_shows_hydrated_slice api page w1 Hne) as (_ & _ & _ & H4 & H5).
    fold s2 in H4, H5.
    assert (Hpv : pageValidators s2 page = pageValidators (store w1) page).
    { unfold pageValidators. rewrite Hf, Hp. reflexivity. }
    rewrite Hpv. auto. }
  split; [exact Hlen |]. split; [| split; [exact Hpage | split]].
  - unfold totalPages. rewrite Hlen. reflexivity.
  - intros Hnil. rewrite Hf in Hnil. unfold s2, run at 1.
    rewrite fetchValidatorPage_skip by exact Hnil.
    unfold w1, run. destruct (applyFilters_run api w) as (w' & -> & Hs).
    simpl. rewrite Hs. reflexivity.
  - intros H25 H10. split.
    + unfold totalPages. rewrite <- Hlen, H25, H10. vm_compute. reflexivity.
    + intros ->. destruct Hpage as [Hl _].
      { intros Hnil. rewrite Hnil in H25. simpl in H25. lia. }
      rewrite Hl. apply Nat2Z.inj. unfold pageValidators.
      rewrite slice_length by lia. rewrite H25, H10. reflexivity.
Qed.

(** ** Comparisons of numbers *)

Lemma SFcompare_antisym x y c :
  SFcompare x y = Some c -> SFcompare y x = Some (CompOpp c).
Proof.
  destruct x as [sx | sx | | sx mx ex], y as [sy | sy | | sy my ey];
    try (simpl; discriminate);
    try (simpl; try destruct sx; try destruct sy; intros [= <-]; reflexivity).
  simpl. intros [= <-]. f_equal.
  rewrite (Z.compare_antisym ex ey).
  change (PosDef.Pos.compare_cont Eq my mx) with (Pos.compare my mx).
  change (PosDef.Pos.compare_cont Eq mx my) with (Pos.compare mx my).
  rewrite (Pos.compare_antisym mx my).
  destruct sx, sy; simpl; try reflexivity;
    destruct (ex ?= ey)%Z; simpl; try reflexivity;
    destruct (mx ?= my)%positive; reflexivity.
Qed.

(** On numbers that are not NaN, [!(x >= y)] is [x < y]. *)
Lemma not_leb_ltb (x y : float) :
  is_nan x = false -> is_nan y = false -> negb (y <=? x)%float = (x <? y)%float.
Proof.
  unfold is_nan. intros Hx Hy. rewrite FloatAxioms.eqb_spec in Hx, Hy.
  rewrite FloatAxioms.leb_spec, FloatAxioms.ltb_spec.
  unfold SFeqb, SFleb, SFltb in *.
  destruct (SFcompare (Prim2SF y) (Prim2SF x)) as [c |] eqn:E.
  - rewrite (SFcompare_antisym _ _ _ E). destruct c; reflexivity.
  - exfalso.
    destruct (Prim2SF x) as [sx | sx | | sx mx ex], (Prim2SF y) as [sy | sy | | sy my ey];
      simpl in *; try discriminate.
Qed.

(** ** Filter membership *)

Lemma keeps_membershipRule s c b :
  is_nan c = false -> keeps s c b = membershipRule s c b.
Proof.
  intros Hc. unfold keeps, membershipRule.
  rewrite <- (not_leb_ltb c 1 Hc) by reflexivity.
  destruct (includeFullCommission s), (includeBlockedNominations s),
    (1 <=? c)%float, b; reflexivity.
Qed.

Section MembershipFacts.

Variable api : Api.

Lemma filterDecision_address s v e :
  filterDecision api s v = Some e -> fe_address e = sm_address v.
Proof.
  unfold filterDecision. intros H.
  repeat (break_match; simplify_eq); reflexivity.
Qed.

Lemma filterDecision_keeps s v :
  is_Some (filterDecision api s v)
  <-> keeps s (effectivePrefs api s (sm_address v)).1
        (effectivePrefs api s (sm_address v)).2 = true.
Proof.
  unfold filterDecision, effectivePrefs.
  destruct (validatorCache s !! sm_address v) as [cached |];
    [| destruct (Validators api (sm_address v)) as [msg | prefs]]; simpl.
  1, 3: match goal with |- context [keeps ?s ?c ?b] => destruct (keeps s c b) end;
        split; intros H; try reflexivity; try eauto;
        try (destruct H; discriminate); try discriminate.
  split; [intros _ | eauto].
  unfold keeps. destruct (includeFullCommission s), (includeBlockedNominations s);
    reflexivity.
Qed.

(** The addresses of the projection that [applyFilters] leaves. *)
Lemma filtered_addresses w a :
  a ∈ fe_address <$> filteredValidators (store (run (applyFilters api) w))
  <-> exists v, v ∈ allValidators (store w) /\ sm_address v = a
                /\ ((includeFullCommission (store w)
                     && includeBlockedNominations (store w) = true)
                    \/ is_Some (filterDecision api (store w) v)).
Proof.
  unfold run. destruct (applyFilters_run api w) as (w' & -> & Hs).
  cbn [snd]. rewrite Hs. cbn [filteredValidators set_loadingPage
    set_totalValidators set_filteredValidators].
  unfold filteredResultsOf.
  set (kept := if includeFullCommission (store w) && includeBlockedNominations (store w)
               then _ else _).
  assert (Hk : a ∈ fe_address <$>
                 (if lastEraAPYCalculated (store w)
                  then JS.sort (byCachedAPY (store w)) kept else kept)
               <-> a ∈ fe_address <$> kept).
  { destruct (lastEraAPYCalculated (store w)); [| reflexivity].
    rewrite (sort_perm (byCachedAPY (store w)) kept). reflexivity. }
  rewrite Hk. unfold kept. clear Hk kept.
  destruct (includeFullCommission (store w) && includeBlockedNominations (store w)).
  - rewrite <- list_fmap_compose, list_elem_of_fmap. split.
    + intros (v & -> & Hv). exists v. auto.
    + intros (v & Hv & <- & _). exists v. auto.
  - rewrite list_elem_of_fmap. split.
    + intros (e & -> & He). apply list_elem_of_omap in He as (v & Hv & Hd).
      exists v. split; [exact Hv |]. split; [| right; eauto].
      symmetry. eapply filterDecision_address, Hd.
    + intros (v & Hv & <- & [Hab | [e He]]); [discriminate |].
      exists e. split; [symmetry; eapply filterDecision_address, He |].
      apply list_elem_of_omap. eauto.
Qed.

End MembershipFacts.

(** C6: after [applyFilters], a ranked validator is in [filteredValidators]
    exactly when ([includeFullCommission] or its commission is below 1.0)
    and ([includeBlockedNominations] or it does not block nominations); the
    commission and the flag are those of the cache when the validator is
    cached, else those just fetched (0 and [false] when the chain gives
    none).  The commission is a number (not NaN).  With
    [includeFullCommission = false], a validator cached with a commission
    of 1.0 or more is not in [filteredValidators]. *)
Theorem filter_membership (api : Api) (w : World) (v : Summary) :
  v ∈ allValidators (store w) ->
  let s := store w in
  let s' := store (run (applyFilters api) w) in
  let c := (effectivePrefs api s (sm_address v)).1 in
  let b := (effectivePrefs api s (sm_address v)).2 in
  (is_nan c = false ->
   sm_address v ∈ fe_address <$> filteredValidators s'
   <-> membershipRule s c b = true)
  /\ (forall cached,
        includeFullCommission s = false ->
        validatorCache s !! sm_address v = Some cached ->
        (1 <=? commission cached)%float = true ->
        sm_address v ∉ fe_address <$> filteredValidators s').
Proof.
  intros Hv s s' c b.
  assert (Hmem : sm_address v ∈ fe_address <$> filteredValidators s'
                 <-> keeps s c b = true).
  { unfold s'. rewrite filtered_addresses. fold s. split.
    - intros (v' & Hv' & Ha & [Hall | Hd]).
      + apply andb_true_iff in Hall as [H1 H2]. unfold keeps. rewrite H1, H2.
        reflexivity.
      + apply filterDecision_keeps in Hd. rewrite Ha in Hd. exact Hd.
    - intros Hk. exists v. split; [exact Hv |]. split; [reflexivity |].
      right. apply filterDecision_keeps. exact Hk. }
  split.
  - intros Hc. rewrite Hmem, (keeps_membershipRule s c b Hc). reflexivity.
  - intros cached Hfull Hcached Hge. rewrite Hmem.
    unfold c, b, effectivePrefs, keeps. fold s. rewrite Hcached, Hfull. cbn [fst snd].
    rewrite Hge. simpl. discriminate.
Qed.

Lemma filter_membership_witness :
  let s' := store (run (applyFilters (chainAt 100)) sessionLoaded) in
  "A" ∈ fe_address <$> filteredValidators s'
  /\ "B" ∉ fe_address <$> filteredValidators s'.
Proof.
  intros s'.
  pose (vA := {| sm_address := "A"; sm_points := 200 |}).
  pose (vB := {| sm_address := "B"; sm_points := 100 |}).
  assert (HvA : vA ∈ allValidators (store sessionLoaded)) by (vm_compute; left).
  assert (HvB : vB ∈ allValidators (store sessionLoaded)) by (vm_compute; right; left).
  assert (HnA : is_nan (effectivePrefs (chainAt 100) (store sessionLoaded) "A").1 = false)
    by (vm_compute; reflexivity).
  assert (HnB : is_nan (effectivePrefs (chainAt 100) (store sessionLoaded) "B").1 = false)
    by (vm_compute; reflexivity).
  assert (HrA : membershipRule (store sessionLoaded)
                  (effectivePrefs (chainAt 100) (store sessionLoaded) "A").1
                  (effectivePrefs (chainAt 100) (store sessionLoaded) "A").2 = true)
    by (vm_compute; reflexivity).
  assert (HrB : membershipRule (store sessionLoaded)
                  (effectivePrefs (chainAt 100) (store sessionLoaded) "B").1
                  (effectivePrefs (chainAt 100) (store sessionLoaded) "B").2 = false)
    by (vm_compute; reflexivity).
  pose proof (proj1 (filter_membership (chainAt 100) sessionLoaded vA HvA) HnA) as HA.
  pose proof (proj1 (filter_membership (chainAt 100) sessionLoaded vB HvB) HnB) as HB.
  exact (conj (proj2 HA HrA)
           (fun Hin => Bool.diff_false_true (eq_trans (eq_sym HrB) (proj1 HB Hin)))).
Defined.

Lemma page_is_hydrated_slice_witness :
  let s2 := store (run (fetchValidatorPage greedyChain 3)
                     (run (applyFilters greedyChain) twentyFive)) in
  totalPages s2 = 3%float /\ length (displayedValidators s2) = 5%nat.
Proof.
  intros s2.
  assert (H25 : Z.of_nat (length (filteredValidators s2)) = 25)
    by (vm_compute; reflexivity).
  assert (H10 : pageSize s2 = 10) by (vm_compute; reflexivity).
  pose proof (proj2 (proj2 (proj2 (proj2
                (page_is_hydrated_slice greedyChain twentyFive 3)))) H25 H10) as H.
  exact (conj (proj1 H) (proj2 H eq_refl)).
Defined.

(** ** Failures of single items *)

(** C9, as stated, fails: the default record of page hydration carries the
    APY of the projection, which is not 0 once the bulk job has run; and
    the projection has no entry for an address that the filters exclude,
    here B, in the batch in which the fetch for C failed. *)
Lemma default_record_keeps_projection_APY :
  (validatorCache (store sessionWithAPY) !! "C" = None
   /\ Validators (chainAt 100) "C" = Rejected "timeout"
   /\ (fun v => (address v, commission v, totalStake v, lastEraAPY v))
        <$> displayedValidators (store sessionPageTwo)
      = [("C", 0%float, 0, 32872.5%float)])
  /\ (sm_address <$> allValidators (store sessionLoaded) = ["A"; "B"; "C"]
      /\ fe_address <$> filteredValidators (store sessionLoaded) = ["A"; "C"]).
Proof. vm_compute. repeat split; reflexivity. Qed.

Lemma error_after_page api page w :
  error (store (run (fetchValidatorPage api page) w)) = error (store w).
Proof.
  unfold run. destruct (filteredValidators (store w)) as [| e l] eqn:E.
  - rewrite fetchValidatorPage_skip by exact E. reflexivity.
  - destruct (fetchValidatorPage_run api page w) as (vs & w1 & _ & [[c Hc] _] & ->).
    { rewrite E. discriminate. }
    simpl. rewrite Hc. reflexivity.
Qed.

Lemma hydrate_failure api s e w msg :
  validatorCache s !! fe_address e = None ->
  Validators api (fe_address e) = Rejected msg ->
  exists w',
    hydrate api s e w
    = (Returned (defaultValidator (fe_address e) (fe_lastEraAPY e) (fe_points e)), w')
    /\ only_cache w w'.
Proof.
  intros Hc Hr. unfold hydrate, try_catch, bind, await, set, ret. rewrite Hc, Hr.
  eexists. split; [reflexivity |]. split; [| reflexivity].
  eexists. reflexivity.
Qed.

(** C9, amended: when the fetch of the preferences of one element fails,
    the session error is not set and the other elements are still treated.
    In page hydration the element resolves to the default record:
    commission 0, total and own stake 0, no per-era data, average APYs 0,
    and as [lastEraAPY] the APY of the projection entry (0 when it has
    none); the page has one record per element of its slice.  In the filter
    pass the element stays in the projection; elements that the filters
    exclude have no entry. *)
Theorem item_failure_is_contained (api : Api) (w : World) :
  (forall s e msg,
     validatorCache s !! fe_address e = None ->
     Validators api (fe_address e) = Rejected msg ->
     exists w',
       hydrate api s e w
       = (Returned (defaultValidator (fe_address e) (fe_lastEraAPY e) (fe_points e)), w')
       /\ error (store w') = error (store w))
  /\ (forall a apy points,
        let v := defaultValidator a apy points in
        address v = a /\ commission v = 0%float /\ blockedNominations v = false
        /\ totalStake v = 0 /\ ownStake v = 0
        /\ lastEraAPY v = JS.or_else (default 0%float apy) 0
        /\ apyByEra (rewards v) = ∅ /\ averageAPY (rewards v) = 0%float
        /\ activeOnlyAverageAPY (rewards v) = 0%float
        /\ previousErasPoints (performance v) = ∅)
  /\ (forall page,
        error (store (run (fetchValidatorPage api page) w)) = error (store w)
        /\ (filteredValidators (store w) <> [] ->
            length (displayedValidators (store (run (fetchValidatorPage api page) w)))
            = length (pageValidators (store w) page)))
  /\ (forall v msg,
        v ∈ allValidators (store w) ->
        validatorCache (store w) !! sm_address v = None ->
        Validators api (sm_address v) = Rejected msg ->
        sm_address v ∈ fe_address <$> filteredValidators (store (run (applyFilters api) w)))
  /\ error (store (run (applyFilters api) w)) = error (store w).
Proof.
  repeat split.
  - intros s e msg Hc Hr. destruct (hydrate_failure api s e w msg Hc Hr) as (w' & Hh & Ho).
    exists w'. split; [exact Hh |]. destruct Ho as [[c Hs] _]. rewrite Hs. reflexivity.
  - apply error_after_page.
  - intros Hne. apply (page_shows_hydrated_slice api page w Hne).
  - intros v msg Hv Hc Hr. apply filtered_addresses. exists v.
    split; [exact Hv |]. split; [reflexivity |]. right.
    unfold filterDecision. rewrite Hc, Hr. eauto.
  - unfold run. destruct (applyFilters_run api w) as (w' & -> & Hs).
    simpl. rewrite Hs. reflexivity.
Qed.

Lemma item_failure_is_contained_witness :
  (exists w',
     hydrate (chainAt 100) (store sessionWithAPY)
       {| fe_address := "C"; fe_points := 100; fe_lastEraAPY := Some 32872.5%float |}
       sessionWithAPY
     = (Returned (defaultValidator "C" (Some 32872.5%float) 100), w')
     /\ error (store w') = error (store sessionWithAPY))
  /\ "C" ∈ fe_address <$> filteredValidators
                            (store (run (applyFilters (chainAt 100)) sessionWithAPY)).
Proof.
  pose proof (item_failure_is_contained (chainAt 100) sessionWithAPY) as H.
  assert (Hcache : validatorCache (store sessionWithAPY) !! "C" = None)
    by (vm_compute; reflexivity).
  assert (Hfail : Validators (chainAt 100) "C" = Rejected "timeout")
    by (vm_compute; reflexivity).
  assert (Hranked : {| sm_address := "C"; sm_points := 100 |}
                    ∈ allValidators (store sessionWithAPY))
    by (vm_compute; do 2 right; left).
  exact (conj
           (proj1 H (store sessionWithAPY)
              {| fe_address := "C"; fe_points := 100;
                 fe_lastEraAPY := Some 32872.5%float |} "timeout" Hcache Hfail)
           (proj1 (proj2 (proj2 (proj2 H)))
              {| sm_address := "C"; sm_points := 100 |} "timeout" Hranked Hcache Hfail)).
Defined.

(** ** Eras without earnings *)

Section BulkItemFacts.

Variable api : Api.




End BulkItemFacts.

(** ** Loops over batches that write local variables *)

Section LocalLoops.

Context {L A B : Type}.
Variable f : A -> Eff (L * World) B.
Variable g : L -> A -> L.
Variable R : World -> World -> Prop.
Hypothesis R_refl : forall w, R w w.
Hypothesis R_trans : forall w1 w2 w3, R w1 w2 -> R w2 w3 -> R w1 w3.

(** Every item returns, writes the locals as [g] says and moves the world
    within [R]. *)
Hypothesis f_run : forall x l w,
  exists y w', f x (l, w) = (Returned y, (g l x, w')) /\ R w w'.

Lemma Promise_all_fold xs : forall l w,
  exists ys w', Promise_all f xs (l, w) = (Returned ys, (foldl g l xs, w')) /\ R w w'.
Proof.
  induction xs as [| x xs IH]; intros l w; simpl.
  - exists [], w. split; [reflexivity | apply R_refl].
  - unfold bind, ret. destruct (f_run x l w) as (y & w1 & -> & H1).
    destruct (IH (g l x) w1) as (ys & w2 & -> & H2).
    exists (y :: ys), w2. split; [reflexivity | eauto].
Qed.

Lemma batches_fold bs : forall l w,
  exists w',
    for_each (fun b => Promise_all f b ;;; ret tt) bs (l, w)
    = (Returned tt, (foldl g l (concat bs), w')) /\ R w w'.
Proof.
  induction bs as [| b bs IH]; intros l w; simpl.
  - exists w. split; [reflexivity | apply R_refl].
  - unfold bind at 1. unfold bind at 1, ret at 1.
    destruct (Promise_all_fold b l w) as (ys & w1 & -> & H1).
    destruct (IH (foldl g l b) w1) as (w2 & -> & H2).
    exists w2. rewrite foldl_app. split; [reflexivity | eauto].
Qed.

Lemma with_locals_fold init bs w :
  exists w',
    with_locals init (for_each (fun b => Promise_all f b ;;; ret tt) bs) w
    = (Returned (tt, foldl g init (concat bs)), w') /\ R w w'.
Proof.
  unfold with_locals. destruct (batches_fold bs init w) as (w' & -> & H).
  exists w'. split; [reflexivity | exact H].
Qed.

End LocalLoops.

Lemma set_error_id s : set_error (error s) s = s.
Proof. destruct s; reflexivity. Qed.

Lemma only_error_refl w : only_error w w.
Proof.
  split; [| reflexivity]. exists (error (store w)). symmetry. apply set_error_id.
Qed.

Lemma only_error_trans w1 w2 w3 :
  only_error w1 w2 -> only_error w2 w3 -> only_error w1 w3.
Proof.
  intros [[e1 H1] T1] [[e2 H2] T2]. split; [| congruence].
  exists e2. rewrite H2, H1. reflexivity.
Qed.

Section EraItemFacts.

Variable api : Api.

Lemma apyItem_run validator a era m w :
  exists y w',
    apyItem api validator a era (m, w) = (Returned y, (storeAPY api validator a m era, w'))
    /\ only_error w w'.
Proof.
  unfold apyItem, storeAPY, apyOfEra, eraAPY_or_throw, try_catch, bind, lift, await,
    assign, set, ret, throw. cbn [fst snd].
  repeat (break_match; simpl in *; simplify_eq);
    eexists tt, _; (split; [reflexivity |]);
    first [ apply only_error_refl
          | split; [eexists; reflexivity | reflexivity]
          | split; [exists (error (store w)); symmetry; apply set_error_id
                   | reflexivity] ].
Qed.

End EraItemFacts.


Section HistoryAPYFacts.

Variable api : Api.


End HistoryAPYFacts.






(** ** The history of a validator *)

Section HistoryFacts.

Variable api : Api.

Lemma historyItem_run a era l w :
  exists y w',
    historyItem api a era (l, w) = (Returned y, (recordEra api a l era, w'))
    /\ only_error w w'.
Proof.
  unfold historyItem, recordEra, try_catch, bind, lift, await, assign, set, ret, throw.
  cbn [fst snd].
  repeat (break_match; simpl in *; simplify_eq);
    eexists tt, _; (split; [reflexivity |]);
    first [ apply only_error_refl
          | split; [eexists; reflexivity | reflexivity]
          | split; [exists (error (store w)); symmetry; apply set_error_id
                   | reflexivity] ].
Qed.

(** An era writes under its own key only. *)
Lemma recordEra_other a l era k :
  k <> era ->
  validatorPerformance (recordEra api a l era) !! k = validatorPerformance l !! k
  /\ validatorRewards (recordEra api a l era) !! k = validatorRewards l !! k
  /\ validatorCommissions (recordEra api a l era) !! k = validatorCommissions l !! k.
Proof.
  intros Hk. unfold recordEra.
  repeat (break_match; simpl in *; simplify_eq);
    repeat split; rewrite ?lookup_insert_ne by congruence; reflexivity.
Qed.

Lemma foldl_recordEra_other a eras k : forall l,
  k ∉ eras ->
  validatorPerformance (foldl (recordEra api a) l eras) !! k = validatorPerformance l !! k
  /\ validatorRewards (foldl (recordEra api a) l eras) !! k = validatorRewards l !! k
  /\ validatorCommissions (foldl (recordEra api a) l eras) !! k
     = validatorCommissions l !! k.
Proof.
  induction eras as [| era eras IH]; intros l Hk; simpl; [auto |].
  apply not_elem_of_cons in Hk as [Hne Hk].
  destruct (IH (recordEra api a l era) Hk) as (H1 & H2 & H3).
  destruct (recordEra_other a l era k Hne) as (G1 & G2 & G3).
  rewrite H1, H2, H3. auto.
Qed.

(** An era for which the chain gives points to [a] writes them. *)
Lemma recordEra_points a l era ep eraReward p :
  ErasRewardPoints api era = Resolved (Some ep) ->
  ErasValidatorReward api era = Resolved eraReward ->
  pointsIn a (ep_individual ep) = Some p ->
  validatorPerformance (recordEra api a l era) !! era = Some p.
Proof.
  intros Hep Hr Hp. unfold recordEra. rewrite Hep, Hr, Hp.
  repeat (break_match; simpl in *; simplify_eq); apply lookup_insert_eq.
Qed.

Lemma foldl_recordEra_points a eras era ep eraReward p : forall l,
  NoDup eras -> era ∈ eras ->
  ErasRewardPoints api era = Resolved (Some ep) ->
  ErasValidatorReward api era = Resolved eraReward ->
  pointsIn a (ep_individual ep) = Some p ->
  validatorPerformance (foldl (recordEra api a) l eras) !! era = Some p.
Proof.
  induction eras as [| era' eras IH]; intros l Hnd Hin Hep Hr Hp.
  - inversion Hin.
  - apply NoDup_cons in Hnd as [Hnin Hnd]. simpl.
    apply elem_of_cons in Hin as [-> | Hin].
    + destruct (foldl_recordEra_other a eras era' (recordEra api a l era') Hnin)
        as (-> & _).
      eapply recordEra_points; eassumption.
    + apply IH; assumption.
Qed.

Lemma NoDup_List_filter {A} (f : A -> bool) (l : list A) :
  NoDup l -> NoDup (List.filter f l).
Proof.
  induction 1 as [| x l Hx Hnd IH]; simpl; [constructor |].
  destruct (f x); [| exact IH].
  constructor; [| exact IH].
  intros Hin. apply Hx. apply list_elem_of_In in Hin.
  apply List.filter_In in Hin as [Hin _]. apply list_elem_of_In, Hin.
Qed.

Lemma erasToFetch_NoDup s : NoDup (erasToFetch s).
Proof.
  unfold erasToFetch. apply NoDup_List_filter.
  apply NoDup_fmap_2; [| apply NoDup_seqZ].
  intros i j Hij. lia.
Qed.

Lemma fetchHistoricalPerformance_run a forceRefresh w validator :
  a <> "" ->
  knownValidator (store w) a = Some validator ->
  refetches (store w) validator forceRefresh ->
  let fetched := fetchedHistory api a (erasToFetch (store w)) in
  exists v',
    validatorCache (store (run (fetchHistoricalPerformance api a forceRefresh) w)) !! a
    = Some v'
    /\ previousErasPoints (performance v') = validatorPerformance fetched
    /\ previousErasRewards (rewards v') = validatorRewards fetched
    /\ historicalCommission v' = validatorCommissions fetched
    /\ apyByEra (rewards v') = apyByEra (rewards validator).
Proof.
  intros Ha Hk Hre fetched.
  unfold run, fetchHistoricalPerformance, bind at 1, get. cbn [fst snd].
  rewrite bool_decide_eq_false_2 by exact Ha.
  unfold bind at 1, set at 1. unfold try_catch, bind at 1, set at 1.
  cbn [store]. unfold knownValidator in Hk. rewrite Hk.
  assert (Hskip : negb forceRefresh
                  && bool_decide (length (erasToFetch (store w))
                                  ≤ size (previousErasPoints (performance validator)))%nat
                  = false).
  { destruct Hre as [-> | Hlt]; [reflexivity |].
    rewrite bool_decide_eq_false_2 by lia. apply andb_false_r. }
  rewrite Hskip. unfold bind at 1.
  match goal with
  | |- context [with_locals ?init (for_each _ ?bs) ?w0] =>
      destruct (with_locals_fold (historyItem api a) (recordEra api a)
                  only_error only_error_refl only_error_trans
                  (historyItem_run a) init bs w0) as (w2 & -> & [[e He] _])
  end.
  rewrite batches_concat by lia. cbn [snd].
  fold (fetchedHistory api a (erasToFetch (store w))). fold fetched.
  unfold bind at 1, set at 1. unfold set. cbn [snd store].
  rewrite He.
  cbn [validatorCache set_loadingHistoricalData set_displayedValidators
         set_validatorCache set_error set_historicalEras].
  rewrite lookup_insert_eq. eexists. split; [reflexivity |].
  repeat split; reflexivity.
Qed.

End HistoryFacts.

(** C1, as stated, fails: two fetches with disjoint eras leave the eras of
    the second one only, and a fetch over fewer eras erases the others. *)
Lemma history_fetch_drops_known_eras :
  pointsOfA historyAt100 = [(98, 200); (99, 200)]
  /\ pointsOfA historyAt104 = [(102, 200); (103, 200)]
  /\ pointsOfA historyShortened = [(103, 200)].
Proof. vm_compute. repeat split; reflexivity. Qed.

(** C1, amended: a completed historical fetch for a known validator replaces
    the map fields [previousErasPoints], [previousErasRewards] and
    [historicalCommission] of the stored record by the maps built from the
    data just fetched; these have entries for the eras just requested only,
    so every other era that the record knew is erased; a requested era for
    which the chain gives points to the validator holds these points. *)
Theorem history_maps_are_replaced (api : Api) (w : World) (a : string)
    (forceRefresh : bool) (validator : Validator) :
  a <> "" ->
  knownValidator (store w) a = Some validator ->
  refetches (store w) validator forceRefresh ->
  let fetched := fetchedHistory api a (erasToFetch (store w)) in
  exists v',
    validatorCache (store (run (fetchHistoricalPerformance api a forceRefresh) w)) !! a
    = Some v'
    /\ previousErasPoints (performance v') = validatorPerformance fetched
    /\ previousErasRewards (rewards v') = validatorRewards fetched
    /\ historicalCommission v' = validatorCommissions fetched
    /\ (forall era,
          era ∉ erasToFetch (store w) ->
          previousErasPoints (performance v') !! era = None
          /\ previousErasRewards (rewards v') !! era = None
          /\ historicalCommission v' !! era = None)
    /\ (forall era ep eraReward p,
          era ∈ erasToFetch (store w) ->
          ErasRewardPoints api era = Resolved (Some ep) ->
          ErasValidatorReward api era = Resolved eraReward ->
          pointsIn a (ep_individual ep) = Some p ->
          previousErasPoints (performance v') !! era = Some p).
Proof.
  intros Ha Hk Hre fetched.
  destruct (fetchHistoricalPerformance_run api a forceRefresh w validator Ha Hk Hre)
    as (v' & Hv' & Hp & Hr & Hc & _).
  exists v'. split; [exact Hv' |]. split; [exact Hp |]. split; [exact Hr |].
  split; [exact Hc |]. split.
  - intros era Hera. rewrite Hp, Hr, Hc. unfold fetched, fetchedHistory.
    destruct (foldl_recordEra_other api a _ _
                {| validatorPerformance := ∅; validatorRewards := ∅;
                   validatorCommissions := ∅ |} Hera) as (-> & -> & ->).
    repeat split; apply lookup_empty.
  - intros era ep eraReward p Hera Hep HR Hpts. rewrite Hp.
    unfold fetched, fetchedHistory.
    eapply foldl_recordEra_points; try eassumption. apply erasToFetch_NoDup.
Qed.

Lemma history_maps_are_replaced_witness :
  previousErasPoints (performance knownA) !! 99 = Some 200
  /\ exists v',
       validatorCache
         (store (run (fetchHistoricalPerformance (chainAt 104) "A" true) refreshedAt104))
         !! "A" = Some v'
       /\ previousErasPoints (performance v') !! 99 = None.
Proof.
  split; [vm_compute; reflexivity |].
  assert (Ha : "A" <> "") by discriminate.
  assert (Hk : knownValidator (store refreshedAt104) "A" = Some knownA)
    by (vm_compute; reflexivity).
  assert (Hre : refetches (store refreshedAt104) knownA true) by (left; reflexivity).
  assert (Hera : 99 ∉ erasToFetch (store refreshedAt104))
    by (apply (bool_decide_unpack _); vm_compute; exact I).
  pose proof (history_maps_are_replaced (chainAt 104) refreshedAt104 "A" true knownA
                Ha Hk Hre) as (v' & Hv' & _ & _ & _ & Hout & _).
  exists v'. split; [exact Hv' | exact (proj1 (Hout 99 Hera))].
Defined.

(** ** The arithmetic of the APY *)

(** C2, as stated, fails: for an era reward of 10^12, 41 points of 80,
    the computed [validatorReward] is 512499999999, one less than
    [floor(R * p / P) = 512500000000], because the ratio [p / P] is taken
    in floating point. *)
Lemma validatorReward_is_not_exact :
  validatorReward 1000000000000 41 80 = Some 512499999999
  /\ 1000000000000 * 41 / 80 = 512500000000.
Proof. vm_compute. split; reflexivity. Qed.

Section FormulaFacts.

Variable api : Api.

Lemma lastEraItem_formula s eraReward totalEraPoints individualPoints v lw prefs ov apy :
  validatorCache s !! sm_address v = None ->
  ErasValidatorPrefs api (lastEra s) (sm_address v) = Resolved prefs ->
  ErasStakersOverview api (lastEra s) (sm_address v) = Resolved ov ->
  from_option so_total 0 ov <> 0 ->
  0 < default 0 (individualPoints !! sm_address v) ->
  eraAPY eraReward (default 0 (individualPoints !! sm_address v)) totalEraPoints
    (commission_of_prefs prefs) (from_option so_total 0 ov) = Some apy ->
  exists lw',
    lastEraItem api s eraReward totalEraPoints individualPoints v lw
    = (Returned {| res_address := sm_address v; res_lastEraAPY := apy;
                   res_validatorInstance := None |}, lw').
Proof.
  intros Hc Hp Ho Hs Hpts Hapy.
  unfold lastEraItem, eraAPY_or_throw, try_catch, bind, lift, await, assign, ret.
  rewrite Hc, Hp, Ho. destruct lw as [l w]. cbn [fst snd].
  rewrite (proj2 (Z.eqb_neq _ _) Hs), (proj2 (Z.ltb_lt _ _) Hpts), Hapy.
  eexists. reflexivity.
Qed.

Lemma apyOfEra_formula validator a era eraReward ep p ov :
  ErasValidatorReward api era = Resolved (Some eraReward) -> eraReward <> 0 ->
  ErasRewardPoints api era = Resolved (Some ep) ->
  pointsIn a (ep_individual ep) = Some p -> p <> 0 -> ep_total ep <> 0 ->
  ErasStakersOverview api era a = Resolved (Some ov) -> so_total ov <> 0 ->
  apyOfEra api validator a era
  = eraAPY eraReward p (ep_total ep)
      (JS.or_else (default 0%float (historicalCommission validator !! era))
         (commission validator))
      (so_total ov).
Proof.
  intros HR HR0 Hep Hp Hp0 HP0 Hov Hov0. unfold apyOfEra.
  rewrite HR, Hep, Hp, Hov. cbn [default from_option id].
  rewrite (proj2 (Z.eqb_neq _ _) HR0), (proj2 (Z.eqb_neq _ _) Hp0),
    (proj2 (Z.eqb_neq _ _) HP0), (proj2 (Z.eqb_neq _ _) Hov0).
  reflexivity.
Qed.

End FormulaFacts.

Lemma nominator_share_bounds (reward part : Z) :
  0 <= reward -> 0 <= part <= 1000000000 ->
  Z.quot (reward * (1000000000 - part)) 1000000000
  = reward * (1000000000 - part) / 1000000000
  /\ 0 <= reward * (1000000000 - part) / 1000000000 <= reward.
Proof.
  intros Hr Hp. split.
  - apply Z.quot_div_nonneg; nia.
  - split.
    + apply Z.div_pos; nia.
    + apply Z.div_le_upper_bound; nia.
Qed.

(** C2, amended: [validatorReward] is the floor of the double-precision
    product [Number(R) * (p / P)], converted to an integer; it is not always
    [floor(R * p / P)].  [nominatorReward] is obtained from it in integer
    arithmetic, as [validatorReward * (10^9 - commissionPart) / 10^9] with
    [commissionPart = floor(commission * 10^9)]; for a commission part
    within [0 .. 10^9] it is the exact floor and at most the validator
    reward.  The APY is [Number(nominatorReward) / Number(stake) * 365.25 *
    100] in floating point.  Both the bulk job and the per-era computation
    apply this formula. *)
Theorem apy_formula_arithmetic (api : Api) (eraReward validatorPoints totalEraPoints : Z)
    (c : float) (stake : Z) :
  validatorReward eraReward validatorPoints totalEraPoints
  = JS.BigInt (JS.Math_floor (JS.Number eraReward
                              * (JS.Number validatorPoints / JS.Number totalEraPoints)))
  /\ (forall reward part,
        commissionPart c = Some part ->
        nominatorReward reward c
        = Some (Z.quot (reward * (1000000000 - part)) 1000000000)
        /\ (0 <= reward -> 0 <= part <= 1000000000 ->
            nominatorReward reward c = Some (reward * (1000000000 - part) / 1000000000)
            /\ 0 <= reward * (1000000000 - part) / 1000000000 <= reward))
  /\ (forall reward nominator,
        validatorReward eraReward validatorPoints totalEraPoints = Some reward ->
        nominatorReward reward c = Some nominator ->
        eraAPY eraReward validatorPoints totalEraPoints c stake
        = Some (JS.Number nominator / JS.Number stake * 365.25 * 100)%float)
  /\ (forall s individualPoints v lw prefs ov apy,
        validatorCache s !! sm_address v = None ->
        ErasValidatorPrefs api (lastEra s) (sm_address v) = Resolved prefs ->
        ErasStakersOverview api (lastEra s) (sm_address v) = Resolved ov ->
        from_option so_total 0 ov = stake -> stake <> 0 ->
        default 0 (individualPoints !! sm_address v) = validatorPoints ->
        0 < validatorPoints ->
        commission_of_prefs prefs = c ->
        eraAPY eraReward validatorPoints totalEraPoints c stake = Some apy ->
        exists lw',
          lastEraItem api s eraReward totalEraPoints individualPoints v lw
          = (Returned {| res_address := sm_address v; res_lastEraAPY := apy;
                         res_validatorInstance := None |}, lw'))
  /\ (forall validator a era ep ov,
        ErasValidatorReward api era = Resolved (Some eraReward) -> eraReward <> 0 ->
        ErasRewardPoints api era = Resolved (Some ep) ->
        pointsIn a (ep_individual ep) = Some validatorPoints -> validatorPoints <> 0 ->
        ep_total ep = totalEraPoints -> totalEraPoints <> 0 ->
        ErasStakersOverview api era a = Resolved (Some ov) ->
        so_total ov = stake -> stake <> 0 ->
        JS.or_else (default 0%float (historicalCommission validator !! era))
          (commission validator) = c ->
        apyOfEra api validator a era
        = eraAPY eraReward validatorPoints totalEraPoints c stake).
Proof.
  split; [reflexivity |]. split; [| split; [| split]].
  - intros reward part Hpart. unfold nominatorReward. rewrite Hpart. simpl.
    split; [reflexivity |]. intros Hr Hp.
    destruct (nominator_share_bounds reward part Hr Hp) as [-> Hb]. auto.
  - intros reward nominator Hv Hn. unfold eraAPY. rewrite Hv. simpl. rewrite Hn.
    reflexivity.
  - intros s individualPoints v lw prefs ov apy Hc Hp Ho <- Hs <- Hpts <- Hapy.
    eapply lastEraItem_formula; eassumption.
  - intros validator a era ep ov HR HR0 Hep Hp Hp0 <- HP0 Hov <- Hov0 <-.
    eapply apyOfEra_formula; eassumption.
Qed.

(** The end-to-end scenario of the specification: reward 10^12, 100 points
    of 400, commission 10%, stake 5 * 10^11. *)
Lemma apy_formula_arithmetic_witness :
  let c := commission_of_prefs (Some {| vp_commission := 100000000; vp_blocked := false |}) in
  commissionPart c = Some 100000000
  /\ validatorReward 1000000000000 100 400 = Some 250000000000
  /\ nominatorReward 250000000000 c = Some 225000000000
  /\ eraAPY 1000000000000 100 400 c 500000000000 = Some 16436.25%float.
Proof.
  intros c.
  assert (Hpart : commissionPart c = Some 100000000) by (vm_compute; reflexivity).
  assert (Hreward : validatorReward 1000000000000 100 400 = Some 250000000000)
    by (vm_compute; reflexivity).
  pose proof (apy_formula_arithmetic greedyChain 1000000000000 100 400 c 500000000000)
    as (_ & Hnom & Hapy & _).
  destruct (Hnom 250000000000 100000000 Hpart) as [Hn _].
  change (Z.quot (250000000000 * (1000000000 - 100000000)) 1000000000)
    with 225000000000 in Hn.
  assert (Hval : Some (JS.Number 225000000000 / JS.Number 500000000000 * 365.25 * 100)%float
                 = Some 16436.25%float) by (vm_compute; reflexivity).
  exact (conj Hpart (conj Hreward (conj Hn
           (eq_trans (Hapy 250000000000 225000000000 Hreward Hn) Hval)))).
Defined.

(** ** Averages *)

(** C4: the code does not do it.  With the history of A over the eras 101,
    100 and 99, where A has no points in era 101, [apyByEra] has no entry
    for era 101 and [averageAPY] is the mean of the two other eras,
    49308.75, the same as [activeOnlyAverageAPY]; the mean over the three
    requested eras, with 0 for era 101, is 32872.5. *)
Lemma averageAPY_leaves_inactive_eras_out :
  historicalEras (store sessionHistory) = [101; 100; 99]
  /\ earnsNothing (chainAt 102) "A" 101
  /\ (fun v => (entriesOf (apyByEra (rewards v)),
                averageAPY (rewards v), activeOnlyAverageAPY (rewards v)))
       <$> validatorCache (store sessionHistory) !! "A"
     = Some ([(99, 65745%float); (100, 32872.5%float)], 49308.75%float, 49308.75%float)
  /\ mean [65745%float; 32872.5%float; 0%float] = 32872.5%float.
Proof.
  split; [vm_compute; reflexivity |]. split.
  { left. eexists. split; [reflexivity | left; vm_compute; reflexivity]. }
  split; vm_compute; reflexivity.
Qed.

(** ** Single flight *)

Section SchedulingFacts.

Variable api : Api.

(** The scheduling site of [applyFilters] does check the flag: while a bulk
    run is in flight it sets no timer. *)
Lemma applyFilters_sets_no_timer_in_flight w :
  calculatingLastEraAPY (store w) = true ->
  timers (run (applyFilters api) w) = timers w.
Proof.
  intros Hflag.
  unfold run, applyFilters, bind at 1, get. simpl.
  unfold bind at 1, set at 1. unfold try_catch. unfold bind at 1.
  destruct (includeFullCommission (store w) && includeBlockedNominations (store w)).
  - unfold ret at 1. unfold bind at 1, set at 1. unfold bind at 1, get. simpl.
    rewrite Hflag, andb_false_r. reflexivity.
  - rewrite (for_batches_Promise_all (filterItem api (store w)) (omap id))
      by (reflexivity || apply omap_app).
    rewrite batches_concat by lia.
    unfold bind at 1.
    destruct (filterItems_run api (store w) (allValidators (store w))
                {| store := set_loadingPage true (store w); queries := queries w;
                   timers := timers w |}) as (w1 & -> & Hs1 & Ht1).
    unfold ret at 1.
    unfold bind at 1, set at 1. unfold bind at 1, get. simpl.
    simpl in Hs1, Ht1. rewrite Hs1. simpl. rewrite Hflag, andb_false_r. simpl.
    exact Ht1.
Qed.

End SchedulingFacts.

(** Queries are only ever added. *)
Lemma grows_refl w : grows w w.
Proof. exists []. reflexivity. Qed.

Lemma grows_trans w1 w2 w3 : grows w1 w2 -> grows w2 w3 -> grows w1 w3.
Proof.
  intros [q1 H1] [q2 H2]. exists (q2 ++ q1). rewrite H2, H1. apply app_assoc.
Qed.

Lemma grows_locals_refl {L} (lw : L * World) : grows_locals lw lw.
Proof. apply grows_refl. Qed.

Lemma grows_locals_trans {L} (lw1 lw2 lw3 : L * World) :
  grows_locals lw1 lw2 -> grows_locals lw2 lw3 -> grows_locals lw1 lw3.
Proof. apply grows_trans. Qed.

(** Closes [grows] on a world whose queries are a few conses on the old ones. *)
Ltac grows_by_cons :=
  first [ exists []; reflexivity
        | eexists [_]; reflexivity
        | eexists [_; _]; reflexivity
        | eexists [_; _; _]; reflexivity ].

Section QueryFacts.

Variable api : Api.

Lemma hydrate_grows s e : respects grows (hydrate api s e).
Proof.
  intros w.
  unfold hydrate, try_catch, bind, await, fetchStake, currentEraShare, get, set,
    ret, throw, try_catch, bind.
  repeat (break_match; simpl in *; simplify_eq); simpl; grows_by_cons.
Qed.

Lemma fetchValidatorPage_grows page : respects grows (fetchValidatorPage api page).
Proof.
  unfold fetchValidatorPage.
  apply respects_bind; [exact grows_trans | apply safe_respects, safe_get, grows_refl |].
  intros s. destruct (bool_decide _); [apply respects_ret, grows_refl |].
  apply respects_bind; [exact grows_trans | intros w; grows_by_cons |]. intros _.
  apply respects_try_catch; [exact grows_trans | | intros msg w; grows_by_cons].
  apply respects_bind; [exact grows_trans | | intros vs w; grows_by_cons].
  apply respects_for_batches; [exact grows_refl | exact grows_trans |]. intros b.
  apply respects_Promise_all; [exact grows_refl | exact grows_trans |].
  intros e. apply hydrate_grows.
Qed.

Lemma lastEraItem_grows s eraReward totalEraPoints individualPoints v :
  respects grows_locals (lastEraItem api s eraReward totalEraPoints individualPoints v).
Proof.
  intros [l w].
  unfold lastEraItem, eraAPY_or_throw, try_catch, bind, lift, await, assign, ret, throw,
    grows_locals.
  cbn [fst snd].
  repeat (break_match; simpl in *; simplify_eq); simpl; grows_by_cons.
Qed.

Lemma recordResult_grows r : respects grows_locals (recordResult r).
Proof.
  intros [l w]. unfold recordResult, bind, assign, ret, grows_locals.
  destruct (res_validatorInstance r); simpl; grows_by_cons.
Qed.

Lemma lastEraBatch_grows s eraReward totalEraPoints individualPoints batch :
  respects grows_locals (lastEraBatch api s eraReward totalEraPoints individualPoints batch).
Proof.
  unfold lastEraBatch.
  apply respects_bind; [exact grows_locals_trans | |].
  { apply respects_Promise_all;
      [exact grows_locals_refl | exact grows_locals_trans |].
    intros v. apply lastEraItem_grows. }
  intros rs. apply respects_bind; [exact grows_locals_trans | |].
  { apply respects_for_each; [exact grows_locals_refl | exact grows_locals_trans |].
    apply recordResult_grows. }
  intros _. apply respects_bind; [exact grows_locals_trans | |].
  { intros [l w]. unfold locals, grows_locals. simpl. grows_by_cons. }
  intros l. destruct (bool_decide _).
  - intros [l' w]. unfold lift, set, grows_locals. simpl. grows_by_cons.
  - apply respects_ret, grows_locals_refl.
Qed.

Lemma with_locals_grows {L A} (init : L) (m : Eff (L * World) A) :
  respects grows_locals m -> respects grows (with_locals init m).
Proof.
  intros Hm w. unfold with_locals. specialize (Hm (init, w)).
  destruct (m (init, w)) as [[a | msg] [l w']]; exact Hm.
Qed.

(** The bulk job never looks at [calculatingLastEraAPY]: whatever the
    store, it issues the query for the reward of the last era. *)
Lemma bulk_job_always_queries w :
  exists qs,
    queries (run (calculateLastEraAPYForAllValidators api) w)
    = qs ++ QErasValidatorReward (lastEra (store w)) :: queries w.
Proof.
  unfold run, calculateLastEraAPYForAllValidators, bind at 1, get. cbn [fst snd].
  unfold bind at 1, set at 1. unfold try_catch, bind at 1, await at 1.
  cbn [store queries timers].
  match goal with
  | |- context [match ?r with Resolved a => Returned a | Rejected m => Thrown m end] =>
      destruct r as [msg | eraReward]
  end.
  - unfold set. simpl. exists []. reflexivity.
  - match goal with
    | |- exists qs, queries (let (o, w') := ?k ?w1 in _).2 = _ =>
        assert (Hk : respects grows k); [| specialize (Hk w1);
          destruct (k w1) as [[[] | msg] w2]; simpl in *]
    end.
    + destruct (default 0 eraReward =? 0).
      { intros w0. unfold set. simpl. grows_by_cons. }
      apply respects_bind; [exact grows_trans | intros w0; unfold await; simpl;
                                                 grows_by_cons |].
      intros [ep |]; [| intros w0; unfold set; simpl; grows_by_cons].
      destruct (ep_total ep =? 0); [intros w0; unfold set; simpl; grows_by_cons |].
      apply respects_bind; [exact grows_trans | |].
      { apply with_locals_grows.
        apply respects_for_each; [exact grows_locals_refl | exact grows_locals_trans |].
        intros b. apply lastEraBatch_grows. }
      intros r. apply respects_bind; [exact grows_trans | |].
      { intros w0. unfold set. simpl. grows_by_cons. }
      intros _. apply fetchValidatorPage_grows.
    + destruct Hk as [qs Hq]. exists qs. exact Hq.
    + destruct Hk as [qs Hq]. exists qs. unfold set. simpl. exact Hq.
Qed.

End QueryFacts.

(** C5: the code does not do it.  After the ranking is loaded two timers
    for the bulk job are pending (only the one of [applyFilters] was guarded
    by the flag); started while [calculatingLastEraAPY] is set, the job runs
    in full: it issues its 8 queries, rewrites the projection and sets
    [lastEraAPYCalculated]. *)
Lemma second_bulk_run_is_not_skipped :
  timers sessionLoaded
  = [(RunPrefetchValidators, 2000); (RunCalculateLastEraAPYForAllValidators, 1000);
     (RunCalculateLastEraAPYForAllValidators, 500)]
  /\ calculatingLastEraAPY (store inFlight) = true
  /\ let w' := run (calculateLastEraAPYForAllValidators (chainAt 100)) inFlight in
     take 8 (queries w')
     = [QErasStakersOverview 99 "C"; QErasValidatorPrefs 99 "C";
        QErasStakersOverview 99 "B"; QErasValidatorPrefs 99 "B";
        QErasStakersOverview 99 "A"; QErasValidatorPrefs 99 "A";
        QErasRewardPoints 99; QErasValidatorReward 99]
     /\ drop 8 (queries w') = queries inFlight
     /\ fe_lastEraAPY <$> filteredValidators (store inFlight)
        = [Some 0%float; Some 0%float]
     /\ fe_lastEraAPY <$> filteredValidators (store w')
        = [Some 65745%float; Some 32872.5%float]
     /\ lastEraAPYCalculated (store inFlight) = false
     /\ lastEraAPYCalculated (store w') = true
     /\ calculatingLastEraAPY (store w') = false.
Proof. vm_compute. repeat split; reflexivity. Qed.

(** * The rest of the code *)

(** ** The page row *)

Lemma pages_sort_insert_perm x l : Pagination.sort_insert x l ≡ₚ x :: l.
Proof.
  induction l as [| y l IH]; simpl; [reflexivity |].
  destruct (0 <? x - y); [| reflexivity].
  rewrite IH. apply Permutation_swap.
Qed.

Lemma pages_sortNumbers_perm l : Pagination.sortNumbers l ≡ₚ l.
Proof.
  induction l as [| x l IH]; simpl; [reflexivity |].
  rewrite pages_sort_insert_perm, IH. reflexivity.
Qed.

Lemma pages_sort_insert_sorted x l :
  StronglySorted Z.le l -> StronglySorted Z.le (Pagination.sort_insert x l).
Proof.
  induction l as [| y l IH]; intros Hs; simpl.
  - repeat constructor.
  - apply StronglySorted_inv in Hs as [Hs Hy].
    destruct (Z.ltb_spec 0 (x - y)).
    + constructor; [auto |].
      rewrite pages_sort_insert_perm. constructor; [lia | exact Hy].
    + constructor; [constructor; assumption |].
      constructor; [lia |]. eapply Forall_impl; [exact Hy |]. simpl. lia.
Qed.

Lemma pages_sortNumbers_sorted l : StronglySorted Z.le (Pagination.sortNumbers l).
Proof.
  induction l as [| x l IH]; simpl; [constructor |].
  apply pages_sort_insert_sorted, IH.
Qed.

Lemma pages_distinct_from_spec pages : forall seen p,
  p ∈ Pagination.distinct_from seen pages <-> p ∈ pages /\ p ∉ seen.
Proof.
  induction pages as [| q pages IH]; intros seen p; simpl.
  - rewrite elem_of_nil. tauto.
  - destruct (bool_decide_reflect (q ∈ seen)) as [Hq | Hq].
    + rewrite IH, elem_of_cons. split; [tauto |].
      intros [[-> | Hp] Hn]; [contradiction | tauto].
    + rewrite !elem_of_cons, IH, not_elem_of_cons.
      destruct (decide (p = q)) as [-> | Hne]; tauto.
Qed.

Lemma pages_distinct_from_NoDup pages : forall seen,
  NoDup (Pagination.distinct_from seen pages).
Proof.
  induction pages as [| q pages IH]; intros seen; simpl; [constructor |].
  destruct (bool_decide_reflect (q ∈ seen)); [apply IH |].
  constructor; [| apply IH].
  rewrite pages_distinct_from_spec, not_elem_of_cons. tauto.
Qed.

Lemma pages_distinct_from_length pages : forall seen,
  (length (Pagination.distinct_from seen pages) <= length pages)%nat.
Proof.
  induction pages as [| q pages IH]; intros seen; simpl; [lia |].
  destruct (bool_decide (q ∈ seen)); simpl.
  - specialize (IH seen). lia.
  - specialize (IH (q :: seen)). lia.
Qed.

Lemma sorted_NoDup_ascending (l : list Z) :
  StronglySorted Z.le l -> NoDup l -> StronglySorted Z.lt l.
Proof.
  induction 1 as [| x l Hs IH Hx]; intros Hnd; [constructor |].
  apply NoDup_cons in Hnd as [Hnin Hnd].
  constructor; [auto |].
  rewrite Forall_forall in Hx |- *. intros y Hy.
  specialize (Hx y Hy). assert (x <> y) by (intros ->; contradiction). lia.
Qed.

Lemma seqZ_ascending m n : StronglySorted Z.lt (seqZ m n).
Proof.
  destruct (Z.le_gt_cases n 0) as [Hn | Hn].
  - rewrite seqZ_nil by lia. constructor.
  - revert m. pattern n. apply natlike_ind; [| | lia].
    + intros m. rewrite seqZ_nil by lia. constructor.
    + intros k Hk IH m. rewrite seqZ_cons by lia.
      replace (Z.pred (Z.succ k)) with k by lia.
      constructor; [apply IH |].
      rewrite Forall_forall. intros y Hy.
      apply elem_of_seqZ in Hy. lia.
Qed.

Lemma pages_small_all c t :
  t <= 5 -> Pagination.getPageNumbers c t = seqZ 1 t.
Proof.
  intros Ht. unfold Pagination.getPageNumbers, Pagination.visiblePages.
  destruct (Z.leb_spec t 5); [| lia].
  change (seqZ 1 t) with (seqZ (1 + 0) t). rewrite <- fmap_add_seqZ.
  apply list_fmap_ext. intros; lia.
Qed.

(** X1: whatever the current page and the number of pages, the page row
    lists its pages in strictly ascending order (so no page twice) and has
    at most five of them. *)
Theorem page_row_ascending_at_most_five (currentPage totalPages : Z) :
  StronglySorted Z.lt (Pagination.getPageNumbers currentPage totalPages)
  /\ (length (Pagination.getPageNumbers currentPage totalPages) <= 5)%nat.
Proof.
  destruct (Z.le_gt_cases totalPages 5) as [Ht | Ht].
  - rewrite pages_small_all by exact Ht. split; [apply seqZ_ascending |].
    rewrite length_seqZ. lia.
  - unfold Pagination.getPageNumbers, Pagination.visiblePages, Pagination.pushed,
      Pagination.distinct.
    destruct (Z.leb_spec totalPages 5); [lia |]. split.
    + apply sorted_NoDup_ascending; [apply pages_sortNumbers_sorted |].
      rewrite pages_sortNumbers_perm. apply pages_distinct_from_NoDup.
    + rewrite pages_sortNumbers_perm.
      etrans; [apply pages_distinct_from_length |].
      rewrite !length_app, !length_seqZ. simpl. lia.
Qed.

(** X2: with the current page among the pages, the row lists exactly the
    pages of [1 .. totalPages] that are the first page, the last page, the
    current page or one of its two neighbours; with at most five pages it
    lists them all. *)
Theorem page_row_lists (currentPage totalPages p : Z) :
  1 <= currentPage <= totalPages ->
  p ∈ Pagination.getPageNumbers currentPage totalPages
  <-> 1 <= p <= totalPages
      /\ (totalPages <= 5 \/ p = 1 \/ p = totalPages
          \/ currentPage - 1 <= p <= currentPage + 1).
Proof.
  intros Hc. destruct (Z.le_gt_cases totalPages 5) as [Ht | Ht].
  - rewrite pages_small_all by exact Ht. rewrite elem_of_seqZ. lia.
  - unfold Pagination.getPageNumbers, Pagination.visiblePages, Pagination.pushed,
      Pagination.distinct.
    destruct (Z.leb_spec totalPages 5); [lia |].
    rewrite pages_sortNumbers_perm, pages_distinct_from_spec.
    rewrite !elem_of_app, !elem_of_cons, !elem_of_seqZ, !elem_of_nil. lia.
Qed.

Lemma page_row_lists_witness :
  1 <= 7 <= 20
  /\ (6 ∈ Pagination.getPageNumbers 7 20
      <-> 1 <= 6 <= 20 /\ (20 <= 5 \/ 6 = 1 \/ 6 = 20 \/ 7 - 1 <= 6 <= 7 + 1)).
Proof.
  assert (H : 1 <= 7 <= 20) by lia.
  exact (conj H (page_row_lists 7 20 6 H)).
Defined.

(** ** The range above the table *)

(** X3: after a page of the projection is loaded, with a positive page size
    and a page that exists, the range shown above the table ends at
    [min(page * pageSize, totalValidators)] and counts exactly the rows of
    the page ([totalValidators] being the length of the projection, as
    [applyFilters] leaves it). *)
Theorem table_range_counts_rows (api : Api) (w : World) (page : Z) :
  totalValidators (store w) = Z.of_nat (length (filteredValidators (store w))) ->
  0 < pageSize (store w) ->
  1 <= page ->
  (page - 1) * pageSize (store w) < totalValidators (store w) ->
  let s2 := store (run (fetchValidatorPage api page) w) in
  let first := ValidatorTable.startIdx (currentPage s2) (pageSize s2) in
  let last :=
    ValidatorTable.endIdx (currentPage s2) (pageSize s2) (totalValidators s2)
      (displayedValidators s2) in
  first = (page - 1) * pageSize (store w) + 1
  /\ last = Z.min (page * pageSize (store w)) (totalValidators (store w))
  /\ Z.of_nat (length (displayedValidators s2)) = last - first + 1.
Proof.
  intros Htot Hps Hpage Hin s2.
  assert (Hne : filteredValidators (store w) <> []).
  { intros Hnil. rewrite Hnil in Htot. simpl in Htot. nia. }
  destruct (page_shows_hydrated_slice api page w Hne) as (H1 & H2 & H3 & H4 & _).
  fold s2 in H1, H2, H3, H4.
  assert (Hcur : currentPage s2 = page).
  { unfold s2. rewrite currentPage_after_page.
    destruct (filteredValidators (store w)); [congruence | reflexivity]. }
  assert (Hlen : Z.of_nat (length (displayedValidators s2))
                 = Z.min (page * pageSize (store w)) (totalValidators (store w))
                   - (page - 1) * pageSize (store w)).
  { rewrite H4. unfold pageValidators. rewrite slice_length by nia.
    rewrite <- Htot. nia. }
  cbv zeta. unfold ValidatorTable.endIdx, ValidatorTable.startIdx.
  rewrite Hcur, H1, H2, Hlen. lia.
Qed.

Lemma table_range_counts_rows_witness :
  let w := run (applyFilters greedyChain) twentyFive in
  let s2 := store (run (fetchValidatorPage greedyChain 3) w) in
  ValidatorTable.startIdx (currentPage s2) (pageSize s2) = 21
  /\ ValidatorTable.endIdx (currentPage s2) (pageSize s2) (totalValidators s2)
       (displayedValidators s2) = 25
  /\ length (displayedValidators s2) = 5%nat.
Proof.
  intros w s2.
  assert (H1 : totalValidators (store w) = Z.of_nat (length (filteredValidators (store w))))
    by (vm_compute; reflexivity).
  assert (H2 : 0 < pageSize (store w)) by (vm_compute; reflexivity).
  assert (H3 : 1 <= 3) by lia.
  assert (H4 : (3 - 1) * pageSize (store w) < totalValidators (store w))
    by (vm_compute; reflexivity).
  pose proof (table_range_counts_rows greedyChain w 3 H1 H2 H3 H4) as H.
  cbv zeta in H. fold s2 in H.
  assert (E1 : (3 - 1) * pageSize (store w) + 1 = 21) by (vm_compute; reflexivity).
  assert (E2 : Z.min (3 * pageSize (store w)) (totalValidators (store w)) = 25)
    by (vm_compute; reflexivity).
  pose proof (eq_trans (proj1 H) E1) as F1.
  pose proof (eq_trans (proj1 (proj2 H)) E2) as F2.
  pose proof (proj2 (proj2 H)) as F3.
  rewrite F1, F2 in F3.
  exact (conj F1 (conj F2 (Nat2Z.inj _ 5%nat F3))).
Defined.

(** ** The background prefetch *)

Section PrefetchFacts.

Variable api : Api.

Lemma prefetchItem_run s e w :
  exists v w',
    prefetchItem api s e w = (Returned (fe_address e, v), w')
    /\ same_store w w' /\ address v = fe_address e.
Proof.
  unfold prefetchItem, try_catch, bind, await, fetchStake, currentEraShare, get,
    ret, throw, try_catch, bind, same_store.
  repeat (break_match; simpl in *; simplify_eq);
    eexists _, _; (split; [reflexivity |]); repeat split; reflexivity.
Qed.

Lemma prefetchItems_run s l : forall w,
  exists rs w',
    Promise_all (prefetchItem api s) l w = (Returned rs, w')
    /\ same_store w w'
    /\ rs.*1 = fe_address <$> l
    /\ Forall (fun r => address r.2 = r.1) rs.
Proof.
  induction l as [| e l IH]; intros w; simpl.
  - exists [], w. split; [reflexivity |]. split; [apply same_store_refl |].
    split; [reflexivity | constructor].
  - unfold bind, ret.
    destruct (prefetchItem_run s e w) as (v & w1 & -> & H1 & Hv).
    destruct (IH w1) as (rs & w2 & -> & H2 & Hrs & Hall).
    exists ((fe_address e, v) :: rs), w2.
    split; [reflexivity |]. split; [eapply same_store_trans; eauto |].
    split; [csimpl; rewrite Hrs; reflexivity |].
    constructor; [exact Hv | exact Hall].
Qed.

End PrefetchFacts.

Lemma addCacheEntries_other rs : forall m a,
  a ∉ rs.*1 -> addCacheEntries m rs !! a = m !! a.
Proof.
  induction rs as [| r rs IH]; intros m a Ha; [reflexivity |].
  csimpl in Ha. rewrite not_elem_of_cons in Ha. destruct Ha as [Hne Hnin].
  unfold addCacheEntries in *. simpl. rewrite IH by exact Hnin.
  apply lookup_insert_ne. congruence.
Qed.

Lemma addCacheEntries_is_Some rs : forall m a,
  is_Some (addCacheEntries m rs !! a) <-> is_Some (m !! a) \/ a ∈ rs.*1.
Proof.
  induction rs as [| r rs IH]; intros m a.
  - simpl. rewrite elem_of_nil. tauto.
  - unfold addCacheEntries in *. simpl. rewrite IH. csimpl.
    rewrite elem_of_cons, lookup_insert_is_Some.
    destruct (decide (r.1 = a)) as [-> | Hne]; [tauto |].
    assert (a <> r.1) by congruence. tauto.
Qed.

Lemma addCacheEntries_keyed rs : forall m,
  (forall a v, m !! a = Some v -> address v = a) ->
  Forall (fun r => address r.2 = r.1) rs ->
  forall a v, addCacheEntries m rs !! a = Some v -> address v = a.
Proof.
  induction rs as [| r rs IH]; intros m Hm Hrs; [exact Hm |].
  apply Forall_cons in Hrs as [Hr Hrs].
  unfold addCacheEntries in *. simpl. apply IH; [| exact Hrs].
  intros a v. rewrite lookup_insert_Some. intros [[<- <-] | [_ H]]; eauto.
Qed.

Lemma slice_subseteq {A} (l : list A) (s e : Z) : JS.slice l s e ⊆ l.
Proof.
  unfold JS.slice. etrans; [apply subseteq_take | apply subseteq_drop].
Qed.

Lemma slice_nil {A} (s e : Z) : JS.slice ([] : list A) s e = [].
Proof. unfold JS.slice. rewrite drop_nil, take_nil. reflexivity. Qed.

Lemma slice_prefix {A} (l : list A) (e : Z) :
  0 <= e -> JS.slice l 0 e = take (Z.to_nat e) l.
Proof.
  intros He. unfold JS.slice. change (0 <? 0) with false. cbv iota.
  destruct (Z.ltb_spec e 0); [lia |].
  rewrite (Z.min_l 0) by lia. rewrite drop_0, Z.sub_0_r.
  destruct (Z.le_gt_cases e (Z.of_nat (length l))).
  - rewrite Z.min_l by lia. reflexivity.
  - rewrite Z.min_r by lia. rewrite Nat2Z.id, !take_ge by lia. reflexivity.
Qed.

Lemma toPrefetch_uncached s e :
  e ∈ toPrefetch s ->
  e ∈ filteredValidators s /\ validatorCache s !! fe_address e = None.
Proof.
  intros He. apply slice_subseteq in He.
  apply list_elem_of_In, List.filter_In in He as [He Hc].
  split; [apply list_elem_of_In, He | exact (bool_decide_eq_true_1 _ Hc)].
Qed.

Section PrefetchRun.

Variable api : Api.

Lemma prefetchBatches_run s bs : forall acc w,
  (forall a, is_Some (acc !! a) -> is_Some (validatorCache (store w) !! a)) ->
  (forall a v, acc !! a = Some v -> address v = a) ->
  exists c' w',
    prefetchBatches api s acc bs w = (Returned tt, w')
    /\ store w' = set_validatorCache c' (store w)
    /\ timers w' = timers w
    /\ (forall a, is_Some (c' !! a)
                  <-> is_Some (validatorCache (store w) !! a)
                      \/ a ∈ fe_address <$> concat bs)
    /\ (forall a, acc !! a = None -> a ∉ fe_address <$> concat bs ->
                  c' !! a = validatorCache (store w) !! a)
    /\ (forall a v, c' !! a = Some v ->
                    validatorCache (store w) !! a = Some v \/ address v = a).
Proof.
  induction bs as [| batch bs IH]; intros acc w Hdom Hkey.
  - exists (validatorCache (store w)), w. simpl.
    split; [reflexivity |]. split; [symmetry; apply set_validatorCache_id |].
    split; [reflexivity |]. split; [| split].
    + intros a. rewrite elem_of_nil. tauto.
    + reflexivity.
    + auto.
  - cbn [prefetchBatches]. unfold bind at 1.
    destruct (prefetchItems_run api s batch w) as (rs & w1 & -> & [Hs1 Ht1] & Hrs & Hall).
    unfold bind at 1, set at 1.
    set (acc1 := addCacheEntries acc rs).
    set (w2 := {| store := set_validatorCache (acc1 ∪ validatorCache (store w1)) (store w1);
                  queries := queries w1; timers := timers w1 |}).
    assert (Hc2 : validatorCache (store w2) = acc1 ∪ validatorCache (store w))
      by (unfold w2; simpl; rewrite Hs1; reflexivity).
    destruct (IH acc1 w2) as (c' & w' & Hrun & Hst & Ht & Hsome & Hother & Hkeyed).
    { intros a Ha. rewrite Hc2. apply lookup_union_is_Some. auto. }
    { apply addCacheEntries_keyed; assumption. }
    exists c', w'. split; [exact Hrun |].
    split; [rewrite Hst; unfold w2; simpl; rewrite Hs1; reflexivity |].
    split; [rewrite Ht; exact Ht1 |].
    assert (Hacc1 : forall a, is_Some (acc1 !! a) <-> is_Some (acc !! a) \/ a ∈ fe_address <$> batch).
    { intros a. unfold acc1. rewrite addCacheEntries_is_Some, Hrs. reflexivity. }
    split; [| split].
    + intros a. rewrite Hsome, Hc2, lookup_union_is_Some, Hacc1.
      cbn [concat]. rewrite fmap_app, elem_of_app.
      specialize (Hdom a). tauto.
    + intros a Ha Hnin. cbn [concat] in Hnin. rewrite fmap_app, not_elem_of_app in Hnin.
      destruct Hnin as [Hn1 Hn2].
      assert (Hnone : acc1 !! a = None).
      { apply eq_None_not_Some. rewrite Hacc1. intros [[v Hv] | Hin]; [congruence | tauto]. }
      rewrite Hother by assumption.
      rewrite Hc2. apply lookup_union_r, Hnone.
    + intros a v Hv. destruct (Hkeyed a v Hv) as [Hv2 | Hv2]; [| auto].
      rewrite Hc2 in Hv2. apply lookup_union_Some_raw in Hv2 as [Hv2 | [_ Hv2]]; [| auto].
      right. eapply (addCacheEntries_keyed rs acc); eassumption.
Qed.

(** What [prefetchValidators] does to the world. *)
Lemma prefetchValidators_run w :
  exists c' w',
    prefetchValidators api w = (Returned tt, w')
    /\ store w' = set_validatorCache c' (store w)
    /\ timers w' = timers w
    /\ (forall a, is_Some (c' !! a)
                  <-> is_Some (validatorCache (store w) !! a)
                      \/ a ∈ fe_address <$> toPrefetch (store w))
    /\ (forall a, a ∉ fe_address <$> toPrefetch (store w) ->
                  c' !! a = validatorCache (store w) !! a)
    /\ (forall a v, c' !! a = Some v ->
                    validatorCache (store w) !! a = Some v \/ address v = a).
Proof.
  assert (Hskip : toPrefetch (store w) = [] ->
            exists c' w',
              (Returned tt, w) = (Returned tt, w')
              /\ store w' = set_validatorCache c' (store w)
              /\ timers w' = timers w
              /\ (forall a, is_Some (c' !! a)
                            <-> is_Some (validatorCache (store w) !! a)
                                \/ a ∈ fe_address <$> toPrefetch (store w))
              /\ (forall a, a ∉ fe_address <$> toPrefetch (store w) ->
                            c' !! a = validatorCache (store w) !! a)
              /\ (forall a v, c' !! a = Some v ->
                              validatorCache (store w) !! a = Some v \/ address v = a)).
  { intros Hnil. exists (validatorCache (store w)), w.
    split; [reflexivity |]. split; [symmetry; apply set_validatorCache_id |].
    split; [reflexivity |]. rewrite Hnil. split; [| split]; auto.
    intros a. rewrite fmap_nil, elem_of_nil. tauto. }
  unfold prefetchValidators, bind at 1, get. cbn [fst snd].
  destruct (bool_decide_reflect (length (filteredValidators (store w)) = 0%nat)) as [Hf | Hf].
  { apply Hskip. unfold toPrefetch.
    destruct (filteredValidators (store w)); [apply slice_nil | discriminate]. }
  unfold try_catch.
  destruct (bool_decide_reflect (length (toPrefetch (store w)) = 0%nat)) as [Hp | Hp].
  { apply Hskip. destruct (toPrefetch (store w)); [reflexivity | discriminate]. }
  destruct (prefetchBatches_run (store w) (JS.batches 10 (toPrefetch (store w))) ∅ w)
    as (c' & w' & Hrun & Hst & Ht & Hsome & Hother & Hkeyed).
  { intros a [v Hv]. rewrite lookup_empty in Hv. discriminate. }
  { intros a v Hv. rewrite lookup_empty in Hv. discriminate. }
  rewrite batches_concat in Hsome, Hother by lia.
  exists c', w'. rewrite Hrun.
  split; [reflexivity |]. split; [exact Hst |]. split; [exact Ht |].
  split; [exact Hsome |]. split; [| exact Hkeyed].
  intros a Ha. apply Hother; [apply lookup_empty | exact Ha].
Qed.

End PrefetchRun.

(** X4: when every element of the projection is cached (in particular when
    the projection is empty), [prefetchValidators] does nothing: no query,
    no write, no timer. *)
Theorem prefetch_nothing_to_do (api : Api) (w : World) :
  (forall e, e ∈ filteredValidators (store w) ->
             is_Some (validatorCache (store w) !! fe_address e)) ->
  prefetchValidators api w = (Returned tt, w).
Proof.
  intros Hall.
  assert (Hnil : toPrefetch (store w) = []).
  { destruct (toPrefetch (store w)) as [| e l] eqn:E; [reflexivity |].
    destruct (toPrefetch_uncached (store w) e) as [He Hc]; [rewrite E; left |].
    destruct (Hall e He) as [v Hv]. congruence. }
  unfold prefetchValidators, bind, get, try_catch. cbn [fst snd].
  rewrite Hnil. simpl. destruct (bool_decide _); reflexivity.
Qed.

Lemma prefetch_nothing_to_do_witness :
  fe_address <$> filteredValidators (store sessionPageTwo) = ["A"; "C"]
  /\ prefetchValidators (chainAt 100) sessionPageTwo = (Returned tt, sessionPageTwo).
Proof.
  assert (H : forall e, e ∈ filteredValidators (store sessionPageTwo) ->
                        is_Some (validatorCache (store sessionPageTwo) !! fe_address e)).
  { intros e He.
    assert (Hf : filteredValidators (store sessionPageTwo)
                 = [ {| fe_address := "A"; fe_points := 200;
                        fe_lastEraAPY := Some 65745%float |};
                     {| fe_address := "C"; fe_points := 100;
                        fe_lastEraAPY := Some 32872.5%float |} ])
      by (vm_compute; reflexivity).
    rewrite Hf in He.
    assert (HA : is_Some (validatorCache (store sessionPageTwo) !! "A"))
      by (vm_compute; eexists; reflexivity).
    assert (HC : is_Some (validatorCache (store sessionPageTwo) !! "C"))
      by (vm_compute; eexists; reflexivity).
    apply elem_of_cons in He as [-> | He]; [exact HA |].
    apply elem_of_cons in He as [-> | He]; [exact HC |].
    apply elem_of_nil in He. contradiction. }
  assert (Hf : fe_address <$> filteredValidators (store sessionPageTwo) = ["A"; "C"])
    by (vm_compute; reflexivity).
  exact (conj Hf (prefetch_nothing_to_do (chainAt 100) sessionPageTwo H)).
Defined.

(** X5: [prefetchValidators] always returns; it writes to the cache only
    (no other field of the store, no timer), never replaces or removes a
    record that was cached, and every record it adds is stored under its
    own address. *)
Theorem prefetch_keeps_cached_records (api : Api) (w : World) :
  exists w',
    prefetchValidators api w = (Returned tt, w')
    /\ store w' = set_validatorCache (validatorCache (store w')) (store w)
    /\ timers w' = timers w
    /\ (forall a v, validatorCache (store w) !! a = Some v ->
                    validatorCache (store w') !! a = Some v)
    /\ (forall a v, validatorCache (store w') !! a = Some v ->
                    validatorCache (store w) !! a = None -> address v = a).
Proof.
  destruct (prefetchValidators_run api w)
    as (c' & w' & Hrun & Hst & Ht & Hsome & Hother & Hkeyed).
  assert (Hc : validatorCache (store w') = c') by (rewrite Hst; reflexivity).
  exists w'. split; [exact Hrun |]. split; [rewrite Hc; exact Hst |].
  split; [exact Ht |]. rewrite Hc. split.
  - intros a v Hv. rewrite Hother; [exact Hv |].
    intros Hin. apply list_elem_of_fmap in Hin as (e & -> & He).
    apply toPrefetch_uncached in He as [_ Hnone]. congruence.
  - intros a v Hv Hnone. destruct (Hkeyed a v Hv); [congruence | assumption].
Qed.

(** X6: after [prefetchValidators] an address is cached exactly when it was
    cached before or belongs to the elements to prefetch; these are elements
    of the projection that were not cached, at most [prefetchSize] of them
    (the first ones). *)
Theorem prefetch_caches_first_uncached (api : Api) (w : World) (a : string) :
  0 <= prefetchSize (store w) ->
  (is_Some (validatorCache (store (run (prefetchValidators api) w)) !! a)
   <-> is_Some (validatorCache (store w) !! a)
       \/ a ∈ fe_address <$> toPrefetch (store w))
  /\ toPrefetch (store w)
     = take (Z.to_nat (prefetchSize (store w)))
         (List.filter (fun v => bool_decide (validatorCache (store w) !! fe_address v = None))
            (filteredValidators (store w)))
  /\ Z.of_nat (length (toPrefetch (store w))) <= prefetchSize (store w).
Proof.
  intros Hsize.
  destruct (prefetchValidators_run api w)
    as (c' & w' & Hrun & Hst & Ht & Hsome & Hother & Hkeyed).
  unfold run. rewrite Hrun. cbn [snd]. rewrite Hst. split; [apply Hsome |].
  assert (Hslice : toPrefetch (store w)
     = take (Z.to_nat (prefetchSize (store w)))
         (List.filter (fun v => bool_decide (validatorCache (store w) !! fe_address v = None))
            (filteredValidators (store w)))).
  { unfold toPrefetch. apply slice_prefix, Hsize. }
  split; [exact Hslice |].
  rewrite Hslice, length_take. lia.
Qed.

Lemma prefetch_caches_first_uncached_witness :
  validatorCache (store sessionLoaded) !! "C" = None
  /\ is_Some (validatorCache
                (store (run (prefetchValidators (chainAt 100)) sessionLoaded)) !! "C").
Proof.
  assert (H0 : 0 <= prefetchSize (store sessionLoaded)) by (vm_compute; discriminate).
  pose proof (prefetch_caches_first_uncached (chainAt 100) sessionLoaded "C" H0) as H.
  assert (Hin : "C" ∈ fe_address <$> toPrefetch (store sessionLoaded)).
  { assert (E : fe_address <$> toPrefetch (store sessionLoaded) = ["C"])
      by (vm_compute; reflexivity).
    rewrite E. left. }
  assert (Hn : validatorCache (store sessionLoaded) !! "C" = None)
    by (vm_compute; reflexivity).
  exact (conj Hn (proj2 (proj1 H) (or_intror Hin))).
Defined.

(** ** What the actions leave alone *)

Lemma unchanged_refl {A} (f : ValidatorState -> A) w : unchanged f w w.
Proof. reflexivity. Qed.

Lemma unchanged_trans {A} (f : ValidatorState -> A) w1 w2 w3 :
  unchanged f w1 w2 -> unchanged f w2 w3 -> unchanged f w1 w3.
Proof. unfold unchanged. congruence. Qed.

Lemma on_world_refl {L} (R : World -> World -> Prop) :
  (forall w, R w w) -> forall lw : L * World, on_world R lw lw.
Proof. intros H lw. apply H. Qed.

Lemma on_world_trans {L} (R : World -> World -> Prop) :
  (forall w1 w2 w3, R w1 w2 -> R w2 w3 -> R w1 w3) ->
  forall lw1 lw2 lw3 : L * World,
    on_world R lw1 lw2 -> on_world R lw2 lw3 -> on_world R lw1 lw3.
Proof. intros H lw1 lw2 lw3. apply H. Qed.

Lemma respects_lift {L A} (R : World -> World -> Prop) (m : Async A) :
  respects R m -> respects (on_world (L := L) R) (lift m).
Proof.
  intros Hm [l w]. unfold lift, on_world. cbn [fst snd]. specialize (Hm w).
  destruct (m w) as [r w']. exact Hm.
Qed.

Lemma respects_assign {L} (R : World -> World -> Prop) (g : L -> L) :
  (forall lw : L * World, on_world R lw lw) -> respects (on_world R) (assign g).
Proof. intros H [l w]. apply (H (l, w)). Qed.

Lemma respects_locals {L} (R : L * World -> L * World -> Prop) :
  (forall lw, R lw lw) -> respects R locals.
Proof. intros H lw. apply H. Qed.

Lemma respects_with_locals {L A} (R : World -> World -> Prop) (init : L)
    (m : Eff (L * World) A) :
  respects (on_world R) m -> respects R (with_locals init m).
Proof.
  intros Hm w. unfold with_locals. specialize (Hm (init, w)).
  destruct (m (init, w)) as [[a | msg] [l w']]; exact Hm.
Qed.

Lemma respects_get (R : World -> World -> Prop) :
  (forall w, R w w) -> respects R get.
Proof. intros H w. apply H. Qed.

(** A step through the structure of a piece of code, for a relation with
    the given proofs of reflexivity and transitivity; [leaf] closes the
    writes. *)
Ltac through refl trans leaf :=
  let is_refl := first [ exact refl | apply on_world_refl; exact refl ] in
  let is_trans := first [ exact trans | apply on_world_trans; exact trans ] in
  repeat first
    [ solve [leaf]
    | match goal with
      | |- respects _ (ret _) => apply respects_ret; is_refl
      | |- respects _ (throw _) => apply respects_throw; is_refl
      | |- respects _ get => apply respects_get; is_refl
      | |- respects _ (@locals _) => apply respects_locals; is_refl
      | |- respects _ (assign _) => apply respects_assign; is_refl
      | |- respects _ (bind _ _) => apply respects_bind; [is_trans | | intros ?]
      | |- respects _ (try_catch _ _) =>
          apply respects_try_catch; [is_trans | | intros ?]
      | |- respects _ (for_each _ _) =>
          apply respects_for_each; [is_refl | is_trans | intros ?]
      | |- respects _ (Promise_all _ _) =>
          apply respects_Promise_all; [is_refl | is_trans | intros ?]
      | |- respects _ (for_batches _ _) =>
          apply respects_for_batches; [is_refl | is_trans | intros ?]
      | |- respects _ (with_locals _ _) => apply respects_with_locals
      | |- respects _ (lift _) => apply respects_lift
      | |- respects _ (match ?x with _ => _ end) => destruct x eqn:?
      end
    | progress cbv zeta ].

(** The goal is about one of the primitives that move the world. *)
Ltac is_primitive :=
  lazymatch goal with
  | |- respects _ (set _) => idtac
  | |- respects _ (await _ _) => idtac
  | |- respects _ (setTimeout _ _) => idtac
  end.

(** The goal is about a call of an action or of an item (or about a loop
    with local variables), not about a piece of code to go through. *)
Ltac is_call :=
  lazymatch goal with
  | |- respects _ ?m =>
      lazymatch m with
      | bind _ _ => fail
      | try_catch _ _ => fail
      | ret _ => fail
      | throw _ => fail
      | get => fail
      | set _ => fail
      | await _ _ => fail
      | setTimeout _ _ => fail
      | for_each _ _ => fail
      | Promise_all _ _ => fail
      | for_batches _ _ => fail
      | lift _ => fail
      | assign _ => fail
      | @locals _ => fail
      | match _ with _ => _ end => fail
      | _ => idtac
      end
  end.

(** A write to fields that the observation does not read. *)
Ltac unread :=
  is_primitive;
  intros ?w; unfold unchanged, set, await, setTimeout; cbn [snd store];
  unfold ignores in *;
  repeat match goal with
         | H : forall v st, ?f (_ v st) = ?f st |- _ => rewrite H
         end;
  reflexivity.

Section Unchanged.

Context {A : Type} (f : ValidatorState -> A).
Variable api : Api.

Lemma only_cache_unchanged w w' :
  ignores f set_validatorCache -> only_cache w w' -> unchanged f w w'.
Proof. intros H [[c Hc] _]. unfold unchanged. rewrite Hc. apply H. Qed.

Lemma same_store_unchanged w w' : same_store w w' -> unchanged f w w'.
Proof. intros [Hs _]. unfold unchanged. rewrite Hs. reflexivity. Qed.

Lemma only_error_unchanged w w' :
  ignores f set_error -> only_error w w' -> unchanged f w w'.
Proof. intros H [[c Hc] _]. unfold unchanged. rewrite Hc. apply H. Qed.

Lemma fetchValidatorPage_unchanged page :
  ignoresPage f -> respects (unchanged f) (fetchValidatorPage api page).
Proof.
  intros (H1 & H2 & H3 & H4) w. unfold unchanged.
  destruct (filteredValidators (store w)) as [| e l] eqn:E.
  - rewrite fetchValidatorPage_skip by exact E. reflexivity.
  - destruct (fetchValidatorPage_run api page w) as (vs & w1 & _ & [[c Hc] _] & ->).
    { rewrite E. discriminate. }
    cbn [snd store]. rewrite Hc. unfold loadingWorld. cbn [store].
    rewrite H2, H4, H3, H1, H2. reflexivity.
Qed.

Lemma applyFilters_unchanged :
  ignoresFilters f -> respects (unchanged f) (applyFilters api).
Proof.
  intros (H1 & H2 & H3) w. unfold unchanged.
  destruct (applyFilters_run api w) as (w' & -> & Hs). cbn [snd].
  rewrite Hs, H1, H2, H3, H1. reflexivity.
Qed.

Lemma setPageSize_unchanged size :
  ignoresPage f -> ignores f set_pageSize ->
  respects (unchanged f) (setPageSize api size).
Proof.
  intros Hp Hs. unfold setPageSize.
  apply respects_bind; [exact (unchanged_trans f) | unread | intros _].
  apply fetchValidatorPage_unchanged, Hp.
Qed.

Lemma setFilterOptions_unchanged options :
  ignoresPage f -> ignoresFilters f ->
  ignores f set_includeFullCommission -> ignores f set_includeBlockedNominations ->
  respects (unchanged f) (setFilterOptions api options).
Proof.
  intros Hp Hf H1 H2. unfold setFilterOptions.
  apply respects_bind; [exact (unchanged_trans f) | | intros s].
  { apply respects_get, unchanged_refl. }
  apply respects_bind; [exact (unchanged_trans f) | unread | intros _].
  apply respects_bind; [exact (unchanged_trans f) | | intros _].
  { apply applyFilters_unchanged, Hf. }
  apply fetchValidatorPage_unchanged, Hp.
Qed.

Lemma prefetchValidators_unchanged :
  ignores f set_validatorCache -> respects (unchanged f) (prefetchValidators api).
Proof.
  intros H w. unfold unchanged.
  destruct (prefetchValidators_run api w) as (c' & w' & -> & Hst & _).
  cbn [snd]. rewrite Hst. apply H.
Qed.

Lemma lastEraItem_same_store s eraReward totalEraPoints individualPoints v :
  respects (on_world same_store)
    (lastEraItem api s eraReward totalEraPoints individualPoints v).
Proof.
  intros [l w].
  unfold lastEraItem, eraAPY_or_throw, try_catch, bind, lift, await, assign, ret, throw,
    on_world, same_store.
  cbn [fst snd].
  repeat (break_match; simpl in *; simplify_eq); simpl; split; reflexivity.
Qed.

Lemma recordResult_same_store r : respects (on_world same_store) (recordResult r).
Proof.
  intros [l w]. unfold recordResult, bind, assign, ret, on_world, same_store.
  destruct (res_validatorInstance r); simpl; split; reflexivity.
Qed.

Lemma lastEraBatch_unchanged s eraReward totalEraPoints individualPoints batch :
  ignores f set_validatorCache ->
  respects (on_world (unchanged f))
    (lastEraBatch api s eraReward totalEraPoints individualPoints batch).
Proof.
  intros Hc. unfold lastEraBatch.
  through (unchanged_refl f) (unchanged_trans f) ltac:(fail).
  - eapply respects_weaken; [| apply lastEraItem_same_store].
    intros lw lw'. apply same_store_unchanged.
  - eapply respects_weaken; [| apply recordResult_same_store].
    intros lw lw'. apply same_store_unchanged.
  - unread.
Qed.

Lemma calculateLastEraAPYForAllValidators_unchanged :
  ignoresBulk f -> ignoresPage f ->
  respects (unchanged f) (calculateLastEraAPYForAllValidators api).
Proof.
  intros (H1 & H2 & H3 & H4 & H5 & H6) Hp.
  unfold calculateLastEraAPYForAllValidators.
  through (unchanged_refl f) (unchanged_trans f) ltac:(unread).
  - apply lastEraBatch_unchanged, H3.
  - apply fetchValidatorPage_unchanged, Hp.
Qed.

Lemma fetchAllValidators_unchanged :
  ignoresRanking f -> ignoresFilters f -> ignoresPage f ->
  respects (unchanged f) (fetchAllValidators api).
Proof.
  intros (H1 & H2 & H3 & H4 & H5 & H6 & H7 & H8) Hf Hp.
  unfold fetchAllValidators.
  through (unchanged_refl f) (unchanged_trans f) ltac:(unread).
  - apply applyFilters_unchanged, Hf.
  - apply fetchValidatorPage_unchanged, Hp.
Qed.

End Unchanged.

Section UnchangedHistory.

Context {A : Type} (f : ValidatorState -> A).
Variable api : Api.

Lemma historyItem_unchanged a era :
  ignores f set_error -> respects (on_world (unchanged f)) (historyItem api a era).
Proof.
  intros H [l w]. destruct (historyItem_run api a era l w) as (y & w' & -> & He).
  apply only_error_unchanged; assumption.
Qed.

Lemma apyItem_unchanged validator a era :
  ignores f set_error ->
  respects (on_world (unchanged f)) (apyItem api validator a era).
Proof.
  intros H [l w]. destruct (apyItem_run api validator a era l w) as (y & w' & -> & He).
  apply only_error_unchanged; assumption.
Qed.

Lemma fetchHistoricalPerformance_unchanged a forceRefresh :
  ignoresHistory f ->
  respects (unchanged f) (fetchHistoricalPerformance api a forceRefresh).
Proof.
  intros (H1 & H2 & H3 & H4 & H5 & H6). unfold fetchHistoricalPerformance.
  through (unchanged_refl f) (unchanged_trans f) ltac:(unread).
  apply historyItem_unchanged, H6.
Qed.

Lemma calculateAverages_unchanged a :
  ignores f set_validatorCache -> ignores f set_displayedValidators ->
  respects (unchanged f) (calculateAverages a).
Proof.
  intros H1 H2. unfold calculateAverages.
  through (unchanged_refl f) (unchanged_trans f) ltac:(unread).
Qed.

Lemma calculateValidatorAPY_writes a :
  ignores f set_loadingAPY -> ignores f set_validatorCache ->
  ignores f set_displayedValidators -> ignores f set_error ->
  respects (unchanged f) (calculateValidatorAPY api a).
Proof.
  intros H3 H4 H5 H6. unfold calculateValidatorAPY.
  through (unchanged_refl f) (unchanged_trans f) ltac:(unread).
  - apply apyItem_unchanged, H6.
  - apply calculateAverages_unchanged; assumption.
Qed.

Lemma calculateValidatorAPY_unchanged a :
  ignoresHistory f -> respects (unchanged f) (calculateValidatorAPY api a).
Proof.
  intros (H1 & H2 & H3 & H4 & H5 & H6). apply calculateValidatorAPY_writes; assumption.
Qed.

Lemma setHistoryLength_unchanged len :
  ignoresHistory f -> ignores f set_historyLength ->
  respects (unchanged f) (setHistoryLength api len).
Proof.
  intros Hh Hl. unfold setHistoryLength.
  through (unchanged_refl f) (unchanged_trans f) ltac:(unread).
  - apply fetchHistoricalPerformance_unchanged, Hh.
  - apply calculateValidatorAPY_unchanged, Hh.
Qed.

Lemma setSelectedHistoricalValidator_unchanged a :
  ignoresHistory f -> ignores f set_selectedHistoricalValidator ->
  respects (unchanged f) (setSelectedHistoricalValidator api a).
Proof.
  intros Hh Hl. unfold setSelectedHistoricalValidator.
  through (unchanged_refl f) (unchanged_trans f) ltac:(unread).
  - apply fetchHistoricalPerformance_unchanged, Hh.
  - apply calculateValidatorAPY_unchanged, Hh.
Qed.

End UnchangedHistory.

(** X7: a page load, a change of the page size and the background prefetch
    write only the page fields ([currentPage], [loadingPage],
    [validatorCache], [displayedValidators], and [pageSize] for
    [setPageSize]): every observation of the store that reads none of them
    has the same value before and after.  So they never change the ranking,
    the projection, its count, the filters or the session error. *)
Theorem page_actions_write_page_fields {A} (f : ValidatorState -> A) (api : Api)
    (w : World) :
  ignoresPage f ->
  (forall page, f (store (run (fetchValidatorPage api page) w)) = f (store w))
  /\ f (store (run (prefetchValidators api) w)) = f (store w)
  /\ (ignores f set_pageSize ->
      forall size, f (store (run (setPageSize api size) w)) = f (store w)).
Proof.
  intros Hp. split; [| split].
  - intros page. apply (fetchValidatorPage_unchanged f api page Hp w).
  - apply (prefetchValidators_unchanged f api (proj1 (proj2 (proj2 Hp))) w).
  - intros Hs size. apply (setPageSize_unchanged f api size Hp Hs w).
Qed.

Lemma page_actions_write_page_fields_witness :
  let f := fun s => (allValidators s, filteredValidators s, totalValidators s,
                     includeFullCommission s, includeBlockedNominations s, error s) in
  f (store (run (fetchValidatorPage (chainAt 100) 2) sessionWithAPY))
  = f (store sessionWithAPY).
Proof.
  intros f.
  assert (H : ignoresPage f) by (repeat split).
  exact (proj1 (page_actions_write_page_fields f (chainAt 100) sessionWithAPY H) 2).
Defined.

(** X8: rebuilding the projection writes only [filteredValidators],
    [totalValidators] and [loadingPage]; [setFilterOptions] writes the two
    filter flags and the page fields besides.  Every observation of the
    store that reads none of these fields has the same value before and
    after: the ranking, the cache (for [applyFilters]), the page size, the
    era data and the session error are never changed. *)
Theorem filter_actions_write_projection_fields {A} (f : ValidatorState -> A) (api : Api)
    (w : World) :
  ignoresFilters f ->
  f (store (run (applyFilters api) w)) = f (store w)
  /\ (ignoresPage f -> ignores f set_includeFullCommission ->
      ignores f set_includeBlockedNominations ->
      forall options, f (store (run (setFilterOptions api options) w)) = f (store w)).
Proof.
  intros Hf. split.
  - apply (applyFilters_unchanged f api Hf w).
  - intros Hp H1 H2 options.
    apply (setFilterOptions_unchanged f api options Hp Hf H1 H2 w).
Qed.

Lemma filter_actions_write_projection_fields_witness :
  let f := fun s => (allValidators s, validatorCache s, displayedValidators s,
                     currentPage s, pageSize s, error s) in
  f (store (run (applyFilters (chainAt 100)) sessionWithAPY)) = f (store sessionWithAPY).
Proof.
  intros f.
  assert (H : ignoresFilters f) by (repeat split).
  exact (proj1 (filter_actions_write_projection_fields f (chainAt 100) sessionWithAPY H)).
Defined.

(** X9: the bulk job writes only its two flags, the cache, the projection,
    the page and the session error (and, through the page load that ends
    it, the page fields); loading the ranking writes only [loading],
    [error], the ranking, the era data, the projection fields and the page
    fields.  Every observation that reads none of these fields has the same
    value before and after: neither of them changes the page size, the
    filters, the selected validator or the history length, and loading the
    ranking anew leaves [lastEraAPYCalculated] as it was. *)
Theorem background_actions_write_their_fields {A} (f : ValidatorState -> A) (api : Api)
    (w : World) :
  ignoresPage f ->
  (ignoresBulk f ->
   f (store (run (calculateLastEraAPYForAllValidators api) w)) = f (store w))
  /\ (ignoresRanking f -> ignoresFilters f ->
      f (store (run (fetchAllValidators api) w)) = f (store w)).
Proof.
  intros Hp. split.
  - intros Hb. apply (calculateLastEraAPYForAllValidators_unchanged f api Hb Hp w).
  - intros Hr Hf. apply (fetchAllValidators_unchanged f api Hr Hf Hp w).
Qed.

Lemma background_actions_write_their_fields_witness :
  let f := fun s => (pageSize s, includeFullCommission s, includeBlockedNominations s,
                     selectedHistoricalValidator s, historyLength s,
                     lastEraAPYCalculated s) in
  lastEraAPYCalculated (store sessionPageTwo) = true
  /\ f (store (run (fetchAllValidators (chainAt 102)) sessionPageTwo))
     = f (store sessionPageTwo).
Proof.
  intros f.
  assert (Hp : ignoresPage f) by (repeat split).
  assert (Hr : ignoresRanking f) by (repeat split).
  assert (Hf : ignoresFilters f) by (repeat split).
  assert (E : lastEraAPYCalculated (store sessionPageTwo) = true)
    by (vm_compute; reflexivity).
  exact (conj E (proj2 (background_actions_write_their_fields f (chainAt 102)
                          sessionPageTwo Hp) Hr Hf)).
Defined.

(** X10: fetching the history of a validator, computing its per-era APY and
    its averages write only [loadingHistoricalData], [historicalEras],
    [loadingAPY], [validatorCache], [displayedValidators] and [error];
    selecting a validator writes [selectedHistoricalValidator] besides, and
    changing the history length [historyLength].  Every observation of the
    store that reads none of these fields has the same value before and
    after: the ranking, the projection, the page number and size and the
    filters are never changed by the history view. *)
Theorem history_actions_write_history_fields {A} (f : ValidatorState -> A) (api : Api)
    (w : World) :
  ignoresHistory f ->
  (forall a forceRefresh,
     f (store (run (fetchHistoricalPerformance api a forceRefresh) w)) = f (store w))
  /\ (forall a, f (store (run (calculateValidatorAPY api a) w)) = f (store w))
  /\ (forall a, f (store (run (calculateAverages a) w)) = f (store w))
  /\ (ignores f set_selectedHistoricalValidator ->
      forall a, f (store (run (setSelectedHistoricalValidator api a) w)) = f (store w))
  /\ (ignores f set_historyLength ->
      forall len, f (store (run (setHistoryLength api len) w)) = f (store w)).
Proof.
  intros Hh. split; [| split; [| split; [| split]]].
  - intros a forceRefresh.
    apply (fetchHistoricalPerformance_unchanged f api a forceRefresh Hh w).
  - intros a. apply (calculateValidatorAPY_unchanged f api a Hh w).
  - intros a. destruct Hh as (_ & _ & _ & H4 & H5 & _).
    apply (calculateAverages_unchanged f a H4 H5 w).
  - intros Hs a. apply (setSelectedHistoricalValidator_unchanged f api a Hh Hs w).
  - intros Hl len. apply (setHistoryLength_unchanged f api len Hh Hl w).
Qed.

Lemma history_actions_write_history_fields_witness :
  let f := fun s => (allValidators s, filteredValidators s, totalValidators s,
                     currentPage s, pageSize s, includeFullCommission s,
                     includeBlockedNominations s) in
  f (store (run (setSelectedHistoricalValidator (chainAt 100) (Some "A")) sessionPageTwo))
  = f (store sessionPageTwo).
Proof.
  intros f.
  assert (Hh : ignoresHistory f) by (repeat split).
  assert (Hs : ignores f set_selectedHistoricalValidator) by (intros v st; reflexivity).
  exact (proj1 (proj2 (proj2 (proj2
           (history_actions_write_history_fields f (chainAt 100) sessionPageTwo Hh))))
           Hs (Some "A")).
Defined.

(** ** Invariants of a session *)

Lemma preserved_refl Q w : preserved Q w w.
Proof. intros H. exact H. Qed.

Lemma preserved_trans Q w1 w2 w3 :
  preserved Q w1 w2 -> preserved Q w2 w3 -> preserved Q w1 w3.
Proof. unfold preserved. auto. Qed.

Lemma session_snoc steps api act :
  session (steps ++ [(api, act)]) = run (perform api act) (session steps).
Proof. unfold session. rewrite foldl_app. reflexivity. Qed.

(** What holds of the initial store and is preserved by every action holds
    all along a session. *)
Lemma session_invariant (Q : ValidatorState -> Prop) :
  Q initialState ->
  (forall api act, respects (preserved Q) (perform api act)) ->
  forall steps, Q (store (session steps)).
Proof.
  intros Hinit Hstep steps. induction steps as [| [api act] steps IH] using rev_ind.
  - exact Hinit.
  - rewrite session_snoc. apply (Hstep api act (session steps)), IH.
Qed.

Lemma unchanged_counts w w' :
  unchanged projectionFields w w' -> preserved countsProjection w w'.
Proof.
  unfold unchanged, projectionFields, preserved, countsProjection.
  intros [= H1 H2] H. rewrite H1, H2. exact H.
Qed.

(** A write that keeps the length of the projection and its count. *)
Ltac counts_leaf :=
  is_primitive;
  intros ?w; unfold preserved, countsProjection, set, await, setTimeout;
  simpl; intros ?H; exact H.

Section Counts.

Variable api : Api.

Lemma applyFilters_counts : respects (preserved countsProjection) (applyFilters api).
Proof.
  intros w _. pose proof (totalValidators_after_filters api w) as H. exact H.
Qed.

Lemma fetchValidatorPage_counts page :
  respects (preserved countsProjection) (fetchValidatorPage api page).
Proof.
  intros w. apply unchanged_counts.
  apply (fetchValidatorPage_unchanged projectionFields api page); repeat split.
Qed.

Lemma bulk_counts :
  respects (preserved countsProjection) (calculateLastEraAPYForAllValidators api).
Proof.
  unfold calculateLastEraAPYForAllValidators.
  through (preserved_refl countsProjection) (preserved_trans countsProjection)
          ltac:(counts_leaf).
  - eapply respects_weaken;
      [| apply (lastEraBatch_unchanged projectionFields api); intros v st; reflexivity].
    intros lw lw'. apply unchanged_counts.
  - intros w. unfold preserved, countsProjection, set. simpl. intros H.
    rewrite H. f_equal.
    rewrite (Permutation_length (sort_perm _ _)), length_fmap. reflexivity.
  - apply fetchValidatorPage_counts.
Qed.

Lemma perform_counts act : respects (preserved countsProjection) (perform api act).
Proof.
  assert (Hframe : forall m : Async unit,
            respects (unchanged projectionFields) m ->
            respects (preserved countsProjection) m).
  { intros m Hm. eapply respects_weaken; [apply unchanged_counts | exact Hm]. }
  destruct act; cbn [perform].
  - unfold fetchAllValidators.
    through (preserved_refl countsProjection) (preserved_trans countsProjection)
            ltac:(counts_leaf).
    + apply applyFilters_counts.
    + apply fetchValidatorPage_counts.
  - apply fetchValidatorPage_counts.
  - apply Hframe, setPageSize_unchanged; repeat split.
  - unfold setFilterOptions.
    through (preserved_refl countsProjection) (preserved_trans countsProjection)
            ltac:(counts_leaf).
    + apply applyFilters_counts.
    + apply fetchValidatorPage_counts.
  - apply applyFilters_counts.
  - apply bulk_counts.
  - apply Hframe, prefetchValidators_unchanged; repeat split.
  - apply Hframe, fetchHistoricalPerformance_unchanged; repeat split.
  - apply Hframe, calculateValidatorAPY_unchanged; repeat split.
  - apply Hframe, calculateAverages_unchanged; repeat split.
  - apply Hframe, setHistoryLength_unchanged; repeat split.
  - apply Hframe, setSelectedHistoricalValidator_unchanged; repeat split.
Qed.

End Counts.

(** X11: all along a session (any actions of the store, in any order, each
    run to completion against any answers of the chain),
    [totalValidators] is the length of [filteredValidators]. *)
Theorem totalValidators_counts_projection (steps : list (Api * Action)) :
  totalValidators (store (session steps))
  = Z.of_nat (length (filteredValidators (store (session steps)))).
Proof.
  apply (session_invariant countsProjection); [reflexivity |].
  intros api act. apply perform_counts.
Qed.

Lemma keepsCache_refl w : keepsCache w w.
Proof. intros a H. exact H. Qed.

Lemma keepsCache_trans w1 w2 w3 :
  keepsCache w1 w2 -> keepsCache w2 w3 -> keepsCache w1 w3.
Proof. unfold keepsCache. auto. Qed.

Lemma unchanged_keepsCache w w' : unchanged validatorCache w w' -> keepsCache w w'.
Proof. unfold unchanged, keepsCache. intros -> a H. exact H. Qed.

Lemma same_store_keepsCache w w' : same_store w w' -> keepsCache w w'.
Proof. intros [Hs _] a. rewrite Hs. auto. Qed.

Lemma only_error_keepsCache w w' : only_error w w' -> keepsCache w w'.
Proof. intros [[e Hs] _] a. rewrite Hs. auto. Qed.

(** A write that adds to the cache, or does not touch it. *)
Ltac keeps_leaf :=
  is_primitive;
  intros ?w ?a; unfold set, await, setTimeout; simpl;
  rewrite ?lookup_insert_is_Some', ?lookup_union_is_Some; auto.

Section KeepsCache.

Variable api : Api.

Lemma hydrate_keepsCache s e : respects keepsCache (hydrate api s e).
Proof.
  intros w. destruct (hydrate_safe api s e w) as (v & w' & Hrun & _).
  rewrite Hrun. cbn [snd]. intros a Ha.
  destruct (hydrate_cache api s e w v w' Hrun) as [[-> _] | ->]; [exact Ha |].
  rewrite lookup_insert_is_Some'. auto.
Qed.

Lemma fetchValidatorPage_keepsCache page :
  respects keepsCache (fetchValidatorPage api page).
Proof.
  unfold fetchValidatorPage.
  through keepsCache_refl keepsCache_trans ltac:(keeps_leaf).
  apply hydrate_keepsCache.
Qed.

Lemma bulk_keepsCache : respects keepsCache (calculateLastEraAPYForAllValidators api).
Proof.
  unfold calculateLastEraAPYForAllValidators.
  through keepsCache_refl keepsCache_trans ltac:(keeps_leaf).
  - unfold lastEraBatch.
    through keepsCache_refl keepsCache_trans ltac:(keeps_leaf).
    + eapply respects_weaken; [| apply lastEraItem_same_store].
      intros lw lw'. apply same_store_keepsCache.
    + eapply respects_weaken; [| apply recordResult_same_store].
      intros lw lw'. apply same_store_keepsCache.
  - apply fetchValidatorPage_keepsCache.
Qed.

Lemma fetchHistoricalPerformance_keepsCache a forceRefresh :
  respects keepsCache (fetchHistoricalPerformance api a forceRefresh).
Proof.
  unfold fetchHistoricalPerformance.
  through keepsCache_refl keepsCache_trans ltac:(keeps_leaf).
  intros [l w]. destruct (historyItem_run api a x0 l w) as (y & w' & -> & He).
  apply only_error_keepsCache, He.
Qed.

Lemma calculateAverages_keepsCache a : respects keepsCache (calculateAverages a).
Proof.
  intros w. unfold calculateAverages, bind, get, set, ret. cbn [fst snd].
  repeat (break_match; simpl in *; simplify_eq);
    intros k Hk; simpl; rewrite ?lookup_insert_is_Some'; auto.
Qed.

Lemma calculateValidatorAPY_keepsCache a :
  respects keepsCache (calculateValidatorAPY api a).
Proof.
  unfold calculateValidatorAPY.
  through keepsCache_refl keepsCache_trans ltac:(keeps_leaf).
  - intros [l w]. destruct (apyItem_run api v a x0 l w) as (y & w' & -> & He).
    apply only_error_keepsCache, He.
  - apply calculateAverages_keepsCache.
Qed.

Lemma perform_keepsCache act : respects keepsCache (perform api act).
Proof.
  assert (Hframe : forall m : Async unit,
            respects (unchanged validatorCache) m -> respects keepsCache m).
  { intros m Hm. eapply respects_weaken; [apply unchanged_keepsCache | exact Hm]. }
  destruct act; cbn [perform].
  - unfold fetchAllValidators.
    through keepsCache_refl keepsCache_trans ltac:(keeps_leaf).
    + apply Hframe, applyFilters_unchanged; repeat split.
    + apply fetchValidatorPage_keepsCache.
  - apply fetchValidatorPage_keepsCache.
  - unfold setPageSize.
    through keepsCache_refl keepsCache_trans ltac:(keeps_leaf).
    apply fetchValidatorPage_keepsCache.
  - unfold setFilterOptions.
    through keepsCache_refl keepsCache_trans ltac:(keeps_leaf).
    + apply Hframe, applyFilters_unchanged; repeat split.
    + apply fetchValidatorPage_keepsCache.
  - apply Hframe, applyFilters_unchanged; repeat split.
  - apply bulk_keepsCache.
  - intros w a [v Hv].
    destruct (prefetchValidators_run api w) as (c' & w' & -> & Hst & _ & Hsome & _).
    cbn [snd]. rewrite Hst. apply Hsome. left. eauto.
  - apply fetchHistoricalPerformance_keepsCache.
  - apply calculateValidatorAPY_keepsCache.
  - apply calculateAverages_keepsCache.
  - unfold setHistoryLength.
    through keepsCache_refl keepsCache_trans ltac:(keeps_leaf).
    + apply fetchHistoricalPerformance_keepsCache.
    + apply calculateValidatorAPY_keepsCache.
  - unfold setSelectedHistoricalValidator.
    through keepsCache_refl keepsCache_trans ltac:(keeps_leaf).
    + apply fetchHistoricalPerformance_keepsCache.
    + apply calculateValidatorAPY_keepsCache.
Qed.

End KeepsCache.

(** After [s <- get], the rest of an action runs with [s] the store at its
    start: what is known of that store can be used for [s]. *)
Ltac captured HQ :=
  intros ?w HQ; unfold bind at 1, get at 1; cbn [fst snd];
  match goal with
  | |- ?Q (store (snd (?m ?w0))) =>
      let H := fresh in
      enough (H : respects (preserved Q) m) by exact (H w0 HQ)
  end.

Lemma unchanged_keyed w w' :
  unchanged validatorCache w w' -> preserved keyedByAddress w w'.
Proof. unfold unchanged, preserved, keyedByAddress. intros ->. auto. Qed.

Lemma keyed_insert (c : gmap string Validator) a v :
  address v = a -> keyedMap c -> keyedMap (<[a := v]> c).
Proof.
  intros Hv Hc k x. rewrite lookup_insert_Some. intros [[<- <-] | [_ Hk]]; eauto.
Qed.

Lemma keyed_union (c1 c2 : gmap string Validator) :
  keyedMap c1 -> keyedMap c2 -> keyedMap (c1 ∪ c2).
Proof.
  intros H1 H2 k x Hk. apply lookup_union_Some_raw in Hk as [Hk | [_ Hk]]; eauto.
Qed.

Lemma keyed_empty : keyedMap ∅.
Proof. intros k x Hk. rewrite lookup_empty in Hk. discriminate. Qed.

Lemma preserved_locals_refl {L} (I : L * World -> Prop) lw : preserved_locals I lw lw.
Proof. intros H. exact H. Qed.

Lemma preserved_locals_trans {L} (I : L * World -> Prop) lw1 lw2 lw3 :
  preserved_locals I lw1 lw2 -> preserved_locals I lw2 lw3 -> preserved_locals I lw1 lw3.
Proof. unfold preserved_locals. auto. Qed.

Lemma find_address a (l : list Validator) v :
  List.find (fun v => bool_decide (address v = a)) l = Some v -> address v = a.
Proof.
  intros H. apply List.find_some in H as [_ H]. exact (bool_decide_eq_true_1 _ H).
Qed.

Lemma Promise_all_Forall {S A B} (P : B -> Prop) (f : A -> Eff S B) l :
  (forall x w y w', f x w = (Returned y, w') -> P y) ->
  forall w ys w', Promise_all f l w = (Returned ys, w') -> Forall P ys.
Proof.
  intros Hf. induction l as [| x l IH]; intros w ys w'; simpl.
  - unfold ret. intros [= <- _]. constructor.
  - unfold bind, ret. destruct (f x w) as [[y | msg] w1] eqn:E1; [| discriminate].
    destruct (Promise_all f l w1) as [[zs | msg] w2] eqn:E2; [| discriminate].
    intros [= <- _]. constructor; eauto.
Qed.

(** A write that does not touch the cache. *)
Ltac keyed_leaf :=
  is_primitive;
  intros ?w; unfold preserved, keyedByAddress, set, await, setTimeout;
  simpl; intros ?H; exact H.

Section Keyed.

Variable api : Api.

Lemma hydrate_address s e w v w' :
  keyedByAddress s ->
  hydrate api s e w = (Returned v, w') -> address v = fe_address e.
Proof.
  intros Hs.
  unfold hydrate, try_catch, bind, await, fetchStake, currentEraShare, get, set,
    ret, throw, try_catch, bind.
  intros H.
  repeat (break_match; simpl in *; simplify_eq); simpl; eauto.
Qed.

Lemma hydrate_keyed s e :
  keyedByAddress s -> respects (preserved keyedByAddress) (hydrate api s e).
Proof.
  intros Hs w HQ. destruct (hydrate_safe api s e w) as (v & w' & Hrun & _).
  rewrite Hrun. cbn [snd]. unfold keyedByAddress in *.
  destruct (hydrate_cache api s e w v w' Hrun) as [[-> _] | ->]; [exact HQ |].
  apply keyed_insert; [exact (hydrate_address s e w v w' Hs Hrun) | exact HQ].
Qed.

Lemma fetchValidatorPage_keyed page :
  respects (preserved keyedByAddress) (fetchValidatorPage api page).
Proof.
  unfold fetchValidatorPage. captured HQ.
  through (preserved_refl keyedByAddress) (preserved_trans keyedByAddress)
          ltac:(keyed_leaf).
  apply hydrate_keyed, HQ.
Qed.

Lemma only_error_keyed w w' : only_error w w' -> preserved keyedByAddress w w'.
Proof. intros [[e Hs] _]. unfold preserved, keyedByAddress. rewrite Hs. auto. Qed.

Lemma same_store_keyed w w' : same_store w w' -> preserved keyedByAddress w w'.
Proof. intros [Hs _]. unfold preserved. rewrite Hs. auto. Qed.

Lemma fetchHistoricalPerformance_keyed a forceRefresh :
  respects (preserved keyedByAddress) (fetchHistoricalPerformance api a forceRefresh).
Proof.
  unfold fetchHistoricalPerformance. captured HQ.
  through (preserved_refl keyedByAddress) (preserved_trans keyedByAddress)
          ltac:(keyed_leaf).
  - match goal with
    | |- respects _ (historyItem _ _ ?era) =>
        intros [l w0]; destruct (historyItem_run api a era l w0) as (y & w' & -> & He);
        apply only_error_keyed, He
    end.
  - intros w0. unfold preserved, keyedByAddress, set. simpl.
    apply keyed_insert.
    match goal with
    | H : match validatorCache (store w) !! a with _ => _ end = Some ?v |- _ =>
        destruct (validatorCache (store w) !! a) as [v0 |] eqn:Ec;
        [injection H as <-; exact (HQ a v0 Ec) | exact (find_address a _ _ H)]
    end.
Qed.

Lemma calculateAverages_keyed a :
  respects (preserved keyedByAddress) (calculateAverages a).
Proof.
  intros w. unfold calculateAverages, bind, get, set, ret. cbn [fst snd].
  repeat (break_match; simpl in *; simplify_eq); try (intros H; exact H).
  all: intros HQ; unfold keyedByAddress; simpl; apply keyed_insert; [| exact HQ];
    eapply find_address; eassumption.
Qed.

Lemma calculateValidatorAPY_keyed a :
  respects (preserved keyedByAddress) (calculateValidatorAPY api a).
Proof.
  unfold calculateValidatorAPY. captured HQ.
  through (preserved_refl keyedByAddress) (preserved_trans keyedByAddress)
          ltac:(keyed_leaf).
  - match goal with
    | |- respects _ (apyItem _ ?v _ ?era) =>
        intros [l w0]; destruct (apyItem_run api v a era l w0) as (y & w' & -> & He);
        apply only_error_keyed, He
    end.
  - intros w0. unfold preserved, keyedByAddress, set. simpl.
    apply keyed_insert.
    match goal with
    | H : match findDisplayed (store w) a with _ => _ end = Some ?v |- _ =>
        destruct (findDisplayed (store w) a) as [v0 |] eqn:Ec;
        [injection H as <-; exact (find_address a _ _ Ec) | exact (HQ a _ H)]
    end.
  - apply calculateAverages_keyed.
Qed.

Lemma lastEraItem_keyed s eraReward totalEraPoints individualPoints v lw :
  keyedByAddress s ->
  preserved_locals bulkKeyed lw
    (lastEraItem api s eraReward totalEraPoints individualPoints v lw).2
  /\ (forall r lw',
        lastEraItem api s eraReward totalEraPoints individualPoints v lw = (Returned r, lw')
        -> ownRecord r).
Proof.
  intros Hs. destruct lw as [l w].
  unfold lastEraItem, eraAPY_or_throw, try_catch, bind, lift, await, assign, ret, throw,
    preserved_locals, bulkKeyed, ownRecord.
  cbn [fst snd].
  repeat (break_match; simpl in *; simplify_eq); simpl;
    (split;
     [ intros [H1 H2]; split; [| exact H2];
       first [ exact H1 | apply keyed_insert; [simpl; eauto | exact H1] ]
     | intros ?r ?lw' ?Hr ?v0 ?Hv0; simplify_eq; simpl in *; simplify_eq; simpl; eauto ]).
Qed.

Lemma lastEraItems_keyed s eraReward totalEraPoints individualPoints l :
  keyedByAddress s ->
  forall lw,
    preserved_locals bulkKeyed lw
      (Promise_all (lastEraItem api s eraReward totalEraPoints individualPoints) l lw).2.
Proof.
  intros Hs lw.
  apply (respects_Promise_all (preserved_locals bulkKeyed)
           (preserved_locals_refl _) (preserved_locals_trans _)).
  intros x lw0. apply lastEraItem_keyed, Hs.
Qed.

Lemma recordResults_keyed rs :
  Forall ownRecord rs ->
  forall lw, preserved_locals bulkKeyed lw (for_each recordResult rs lw).2.
Proof.
  induction 1 as [| r rs Hr Hrs IH]; intros [l w]; simpl.
  - intros H. exact H.
  - unfold bind at 1. unfold recordResult at 1. unfold bind, assign, ret.
    cbn [fst snd].
    destruct (res_validatorInstance r) as [v |] eqn:Ev; cbn [fst snd].
    + intros [H1 H2]. apply IH. split; [| exact H2]. simpl.
      apply keyed_insert; [apply Hr, Ev | exact H1].
    + intros [H1 H2]. apply IH. split; [exact H1 | exact H2].
Qed.

Lemma lastEraBatch_keyed s eraReward totalEraPoints individualPoints batch :
  keyedByAddress s ->
  respects (preserved_locals bulkKeyed)
    (lastEraBatch api s eraReward totalEraPoints individualPoints batch).
Proof.
  intros Hs lw HI. unfold lastEraBatch, bind at 1.
  pose proof (lastEraItems_keyed s eraReward totalEraPoints individualPoints batch Hs lw HI)
    as H1.
  destruct (Promise_all _ batch lw) as [[rs | msg] lw1] eqn:E1; cbn [snd] in *;
    [| exact H1].
  assert (Hrs : Forall ownRecord rs).
  { eapply (Promise_all_Forall ownRecord); [| exact E1].
    intros x w0 y w0' Hy.
    exact (proj2 (lastEraItem_keyed s eraReward totalEraPoints individualPoints x w0 Hs)
             y w0' Hy). }
  unfold bind at 1.
  pose proof (recordResults_keyed rs Hrs lw1 H1) as H2.
  destruct (for_each recordResult rs lw1) as [[[] | msg] [l2 w2]] eqn:E2; cbn [snd] in *;
    [| exact H2].
  unfold bind, locals, lift, set, ret. cbn [fst snd].
  destruct (bool_decide _); cbn [fst snd]; [| exact H2].
  destruct H2 as [H2 H3]. split; [exact H2 |].
  unfold keyedByAddress. simpl. apply keyed_union; assumption.
Qed.

Lemma bulk_loop_keyed s eraReward totalEraPoints individualPoints bs :
  keyedByAddress s ->
  respects (preserved keyedByAddress)
    (with_locals {| newCacheEntries := ∅; validatorsWithAPY := [] |}
       (for_each (lastEraBatch api s eraReward totalEraPoints individualPoints) bs)).
Proof.
  intros Hs w HQ. unfold with_locals.
  pose proof (respects_for_each (preserved_locals bulkKeyed)
                (preserved_locals_refl _) (preserved_locals_trans _)
                (lastEraBatch api s eraReward totalEraPoints individualPoints) bs
                (fun b => lastEraBatch_keyed s eraReward totalEraPoints individualPoints b Hs)
                ({| newCacheEntries := ∅; validatorsWithAPY := [] |}, w)) as H.
  destruct (for_each _ bs _) as [[a | msg] [l w']]; cbn [snd] in *;
    apply H; (split; [apply keyed_empty | exact HQ]).
Qed.

Lemma bulk_keyed :
  respects (preserved keyedByAddress) (calculateLastEraAPYForAllValidators api).
Proof.
  unfold calculateLastEraAPYForAllValidators. captured HQ.
  through (preserved_refl keyedByAddress) (preserved_trans keyedByAddress)
          ltac:(first [ keyed_leaf
                      | is_call; first [ apply bulk_loop_keyed; exact HQ
                                       | apply fetchValidatorPage_keyed ] ]).
Qed.

Lemma perform_keyed act : respects (preserved keyedByAddress) (perform api act).
Proof.
  assert (Hframe : forall m : Async unit,
            respects (unchanged validatorCache) m ->
            respects (preserved keyedByAddress) m).
  { intros m Hm. eapply respects_weaken; [apply unchanged_keyed | exact Hm]. }
  assert (Hfilters : respects (preserved keyedByAddress) (applyFilters api)).
  { apply Hframe, applyFilters_unchanged; repeat split. }
  assert (Hhistory : forall a b,
            respects (preserved keyedByAddress) (fetchHistoricalPerformance api a b))
    by apply fetchHistoricalPerformance_keyed.
  destruct act; cbn [perform].
  - unfold fetchAllValidators.
    through (preserved_refl keyedByAddress) (preserved_trans keyedByAddress)
            ltac:(first [ keyed_leaf
                        | is_call; first [ exact Hfilters
                                         | apply fetchValidatorPage_keyed ] ]).
  - apply fetchValidatorPage_keyed.
  - unfold setPageSize.
    through (preserved_refl keyedByAddress) (preserved_trans keyedByAddress)
            ltac:(first [ keyed_leaf | is_call; apply fetchValidatorPage_keyed ]).
  - unfold setFilterOptions.
    through (preserved_refl keyedByAddress) (preserved_trans keyedByAddress)
            ltac:(first [ keyed_leaf
                        | is_call; first [ exact Hfilters
                                         | apply fetchValidatorPage_keyed ] ]).
  - exact Hfilters.
  - apply bulk_keyed.
  - intros w HQ.
    destruct (prefetchValidators_run api w) as (c' & w' & -> & Hst & _ & _ & _ & Hkey).
    cbn [snd]. unfold keyedByAddress. rewrite Hst. simpl. intros a v Hv.
    destruct (Hkey a v Hv) as [Hv' | Hv']; [exact (HQ a v Hv') | exact Hv'].
  - apply Hhistory.
  - apply calculateValidatorAPY_keyed.
  - apply calculateAverages_keyed.
  - unfold setHistoryLength.
    through (preserved_refl keyedByAddress) (preserved_trans keyedByAddress)
            ltac:(first [ keyed_leaf
                        | is_call; first [ apply Hhistory
                                         | apply calculateValidatorAPY_keyed ] ]).
  - unfold setSelectedHistoricalValidator.
    through (preserved_refl keyedByAddress) (preserved_trans keyedByAddress)
            ltac:(first [ keyed_leaf
                        | is_call; first [ apply Hhistory
                                         | apply calculateValidatorAPY_keyed ] ]).
Qed.

End Keyed.

(** X12: all along a session, every record of the cache is stored under
    its own address. *)
Theorem cache_keyed_by_address (steps : list (Api * Action)) :
  keyedByAddress (store (session steps)).
Proof.
  apply (session_invariant keyedByAddress); [apply keyed_empty |].
  intros api act. apply perform_keyed.
Qed.

Lemma cache_keyed_by_address_witness :
  is_Some (validatorCache (store (session shortSession)) !! "A")
  /\ keyedByAddress (store (session shortSession)).
Proof.
  assert (H : is_Some (validatorCache (store (session shortSession)) !! "A"))
    by (vm_compute; eexists; reflexivity).
  exact (conj H (cache_keyed_by_address shortSession)).
Defined.

(** X13: no action of the store ever removes a record from the cache: an
    address that is cached before an action is cached after it, whatever
    the chain answers. *)
Theorem cache_never_evicts (api : Api) (act : Action) (w : World) (a : string) :
  is_Some (validatorCache (store w) !! a) ->
  is_Some (validatorCache (store (run (perform api act) w)) !! a).
Proof. apply (perform_keepsCache api act w a). Qed.

Lemma cache_never_evicts_witness :
  is_Some (validatorCache (store sessionPageTwo) !! "C")
  /\ is_Some (validatorCache
                (store (run (perform (chainAt 102) FetchAllValidators) sessionPageTwo))
              !! "C").
Proof.
  assert (H : is_Some (validatorCache (store sessionPageTwo) !! "C"))
    by (vm_compute; eexists; reflexivity).
  exact (conj H (cache_never_evicts (chainAt 102) FetchAllValidators sessionPageTwo "C" H)).
Defined.

(** ** What holds when an action is done *)

Lemma after_ret {A} (P Q : World -> Prop) (a : A) :
  (forall w, P w -> Q w) -> after P (ret a) Q.
Proof. intros H w b w' HP [= _ <-]. auto. Qed.

Lemma after_throw {A} (P Q : World -> Prop) msg : after P (throw (A := A) msg) Q.
Proof. intros w b w' _ [=]. Qed.

Lemma after_bind {A B} (P M Q : World -> Prop) (m : Async A) (k : A -> Async B) :
  after P m M -> (forall a, after M (k a) Q) -> after P (bind m k) Q.
Proof.
  intros Hm Hk w b w' HP. unfold bind.
  destruct (m w) as [[a | msg] w1] eqn:E; [| discriminate].
  intros Hrun. eapply Hk; [| exact Hrun]. eapply Hm; eauto.
Qed.

Lemma after_try_catch {A} (P Q : World -> Prop) (m : Async A) h :
  after P m Q -> (forall msg, after anywhere (h msg) Q) -> after P (try_catch m h) Q.
Proof.
  intros Hm Hh w b w' HP. unfold try_catch.
  destruct (m w) as [[a | msg] w1] eqn:E.
  - intros [= <- <-]. eapply Hm; eauto.
  - intros Hrun. eapply Hh; [exact I | exact Hrun].
Qed.

Lemma after_weaken {A} (P P' Q : World -> Prop) (m : Async A) :
  (forall w, P w -> P' w) -> after P' m Q -> after P m Q.
Proof. intros HP Hm w a w' Hw Hrun. eapply Hm; eauto. Qed.

Lemma after_set (P Q : World -> Prop) g :
  (forall w, P w ->
     Q {| store := g (store w); queries := queries w; timers := timers w |}) ->
  after P (set g) Q.
Proof. intros H w a w' HP [= _ <-]. auto. Qed.

Lemma after_respects {A} (R : World -> World -> Prop) (P Q : World -> Prop) (m : Async A) :
  respects R m -> (forall w w', P w -> R w w' -> Q w') -> after P m Q.
Proof.
  intros Hm H w a w' HP Hrun. eapply H; [exact HP |].
  specialize (Hm w). rewrite Hrun in Hm. exact Hm.
Qed.

Lemma returns_try_catch {S A} (m : Eff S A) h :
  (forall msg, returns (h msg)) -> returns (try_catch m h).
Proof.
  intros Hh w. unfold try_catch. destruct (m w) as [[a | msg] w1]; [eauto |].
  apply Hh.
Qed.

Lemma returns_set g : returns (set g).
Proof. intros w. eexists _, _. reflexivity. Qed.

Lemma after_run (P Q : World -> Prop) (m : Async unit) w :
  returns m -> after P m Q -> P w -> Q (run m w).
Proof.
  intros Hr Hm HP. unfold run. destruct (Hr w) as (a & w' & E).
  rewrite E. eapply Hm; eauto.
Qed.

Lemma try_catch_set {A} g (k : unit -> Async A) h w :
  try_catch (bind (set g) k) h w
  = try_catch (k tt) h {| store := g (store w); queries := queries w; timers := timers w |}.
Proof. reflexivity. Qed.

(** ** The window of eras *)

Lemma List_filter_all {A} (p : A -> bool) (l : list A) :
  (forall x, x ∈ l -> p x = true) -> List.filter p l = l.
Proof.
  induction l as [| x l IH]; intros H; simpl; [reflexivity |].
  rewrite (H x) by left. f_equal. apply IH. intros y Hy. apply H. right. exact Hy.
Qed.

Lemma List_filter_none {A} (p : A -> bool) (l : list A) :
  (forall x, x ∈ l -> p x = false) -> List.filter p l = [].
Proof.
  induction l as [| x l IH]; intros H; simpl; [reflexivity |].
  rewrite (H x) by left. apply IH. intros y Hy. apply H. right. exact Hy.
Qed.

Lemma List_filter_fmap {A B} (p : B -> bool) (g : A -> B) (l : list A) :
  List.filter p (g <$> l) = g <$> List.filter (fun x => p (g x)) l.
Proof.
  induction l as [| x l IH]; csimpl; [reflexivity |].
  destruct (p (g x)); csimpl; rewrite IH; reflexivity.
Qed.

Lemma filter_below_seqZ (bound len : Z) :
  List.filter (fun i => i <? bound) (seqZ 0 len) = seqZ 0 (Z.min len bound).
Proof.
  destruct (Z.le_gt_cases len bound) as [H | H].
  - rewrite Z.min_l by lia. apply List_filter_all.
    intros i Hi. apply elem_of_seqZ in Hi. apply Z.ltb_lt. lia.
  - rewrite Z.min_r by lia.
    destruct (Z.le_gt_cases bound 0) as [Hb | Hb].
    + rewrite (seqZ_nil 0 bound) by lia. apply List_filter_none.
      intros i Hi. apply elem_of_seqZ in Hi. apply Z.ltb_ge. lia.
    + replace len with (bound + (len - bound)) at 1 by lia.
      rewrite seqZ_app by lia. rewrite List.filter_app.
      rewrite List_filter_all, List_filter_none; [apply app_nil_r | |].
      * intros i Hi. apply elem_of_seqZ in Hi. apply Z.ltb_ge. lia.
      * intros i Hi. apply elem_of_seqZ in Hi. apply Z.ltb_lt. lia.
Qed.

Lemma erasToFetch_window s :
  erasToFetch s = erasBelow (activeEra s) (historyLength s).
Proof.
  unfold erasToFetch, erasBelow. rewrite List_filter_fmap.
  rewrite <- filter_below_seqZ.
  rewrite (List.filter_ext (fun x => 0 <=? activeEra s - x - 1) (fun i => i <? activeEra s)).
  - apply list_fmap_ext. intros; lia.
  - intros i. destruct (Z.leb_spec 0 (activeEra s - i - 1)), (Z.ltb_spec i (activeEra s));
      lia || reflexivity.
Qed.

Lemma after_bind_last {A B} (P Q : World -> Prop) (m : Async A) (k : A -> Async B) :
  (forall a, after anywhere (k a) Q) -> after P (bind m k) Q.
Proof.
  intros Hk. apply (after_bind P anywhere Q); [| exact Hk].
  intros w a w' _ _. exact I.
Qed.

(** The last write of every path sets what [Q] asks for. *)
Ltac to_the_end :=
  repeat first
    [ match goal with
      | |- after _ (bind _ _) _ => apply after_bind_last; intros ?
      | |- after _ (set _) _ => apply after_set; intros ? ?; reflexivity
      | |- after _ (throw _) _ => apply after_throw
      | |- after _ (try_catch _ _) _ => apply after_try_catch; [| intros ?]
      | |- after _ (match ?x with _ => _ end) _ => destruct x
      end
    | progress cbv zeta ].

Lemma elem_of_erasBelow active len era :
  era ∈ erasBelow active len <-> Z.max 0 (active - len) <= era < active.
Proof.
  unfold erasBelow. rewrite list_elem_of_fmap. split.
  - intros (i & -> & Hi). apply elem_of_seqZ in Hi. lia.
  - intros H. exists (active - 1 - era). split; [lia |]. apply elem_of_seqZ. lia.
Qed.

Lemma fetchHistoricalPerformance_window api w a forceRefresh :
  a <> "" ->
  let s' := store (run (fetchHistoricalPerformance api a forceRefresh) w) in
  historicalEras s' = erasBelow (activeEra (store w)) (historyLength (store w))
  /\ loadingHistoricalData s' = false.
Proof.
  intros Hne s'. unfold s', run.
  destruct (fetchHistoricalPerformance api a forceRefresh w) as [r wf] eqn:E.
  cbn [snd]. unfold fetchHistoricalPerformance, bind at 1, get in E.
  cbv beta iota in E. rewrite bool_decide_eq_false_2 in E by exact Hne.
  unfold bind at 1, set at 1 in E.
  rewrite try_catch_set, erasToFetch_window in E.
  match type of E with
  | try_catch ?m ?h ?w2 = _ =>
      assert (Hsame : respects (unchanged historicalEras) (try_catch m h));
      [| assert (Hoff : after anywhere (try_catch m h)
                          (fun w' => loadingHistoricalData (store w') = false));
         [| assert (Hret : returns (try_catch m h));
            [| pose proof (Hsame w2) as H1;
               pose proof (after_run _ _ _ w2 Hret Hoff I) as H2 ] ] ]
  end.
  - through (unchanged_refl historicalEras) (unchanged_trans historicalEras)
            ltac:(first [ unread
                        | is_call; apply historyItem_unchanged; intros ? ?; reflexivity ]).
  - to_the_end.
  - apply returns_try_catch. intros msg. apply returns_set.
  - unfold run in H2. rewrite E in H1, H2. split; [exact H1 | exact H2].
Qed.

(** X14: a fetch of the history of a validator (with an address that is
    not empty) leaves in [historicalEras] the eras below the active era, at
    most [historyLength] of them and none below 0, latest first: exactly
    the eras from [max(0, activeEra - historyLength)] to [activeEra - 1];
    and it leaves [loadingHistoricalData] switched off, whatever the chain
    answers. *)
Theorem history_window (api : Api) (w : World) (a : string) (forceRefresh : bool) :
  a <> "" ->
  let active := activeEra (store w) in
  let len := historyLength (store w) in
  let s' := store (run (fetchHistoricalPerformance api a forceRefresh) w) in
  historicalEras s' = (fun i => active - 1 - i) <$> seqZ 0 (Z.min len active)
  /\ (forall era, era ∈ historicalEras s' <-> Z.max 0 (active - len) <= era < active)
  /\ Z.of_nat (length (historicalEras s')) = Z.max 0 (Z.min len active)
  /\ loadingHistoricalData s' = false.
Proof.
  intros Hne active len s'.
  destruct (fetchHistoricalPerformance_window api w a forceRefresh Hne) as [Heras Hoff].
  fold s' active len in Heras, Hoff. rewrite Heras.
  split; [reflexivity |]. split; [apply elem_of_erasBelow |]. split; [| exact Hoff].
  unfold erasBelow. rewrite length_fmap, length_seqZ. lia.
Qed.

Lemma history_window_witness :
  historicalEras
    (store (run (fetchHistoricalPerformance (chainAt 102) "A" true)
              (run (setHistoryLength (chainAt 102) 3) sessionRefreshedAPY)))
  = [101; 100; 99].
Proof.
  assert (Hne : "A" <> "") by discriminate.
  pose proof (history_window (chainAt 102)
                (run (setHistoryLength (chainAt 102) 3) sessionRefreshedAPY) "A" true Hne)
    as H.
  cbv zeta in H.
  assert (E : (fun i => activeEra (store (run (setHistoryLength (chainAt 102) 3)
                                            sessionRefreshedAPY)) - 1 - i)
                <$> seqZ 0 (Z.min (historyLength (store (run (setHistoryLength (chainAt 102) 3)
                                                          sessionRefreshedAPY)))
                              (activeEra (store (run (setHistoryLength (chainAt 102) 3)
                                                   sessionRefreshedAPY))))
              = [101; 100; 99]) by (vm_compute; reflexivity).
  exact (eq_trans (proj1 H) E).
Defined.

(** ** The loading flags *)

Lemma after_unchanged {A} (f : ValidatorState -> bool) (m : Async A) :
  respects (unchanged f) m ->
  after (fun w => f (store w) = false) m (fun w => f (store w) = false).
Proof.
  intros Hm. apply (after_respects (unchanged f)); [exact Hm |].
  intros w w' HP HR. rewrite HR. exact HP.
Qed.

(** Code whose flag [f] is off when it returns: on every path a write
    switches it off, and what follows that write leaves it alone. *)
Ltac lowers f api :=
  repeat first
    [ match goal with
      | |- after _ (bind (set _) _) _ =>
          solve [ apply (after_bind _ (fun w => f (store w) = false));
                  [ apply after_set; intros ? ?; reflexivity
                  | intros ?; apply (after_unchanged f);
                    through (unchanged_refl f) (unchanged_trans f)
                      ltac:(first
                        [ unread
                        | is_call;
                          first [ apply (applyFilters_unchanged f api)
                                | apply (fetchValidatorPage_unchanged f api)
                                | apply (calculateAverages_unchanged f) ];
                          repeat split ]) ] ]
      | |- after _ (bind _ _) _ => apply after_bind_last; intros ?
      | |- after _ (set _) _ => apply after_set; intros ? ?; reflexivity
      | |- after _ (throw _) _ => apply after_throw
      | |- after _ (try_catch _ _) _ => apply after_try_catch; [| intros ?]
      | |- after _ (match ?x with _ => _ end) _ => destruct x
      end
    | progress cbv zeta ].

Lemma returns_caught (m : Async unit) h g w r wf :
  try_catch m (fun msg => set (g msg)) w = (r, wf) ->
  after anywhere (try_catch m (fun msg => set (g msg))) h -> h wf.
Proof.
  intros E Hoff.
  assert (Hret : returns (try_catch m (fun msg => set (g msg)))).
  { apply returns_try_catch. intros msg. apply returns_set. }
  pose proof (after_run _ _ _ w Hret Hoff I) as H. unfold run in H.
  rewrite E in H. exact H.
Qed.

Section Flags.

Variable api : Api.

Lemma fetchAllValidators_lowers w :
  loading (store (run (fetchAllValidators api) w)) = false.
Proof.
  unfold run. destruct (fetchAllValidators api w) as [r wf] eqn:E. cbn [snd].
  unfold fetchAllValidators, bind at 1, set at 1 in E.
  eapply (returns_caught _ (fun w' => loading (store w') = false)); [exact E |].
  lowers loading api.
Qed.

Lemma bulk_lowers w :
  calculatingLastEraAPY (store (run (calculateLastEraAPYForAllValidators api) w)) = false.
Proof.
  unfold run. destruct (calculateLastEraAPYForAllValidators api w) as [r wf] eqn:E.
  cbn [snd].
  unfold calculateLastEraAPYForAllValidators, bind at 1, get in E. cbv beta iota in E.
  unfold bind at 1, set at 1 in E.
  eapply (returns_caught _ (fun w' => calculatingLastEraAPY (store w') = false));
    [exact E |].
  lowers calculatingLastEraAPY api.
Qed.

Lemma calculateValidatorAPY_lowers a w :
  is_Some (chosenValidator (store w) a) ->
  loadingAPY (store (run (calculateValidatorAPY api a) w)) = false.
Proof.
  intros [validator Hv].
  unfold run. destruct (calculateValidatorAPY api a w) as [r wf] eqn:E. cbn [snd].
  unfold calculateValidatorAPY, bind at 1, get in E. cbv beta iota in E.
  unfold chosenValidator in Hv. rewrite Hv in E.
  unfold bind at 1, set at 1 in E.
  eapply (returns_caught _ (fun w' => loadingAPY (store w') = false)); [exact E |].
  lowers loadingAPY api.
Qed.

End Flags.

(** ** Loading the ranking *)

(** X16: when the active era is absent or one of the four queries of
    [fetchAllValidators] is rejected, the load changes two fields of the
    store only: [error] holds the message and [loading] is off.  The
    ranking, the era data, the projection, the page and the cache are those
    of before, and no timer is set. *)
Theorem ranking_load_failure (api : Api) (w : World) (msg : string) :
  loadFailure api = Some msg ->
  store (run (fetchAllValidators api) w) = set_loading false (set_error (Some msg) (store w))
  /\ timers (run (fetchAllValidators api) w) = timers w.
Proof.
  unfold loadFailure, run, fetchAllValidators, bind, try_catch, await, set, throw.
  cbn [fst snd store queries timers].
  intros H.
  repeat (break_match; simpl in *; simplify_eq); split; reflexivity.
Qed.

Lemma ranking_load_failure_witness :
  sm_address <$> allValidators (store sessionPageTwo) = ["A"; "B"; "C"]
  /\ store (run (fetchAllValidators noSessionChain) sessionPageTwo)
     = set_loading false (set_error (Some "disconnected") (store sessionPageTwo)).
Proof.
  assert (H : loadFailure noSessionChain = Some "disconnected") by reflexivity.
  assert (E : sm_address <$> allValidators (store sessionPageTwo) = ["A"; "B"; "C"])
    by (vm_compute; reflexivity).
  exact (conj E (proj1 (ranking_load_failure noSessionChain sessionPageTwo "disconnected" H))).
Defined.

Lemma timers_after_page api page w :
  timers (run (fetchValidatorPage api page) w) = timers w.
Proof.
  unfold run. destruct (filteredValidators (store w)) as [| e l] eqn:E.
  - rewrite fetchValidatorPage_skip by exact E. reflexivity.
  - destruct (fetchValidatorPage_run api page w) as (vs & w1 & _ & [_ Ht] & ->).
    { rewrite E. discriminate. }
    cbn [snd timers]. exact Ht.
Qed.

Lemma fetchValidatorPage_returns api page w :
  fetchValidatorPage api page w = (Returned tt, run (fetchValidatorPage api page) w).
Proof.
  unfold run. destruct (filteredValidators (store w)) as [| e l] eqn:E.
  - rewrite fetchValidatorPage_skip by exact E. reflexivity.
  - destruct (fetchValidatorPage_run api page w) as (vs & w1 & _ & _ & ->).
    { rewrite E. discriminate. }
    reflexivity.
Qed.

Lemma applyFilters_returns api w :
  applyFilters api w = (Returned tt, run (applyFilters api) w).
Proof.
  unfold run. destruct (applyFilters_run api w) as (w' & -> & _). reflexivity.
Qed.

Lemma fetchAllValidators_success api w active eraReward validatorAddresses eraRewardPoints :
  ActiveEra api = Resolved (Some active) ->
  ErasValidatorReward api active = Resolved eraReward ->
  SessionValidators api = Resolved validatorAddresses ->
  ErasRewardPoints api active = Resolved eraRewardPoints ->
  rankingFields (store (run (fetchAllValidators api) w))
  = (JS.sort byPoints (unsortedRanking validatorAddresses eraRewardPoints), active,
     active - 1, Z.min 84 active, default 0 eraReward, eraRewardPoints, false, None)
  /\ take 2 (timers (run (fetchAllValidators api) w))
     = [(RunPrefetchValidators, 2000); (RunCalculateLastEraAPYForAllValidators, 1000)].
Proof.
  intros H1 H2 H3 H4.
  assert (Hf : forall w0, exists w1,
            applyFilters api w0 = (Returned tt, w1)
            /\ rankingFields (store w1) = rankingFields (store w0)).
  { intros w0. exists (run (applyFilters api) w0). split; [apply applyFilters_returns |].
    apply (applyFilters_unchanged rankingFields api); repeat split. }
  assert (Hp : forall w0, exists w1,
            fetchValidatorPage api 1 w0 = (Returned tt, w1)
            /\ rankingFields (store w1) = rankingFields (store w0)).
  { intros w0. exists (run (fetchValidatorPage api 1) w0).
    split; [apply fetchValidatorPage_returns |].
    apply (fetchValidatorPage_unchanged rankingFields api); repeat split. }
  unfold run, fetchAllValidators.
  generalize dependent (fetchValidatorPage api 1).
  generalize dependent (applyFilters api).
  intros filters Hf page Hp.
  unfold bind, try_catch, await, set, setTimeout. cbn [fst snd store queries timers].
  rewrite H1. cbv beta iota. rewrite H2. cbv beta iota. rewrite H3. cbv beta iota.
  rewrite H4. cbv beta iota.
  match goal with
  | |- context [filters ?w0] => destruct (Hf w0) as (w1 & -> & Hs1)
  end.
  match goal with
  | |- context [page ?w0] => destruct (Hp w0) as (w2 & -> & Hs2)
  end.
  cbn [fst snd store timers]. split; [| reflexivity].
  rewrite Hs2, Hs1. reflexivity.
Qed.

(** X17: when the four queries of [fetchAllValidators] are answered, the
    ranking holds exactly the session validators (a rearrangement of the
    list the chain gave), each with its points of the active era and 0
    when it has none; [lastEra] is [activeEra - 1], [maxHistoryLength] is
    [min(84, activeEra)], an absent era reward is stored as 0, [loading]
    is off and [error] empty; and the two background jobs are scheduled
    last, the bulk job after 1000 ms and the prefetch after 2000 ms. *)
Theorem ranking_load_success (api : Api) (w : World) (active : Z) (eraReward : option Z)
    (validatorAddresses : list string) (eraRewardPoints : option EraRewardPoints) :
  ActiveEra api = Resolved (Some active) ->
  ErasValidatorReward api active = Resolved eraReward ->
  SessionValidators api = Resolved validatorAddresses ->
  ErasRewardPoints api active = Resolved eraRewardPoints ->
  let w' := run (fetchAllValidators api) w in
  allValidators (store w') ≡ₚ unsortedRanking validatorAddresses eraRewardPoints
  /\ activeEra (store w') = active
  /\ lastEra (store w') = active - 1
  /\ maxHistoryLength (store w') = Z.min 84 active
  /\ currentEraReward (store w') = default 0 eraReward
  /\ currentEraPoints (store w') = eraRewardPoints
  /\ loading (store w') = false
  /\ error (store w') = None
  /\ take 2 (timers w')
     = [(RunPrefetchValidators, 2000); (RunCalculateLastEraAPYForAllValidators, 1000)].
Proof.
  intros H1 H2 H3 H4 w'.
  destruct (fetchAllValidators_success api w active eraReward validatorAddresses
              eraRewardPoints H1 H2 H3 H4) as [Hw Ht].
  fold w' in Hw, Ht. unfold rankingFields in Hw.
  injection Hw as E1 E2 E3 E4 E5 E6 E7 E8.
  split; [rewrite E1; apply sort_perm |].
  exact (conj E2 (conj E3 (conj E4 (conj E5 (conj E6 (conj E7 (conj E8 Ht))))))).
Qed.

Lemma ranking_load_success_witness :
  let w' := run (fetchAllValidators (chainAt 102)) sessionPageTwo in
  allValidators (store w')
  ≡ₚ unsortedRanking ["A"; "B"; "C"]
       (Some {| ep_total := 400;
                ep_individual := [("A", 200); ("B", 100); ("C", 100)] |})
  /\ lastEra (store w') = 101.
Proof.
  intros w'.
  pose proof (ranking_load_success (chainAt 102) sessionPageTwo 102
                (Some 1000000000000) ["A"; "B"; "C"]
                (Some {| ep_total := 400;
                         ep_individual := [("A", 200); ("B", 100); ("C", 100)] |})
                eq_refl eq_refl eq_refl eq_refl) as H.
  cbv zeta in H. fold w' in H.
  exact (conj (proj1 H) (proj1 (proj2 (proj2 H)))).
Defined.

(** ** The queries of an action *)

Section Queries.

Variable api : Api.

Lemma hydrate_queries s e w :
  exists qs,
    queries (hydrate api s e w).2 = qs ++ queries w
    /\ (length qs <= length (uncached s [e]) * 2)%nat.
Proof.
  unfold uncached, hydrate, try_catch, bind, await, fetchStake, currentEraShare, get, set,
    ret, throw, try_catch, bind. simpl.
  repeat (break_match; simpl in *; simplify_eq); simpl;
    first [ exists []; split; [reflexivity | simpl; lia]
          | eexists [_]; split; [reflexivity | simpl; lia]
          | eexists [_; _]; split; [reflexivity | simpl; lia] ].
Qed.

Lemma uncached_cons s e l : uncached s (e :: l) = uncached s [e] ++ uncached s l.
Proof. unfold uncached. simpl. destruct (bool_decide _); reflexivity. Qed.

Lemma hydrate_all_queries s l : forall w,
  exists qs,
    queries (Promise_all (hydrate api s) l w).2 = qs ++ queries w
    /\ (length qs <= length (uncached s l) * 2)%nat.
Proof.
  induction l as [| e l IH]; intros w.
  - exists []. split; [reflexivity | simpl; lia].
  - cbn [Promise_all]. unfold bind at 1.
    destruct (hydrate_queries s e w) as (q1 & Hq1 & Hl1).
    destruct (hydrate api s e w) as [[v | msg] w1]; cbn [snd] in *.
    + unfold bind, ret. destruct (IH w1) as (q2 & Hq2 & Hl2).
      destruct (Promise_all (hydrate api s) l w1) as [[vs | msg] w2]; cbn [snd] in *;
        exists (q2 ++ q1); (split; [rewrite Hq2, Hq1, app_assoc; reflexivity |]);
        rewrite uncached_cons, !length_app; lia.
    + exists q1. split; [exact Hq1 |]. rewrite uncached_cons, length_app. lia.
Qed.

Lemma fetchValidatorPage_queries page w :
  exists qs,
    queries (run (fetchValidatorPage api page) w) = qs ++ queries w
    /\ (length qs <= length (uncached (store w) (pageValidators (store w) page)) * 2)%nat.
Proof.
  unfold run. destruct (filteredValidators (store w)) as [| e l] eqn:E.
  - rewrite fetchValidatorPage_skip by exact E. exists []. split; [reflexivity | simpl; lia].
  - destruct (fetchValidatorPage_run api page w) as (vs & w1 & Hrun & _ & ->).
    { rewrite E. discriminate. }
    cbn [snd queries].
    destruct (hydrate_all_queries (store w) (pageValidators (store w) page)
                (loadingWorld page w)) as (qs & Hqs & Hlen).
    rewrite Hrun in Hqs. exists qs. split; [exact Hqs | exact Hlen].
Qed.

Lemma filterItem_queries s v w :
  queries (filterItem api s v w).2
  = match validatorCache s !! sm_address v with
    | Some _ => []
    | None => [QValidators (sm_address v)]
    end ++ queries w.
Proof.
  unfold filterItem, try_catch, bind, await, ret.
  repeat (break_match; simpl in *; simplify_eq); reflexivity.
Qed.

Lemma filterItems_queries s l : forall w,
  queries (Promise_all (filterItem api s) l w).2
  = rev (omap (fun v => match validatorCache s !! sm_address v with
                        | Some _ => None
                        | None => Some (QValidators (sm_address v))
                        end) l) ++ queries w.
Proof.
  induction l as [| v l IH]; intros w; [reflexivity |].
  cbn [Promise_all]. unfold bind at 1.
  pose proof (filterItem_queries s v w) as H1.
  destruct (filterItem_run api s v w) as (w1 & E1 & _). rewrite E1 in *. cbn [snd] in H1.
  unfold bind, ret. specialize (IH w1).
  destruct (filterItems_run api s l w1) as (w2 & E2 & _). rewrite E2 in *. cbn [snd] in *.
  rewrite IH, H1. csimpl.
  destruct (validatorCache s !! sm_address v); csimpl; [reflexivity |].
  rewrite <- app_assoc. reflexivity.
Qed.

Lemma applyFilters_queries w :
  queries (run (applyFilters api) w) = rev (filterQueries (store w)) ++ queries w.
Proof.
  unfold run, filterQueries, applyFilters, bind at 1, get. cbn [fst snd].
  unfold bind at 1, set at 1. unfold try_catch. unfold bind at 1.
  destruct (includeFullCommission (store w) && includeBlockedNominations (store w)).
  - unfold ret at 1. unfold bind at 1, set at 1. unfold bind at 1, get. simpl.
    destruct (existsb _ _ && _); reflexivity.
  - rewrite (for_batches_Promise_all (filterItem api (store w)) (omap id))
      by (reflexivity || apply omap_app).
    rewrite batches_concat by lia.
    unfold bind at 1.
    match goal with
    | |- context [Promise_all (filterItem api ?s) ?l ?w0] =>
        pose proof (filterItems_queries s l w0) as Hq;
        destruct (filterItems_run api s l w0) as (w1 & E1 & _)
    end.
    rewrite E1 in *. cbn [snd queries] in Hq.
    unfold ret at 1. unfold bind at 1, set at 1. unfold bind at 1, get. simpl.
    destruct (existsb _ _ && _); simpl; exact Hq.
Qed.

End Queries.

(** X18: a page load issues no query for an element that is cached and at
    most two for one that is not (its preferences, then its stake): the
    queries issued are at most twice the number of elements of the page
    slice that the cache does not hold, and none when the whole page is
    cached.  No query that was logged is lost. *)
Theorem page_load_queries_uncached_only (api : Api) (w : World) (page : Z) :
  exists qs,
    queries (run (fetchValidatorPage api page) w) = qs ++ queries w
    /\ (length qs <= 2 * length (uncached (store w) (pageValidators (store w) page)))%nat
    /\ ((forall e, e ∈ pageValidators (store w) page ->
                   is_Some (validatorCache (store w) !! fe_address e)) ->
        qs = []).
Proof.
  destruct (fetchValidatorPage_queries api page w) as (qs & Hqs & Hlen).
  exists qs. split; [exact Hqs |]. split; [lia |].
  intros Hall.
  assert (Hnil : uncached (store w) (pageValidators (store w) page) = []).
  { apply List_filter_none. intros e He. destruct (Hall e He) as [v Hv].
    apply bool_decide_eq_false_2. congruence. }
  rewrite Hnil in Hlen. destruct qs; [reflexivity | simpl in Hlen; lia].
Qed.

(** X19: [applyFilters] issues exactly one preference query for each ranked
    validator that is not cached, in the order of the ranking, and no
    other query; it issues none at all when both filters are on, and none
    for a cached validator. *)
Theorem applyFilters_queries_uncached_only (api : Api) (w : World) :
  queries (run (applyFilters api) w)
  = rev (if includeFullCommission (store w) && includeBlockedNominations (store w)
         then []
         else (fun v => QValidators (sm_address v))
                <$> List.filter
                      (fun v => bool_decide (validatorCache (store w) !! sm_address v = None))
                      (allValidators (store w)))
    ++ queries w.
Proof.
  rewrite applyFilters_queries. unfold filterQueries. do 2 f_equal.
  destruct (_ && _); [reflexivity |].
  induction (allValidators (store w)) as [| v l IH]; [reflexivity |].
  csimpl. destruct (validatorCache (store w) !! sm_address v); csimpl;
    rewrite IH; reflexivity.
Qed.

(** ** The bulk job and the projection *)

Lemma sameMembers_refl w : sameMembers w w.
Proof. unfold sameMembers. reflexivity. Qed.

Lemma sameMembers_trans w1 w2 w3 :
  sameMembers w1 w2 -> sameMembers w2 w3 -> sameMembers w1 w3.
Proof. unfold sameMembers. intros H1 H2. rewrite H2. exact H1. Qed.

Lemma unchanged_sameMembers w w' :
  unchanged filteredValidators w w' -> sameMembers w w'.
Proof. unfold unchanged, sameMembers, members. intros ->. reflexivity. Qed.

Ltac members_leaf :=
  is_primitive; intros ?w; unfold sameMembers, members, set, await, setTimeout;
  simpl; reflexivity.

Lemma bulk_sameMembers api :
  respects sameMembers (calculateLastEraAPYForAllValidators api).
Proof.
  unfold calculateLastEraAPYForAllValidators.
  through sameMembers_refl sameMembers_trans
          ltac:(first
            [ members_leaf
            | is_call; eapply respects_weaken;
              [ intros ? ?; apply unchanged_sameMembers
              | first [ apply (lastEraBatch_unchanged filteredValidators api)
                      | apply (fetchValidatorPage_unchanged filteredValidators api) ];
                repeat split ] ]).
  intros w. unfold sameMembers, members, set. simpl.
  rewrite (fmap_Permutation _ _ _ (sort_perm _ _)).
  rewrite <- list_fmap_compose. reflexivity.
Qed.

(** X20: the bulk job never adds, drops or duplicates a member of the
    projection and never changes its points: after it, whichever way it
    ends, [filteredValidators] holds the same addresses with the same
    points as before, maybe in another order, and [totalValidators] is
    unchanged; it never touches the ranking. *)
Theorem bulk_job_keeps_projection_members (api : Api) (w : World) :
  let w' := run (calculateLastEraAPYForAllValidators api) w in
  (fun e => (fe_address e, fe_points e)) <$> filteredValidators (store w')
  ≡ₚ (fun e => (fe_address e, fe_points e)) <$> filteredValidators (store w)
  /\ totalValidators (store w') = totalValidators (store w)
  /\ allValidators (store w') = allValidators (store w).
Proof.
  intros w'. split; [apply (bulk_sameMembers api w) |].
  pose proof (calculateLastEraAPYForAllValidators_unchanged
                (fun s => (totalValidators s, allValidators s)) api
                ltac:(repeat split) ltac:(repeat split) w) as H.
  unfold unchanged in H. injection H as H1 H2. split; assumption.
Qed.

(** X15: the loading flags never stay raised: when [fetchAllValidators]
    is done [loading] is off, when [applyFilters] is done, or a page load
    with a projection that is not empty, [loadingPage] is off, when the
    bulk job is done [calculatingLastEraAPY] is off, and when
    [calculateValidatorAPY] is done for a validator that the page or the
    cache holds [loadingAPY] is off; this whatever the chain answers,
    failures included. *)
Theorem loading_flags_are_lowered (api : Api) (w : World) :
  loading (store (run (fetchAllValidators api) w)) = false
  /\ loadingPage (store (run (applyFilters api) w)) = false
  /\ (forall page,
        filteredValidators (store w) <> [] ->
        loadingPage (store (run (fetchValidatorPage api page) w)) = false)
  /\ calculatingLastEraAPY (store (run (calculateLastEraAPYForAllValidators api) w)) = false
  /\ (forall a,
        is_Some (chosenValidator (store w) a) ->
        loadingAPY (store (run (calculateValidatorAPY api a) w)) = false).
Proof.
  split; [apply fetchAllValidators_lowers |]. split; [| split; [| split]].
  - unfold run. destruct (applyFilters_run api w) as (w' & -> & Hs).
    cbn [snd]. rewrite Hs. reflexivity.
  - intros page Hne. unfold run.
    destruct (fetchValidatorPage_run api page w Hne) as (vs & w1 & _ & _ & ->).
    reflexivity.
  - apply bulk_lowers.
  - intros a. apply calculateValidatorAPY_lowers.
Qed.

(** ** The length of the history *)

Section HistoryLength.

Variable api : Api.

Lemma setHistoryLength_length len w :
  historyLength (store (run (setHistoryLength api len) w))
  = Z.max 1 (Z.min len (maxHistoryLength (store w))).
Proof.
  unfold run. destruct (setHistoryLength api len w) as [r wf] eqn:E. cbn [snd].
  unfold setHistoryLength, bind at 1, get at 1 in E. cbv beta iota in E.
  unfold bind at 1, set at 1 in E. cbv beta iota in E.
  match type of E with
  | ?m ?w2 = _ =>
      assert (Hsame : respects (unchanged historyLength) m);
      [| pose proof (Hsame w2) as H; rewrite E in H; exact H ]
  end.
  through (unchanged_refl historyLength) (unchanged_trans historyLength)
          ltac:(first
            [ unread
            | is_call;
              first [ apply (fetchHistoricalPerformance_unchanged historyLength api)
                    | apply (calculateValidatorAPY_unchanged historyLength api) ];
              repeat split ]).
Qed.

Lemma setHistoryLength_window len w a :
  selectedHistoricalValidator (store w) = Some a -> a <> "" ->
  historicalEras (store (run (setHistoryLength api len) w))
  = erasBelow (activeEra (store w)) (Z.max 1 (Z.min len (maxHistoryLength (store w)))).
Proof.
  intros Hsel Hne.
  unfold run. destruct (setHistoryLength api len w) as [r wf] eqn:E. cbn [snd].
  unfold setHistoryLength, bind at 1, get at 1 in E. cbv beta iota in E.
  unfold bind at 1, set at 1 in E. cbv beta iota in E.
  unfold bind at 1, get at 1 in E. cbv beta iota in E. cbn [store] in E.
  change (selectedHistoricalValidator (set_historyLength ?x (store w)))
    with (selectedHistoricalValidator (store w)) in E.
  rewrite Hsel, bool_decide_eq_false_2 in E by exact Hne.
  unfold bind at 1 in E.
  match type of E with
  | context [fetchHistoricalPerformance api a true ?w2] =>
      destruct (fetchHistoricalPerformance_window api w2 a true Hne) as [Hw _];
      unfold run in Hw;
      destruct (fetchHistoricalPerformance api a true w2) as [[[] | msg] w3]
  end.
  - cbn [snd] in Hw.
    pose proof (calculateValidatorAPY_writes historicalEras api a
                  ltac:(intros ? ?; reflexivity) ltac:(intros ? ?; reflexivity)
                  ltac:(intros ? ?; reflexivity) ltac:(intros ? ?; reflexivity) w3) as H.
    rewrite E in H. unfold unchanged in H. cbn [snd] in H. rewrite H, Hw. reflexivity.
  - injection E as _ <-. exact Hw.
Qed.

End HistoryLength.

(** X21: [setHistoryLength] stores the requested length clamped into
    [1 .. maxHistoryLength]: the stored length is at least 1, and at most
    [maxHistoryLength] when that is at least 1.  With a validator selected,
    the history is then fetched over the window of that length: the eras
    below the active era, at most the new length of them; with none
    selected nothing else happens: no query, no other write. *)
Theorem setHistoryLength_clamps (api : Api) (w : World) (len : Z) :
  let w' := run (setHistoryLength api len) w in
  historyLength (store w') = Z.max 1 (Z.min len (maxHistoryLength (store w)))
  /\ 1 <= historyLength (store w')
  /\ (1 <= maxHistoryLength (store w) ->
      historyLength (store w') <= maxHistoryLength (store w))
  /\ (forall a,
        selectedHistoricalValidator (store w) = Some a -> a <> "" ->
        forall era,
          era ∈ historicalEras (store w')
          <-> Z.max 0 (activeEra (store w) - historyLength (store w')) <= era
              < activeEra (store w))
  /\ (selectedHistoricalValidator (store w) = None ->
      w' = {| store := set_historyLength (historyLength (store w')) (store w);
              queries := queries w; timers := timers w |}).
Proof.
  intros w'. pose proof (setHistoryLength_length api len w) as Hlen. fold w' in Hlen.
  split; [exact Hlen |]. split; [lia |]. split; [lia |]. split.
  - intros a Hsel Hne era. unfold w'.
    rewrite (setHistoryLength_window api len w a Hsel Hne).
    fold w'. rewrite Hlen. apply elem_of_erasBelow.
  - intros Hsel. rewrite Hlen. unfold w', run, setHistoryLength, bind, get, set, ret.
    cbn [fst snd store].
    change (selectedHistoricalValidator (set_historyLength ?x (store w)))
      with (selectedHistoricalValidator (store w)).
    rewrite Hsel. reflexivity.
Qed.
